(** * Client, CurOp, Context and the mutex primitives of the database server

    A shallow embedding of [util/concurrency/mutex.h] and [db/client.cpp]:
    the scoped-lock primitives, the per-thread Client with its stack of
    Contexts, the chain of CurOps, the kill coordinator and the registry-wide
    queries.  Objects that the C++ code reaches through pointers live in
    finite maps from addresses; exceptions are explicit outcomes. *)

From Stdlib Require Import Ascii.
From stdpp Require Import gmap strings list pretty.

Local Open Scope Z_scope.

(** ** Machine integers *)

(** A C++ [int] is 32 bits wide; arithmetic on it is written with its
    two's-complement wrap-around. *)
Definition INT_MAX : Z := 2147483647.

Definition wrap32 (z : Z) : Z := (z + 2147483648) mod 4294967296 - 2147483648.

Definition int_add (a b : Z) : Z := wrap32 (a + b).
Definition int_mul (a b : Z) : Z := wrap32 (a * b).

(** [unsigned long long] subtraction. *)
Definition u64_sub (a b : Z) : Z := (a - b) mod 18446744073709551616.

(** ** mutex.h *)

Module MutexH.

(** *** StaticObserver, mutex and SimpleMutex destruction *)

(** The two definitions of [SimpleMutex] are selected by the preprocessor. *)
Inductive Platform := Win32 | Pthread.

(** Native lock resources are identified by a handle. *)
Definition handle := positive.

(** Calls that release a native lock resource. *)
Inductive NativeCall :=
| DeleteBoostMutex (h : handle)        (* delete _m *)
| PthreadMutexDestroy (h : handle)     (* pthread_mutex_destroy(&_lock) *)
| DeleteCriticalSection (h : handle).  (* DeleteCriticalSection(&_cs) *)

Record Process := mkProcess {
  _destroyingStatics : bool;    (* StaticObserver::_destroyingStatics *)
  natives : gset handle;        (* native lock resources still alive *)
  nativeCalls : list NativeCall (* destruction calls made so far, oldest first *)
}.

(** [~StaticObserver() { _destroyingStatics = true; }] *)
Definition StaticObserver_dtor (p : Process) : Process :=
  mkProcess true (natives p) (nativeCalls p).

(** [~mutex()]: the boost mutex [_m] is deleted unless statics are being
    destroyed. *)
Definition mutex_dtor (_m : handle) (p : Process) : Process :=
  if negb (_destroyingStatics p) then
    mkProcess (_destroyingStatics p) (natives p ∖ {[_m]})
              (nativeCalls p ++ [DeleteBoostMutex _m])
  else p.

(** [~SimpleMutex()].  The pthread version tests the flag (the return code
    of [pthread_mutex_destroy] is taken to be 0); the [_WIN32] version
    deletes the critical section whatever the flag is. *)
Definition SimpleMutex_dtor (pf : Platform) (_lock : handle) (p : Process)
  : Process :=
  match pf with
  | Win32 =>
      mkProcess (_destroyingStatics p) (natives p ∖ {[_lock]})
                (nativeCalls p ++ [DeleteCriticalSection _lock])
  | Pthread =>
      if negb (_destroyingStatics p) then
        mkProcess (_destroyingStatics p) (natives p ∖ {[_lock]})
                  (nativeCalls p ++ [PthreadMutexDestroy _lock])
      else p
  end.

(** Destructions observed during the life of a process. *)
Inductive Destruction :=
| DestroyStaticObserver
| DestroyMutex (_m : handle)
| DestroySimpleMutex (pf : Platform) (_lock : handle).

Definition destroy (d : Destruction) (p : Process) : Process :=
  match d with
  | DestroyStaticObserver => StaticObserver_dtor p
  | DestroyMutex m => mutex_dtor m p
  | DestroySimpleMutex pf l => SimpleMutex_dtor pf l p
  end.

Definition destroy_all (ds : list Destruction) (p : Process) : Process :=
  foldl (fun q d => destroy d q) p ds.

(** Is [d] the destruction of the sentinel, and is it a destruction whose
    destructor consults the flag (all but the [_WIN32] SimpleMutex). *)
Definition is_sentinel (d : Destruction) : bool :=
  match d with DestroyStaticObserver => true | _ => false end.

Definition consults_flag (d : Destruction) : bool :=
  match d with DestroySimpleMutex Win32 _ => false | _ => true end.

(** *** RecursiveMutex *)

Definition thread := nat.

(** Outcome of a lock operation performed by one thread. *)
Inductive LockResult (S : Type) :=
| Done (s : S)       (* the operation returned *)
| Blocked            (* the thread waits inside pthread_mutex_lock *)
| AssertionFailed    (* assert(...) failed *)
| UndefinedBehaviour.
Arguments Done {S} s.
Arguments Blocked {S}.
Arguments AssertionFailed {S}.
Arguments UndefinedBehaviour {S}.

(** [SimpleMutex] (pthread version): a plain lock, held or free. *)
Definition SimpleMutex_lock (held : bool) : LockResult bool :=
  if held then Blocked else Done true.

Definition SimpleMutex_unlock (held : bool) : LockResult bool :=
  if held then Done false else UndefinedBehaviour.

Record RecursiveMutex := mkRM {
  m : bool;          (* SimpleMutex m: is the pthread mutex held *)
  n : thread -> Z    (* ThreadLocalValue<int> n, zero-initialised *)
}.

Definition RecursiveMutex_init : RecursiveMutex := mkRM false (fun _ => 0).

(** [bool isLocked() const { return n.get() > 0; }], evaluated on thread [t]. *)
Definition isLocked (t : thread) (rm : RecursiveMutex) : bool := 0 <? n rm t.

Definition set_n (t : thread) (v : Z) (rm : RecursiveMutex) : thread -> Z :=
  fun t' => if decide (t' = t) then v else n rm t'.

(** What the constructor of a scoped lock comes to on the thread that
    runs it. *)
Inductive CtorResult :=
| CtorDone (rm : RecursiveMutex)     (* the constructor returned *)
| CtorWaits (rm : RecursiveMutex)    (* the thread waits inside rm.m.lock(),
                                        its counter already incremented *)
| CtorUndefined.                     (* signed overflow of the counter *)

(** [nLocksByMe++ == 0] on thread [t]: the counter is incremented, and the
    test tells whether [rm.m.lock()] comes next. *)
Definition post_increment (t : thread) (rm : RecursiveMutex)
  : option (bool * RecursiveMutex) :=
  let nLocksByMe := n rm t in
  if nLocksByMe =? INT_MAX then None   (* signed overflow *)
  else Some (nLocksByMe =? 0, mkRM (m rm) (set_n t (nLocksByMe + 1) rm)).

(** [scoped_lock(RecursiveMutex&)]: [if( nLocksByMe++ == 0 ) rm.m.lock();]
    run by thread [t] with no other thread taking a step in between.  The
    counter is incremented before the SimpleMutex is asked for: a thread
    that has to wait does so with its counter already at 1. *)
Definition scoped_lock_ctor (t : thread) (rm : RecursiveMutex) : CtorResult :=
  match post_increment t rm with
  | None => CtorUndefined
  | Some (true, rm1) =>
      match SimpleMutex_lock (m rm1) with
      | Done held => CtorDone (mkRM held (n rm1))
      | Blocked => CtorWaits rm1
      | _ => CtorUndefined
      end
  | Some (false, rm1) => CtorDone rm1
  end.

(** [~scoped_lock()]:
    [assert( nLocksByMe > 0 ); if( --nLocksByMe == 0 ) rm.m.unlock();]
    [nLocksByMe] is the reference bound by the constructor: the counter of
    the thread [owner] that constructed the object, whichever thread runs
    the destructor. *)
Definition scoped_lock_dtor (owner : thread) (rm : RecursiveMutex)
  : LockResult RecursiveMutex :=
  let nLocksByMe := n rm owner in
  if negb (0 <? nLocksByMe) then AssertionFailed
  else
    let n' := set_n owner (nLocksByMe - 1) rm in
    if nLocksByMe - 1 =? 0 then
      match SimpleMutex_unlock (m rm) with
      | Done held => Done (mkRM held n')
      | Blocked => Blocked
      | AssertionFailed => AssertionFailed
      | UndefinedBehaviour => UndefinedBehaviour
      end
    else Done (mkRM (m rm) n').

(** The threads around one RecursiveMutex: the object, and which threads
    are inside a constructor, between the increment of their counter and
    the return of [rm.m.lock()]. *)
Record Threads := mkThreads {
  mutex : RecursiveMutex;
  inLock : thread -> bool
}.

Definition Threads_init : Threads := mkThreads RecursiveMutex_init (fun _ => false).

Definition set_inLock (t : thread) (b : bool) (s : Threads) : thread -> bool :=
  fun t' => if decide (t' = t) then b else inLock s t'.

(** The steps the threads can take, interleaved in any order: a thread
    increments its counter, and when it was 0 goes on to [rm.m.lock()];
    [rm.m.lock()] returns to a thread inside it once the SimpleMutex is
    free; a scoped lock that a thread has constructed is destroyed (a
    thread inside [rm.m.lock()] has constructed none yet: its counter
    was 0 before the increment). *)
Inductive step : Threads -> Threads -> Prop :=
| step_increment t s first rm1 :
    inLock s t = false ->
    post_increment t (mutex s) = Some (first, rm1) ->
    step s (mkThreads rm1 (set_inLock t first s))
| step_acquire t s held :
    inLock s t = true ->
    SimpleMutex_lock (m (mutex s)) = Done held ->
    step s (mkThreads (mkRM held (n (mutex s))) (set_inLock t false s))
| step_destroy t s rm' :
    inLock s t = false ->
    scoped_lock_dtor t (mutex s) = Done rm' ->
    step s (mkThreads rm' (inLock s)).

Inductive reachable : Threads -> Prop :=
| reachable_init : reachable Threads_init
| reachable_step s s' : reachable s -> step s s' -> reachable s'.

(** What the counters and the SimpleMutex satisfy together: no counter is
    negative, a thread inside [rm.m.lock()] has its counter at 1, the
    SimpleMutex is held exactly when some thread that is not inside
    [rm.m.lock()] has a positive counter, and there is at most one such
    thread. *)
Definition rm_inv (s : Threads) : Prop :=
  (forall u, 0 <= n (mutex s) u) /\
  (forall u, inLock s u = true -> n (mutex s) u = 1) /\
  (m (mutex s) = true <->
   exists u, 0 < n (mutex s) u /\ inLock s u = false) /\
  (forall u v, 0 < n (mutex s) u -> inLock s u = false ->
               0 < n (mutex s) v -> inLock s v = false -> u = v).



End MutexH.

(** ** client.cpp *)

Module ClientCpp.

Definition addr := positive.

(** *** Data *)

(** Modelled from the spec: the operation kinds of a CurOp ([enum
    Operations] is declared outside these sources); [opInvalid] is the kind
    of an operation that has not been given one yet. *)
Inductive Operations :=
| opInvalid | opReply | dbMsg | dbUpdate | dbInsert | dbQuery
| dbGetMore | dbDelete | dbKillCursors.

(** The members of [Database] that client.cpp reads. *)
Record Database := mkDatabase {
  name : string;
  profile : Z;
  isOk : bool
}.

Record CurOp := mkCurOp {
  _opNum : N;                (* AtomicUInt _opNum *)
  _wrapped : option addr;    (* CurOp * _wrapped, the parent *)
  _killed : bool;
  _active : bool;
  _start : Z;                (* unsigned long long, 0 while not started *)
  _checkpoint : Z;
  _lockType : Z;             (* > 0 write, < 0 read, 0 none *)
  _waitingForLock : bool;
  _op : Operations;
  _ns : string;
  _dbprofile : Z;
  _command : bool;
  _remote : string           (* what getRemoteString() renders *)
}.

Record Context := mkContext {
  _client : addr;
  _oldContext : option addr;
  _path : string;
  _justCreated : bool;
  ctx_ns : string;           (* Context::_ns *)
  _db : option Database
}.

Record Client := mkClient {
  _context : option addr;
  _curOp : option addr
}.

Inductive Event :=
| EvReadLock | EvReadUnlock | EvWriteLock | EvWriteUnlock
| EvDbCreated (path dbname : string)
| EvContextBuilt (this : addr)
| EvContextDestroyed (this : addr)
| EvTopRecord (ns : string) (op : Operations) (lockType micros : Z)
              (command : bool)                 (* Top::global.record *)
| EvInterruptJs (op : option N).               (* interrupt(op) / interruptAll() *)

Record World := mkWorld {
  clients : list addr;              (* Client::clients, in iteration order *)
  clientObjs : gmap addr Client;
  curOps : gmap addr CurOp;
  contexts : gmap addr Context;     (* the Context objects that are alive *)
  currentClient : option addr;      (* the thread's currentClient slot *)
  dbMutexState : Z;                 (* dbMutex.getState() on this thread *)
  dbHolder : gmap (string * string) Database;  (* by path and database name *)
  _globalKill : bool;
  log : list Event                  (* observable effects, oldest first *)
}.

(** The collaborators outside client.cpp. *)
Record Env := mkEnv {
  dbpath : string;                          (* mongo::dbpath *)
  shardVersionOk : string -> bool * string; (* ok, errmsg *)
  isAuthorizedForLock : string -> Z -> bool;(* _client->_ai *)
  fileAllocatorHasFailed : bool;            (* FileAllocator::get()->hasFailed() *)
  globalScriptEngine : bool;                (* is there a script engine *)
  defaultProfile : Z                        (* profile of a database just opened *)
}.

Inductive Exn :=
| AssertionException (expr : string)              (* assert( expr ) failed *)
| UserException (code : Z) (msg : string)         (* uasserted / uassert *)
| SendStaleConfigException (ns msg : string)
| DatabaseNotOpened (path db : string).           (* getOrCreate refused to
                                                     create the database *)

Inductive Outcome (A : Type) :=
| Returned (a : A) (w : World)
| Threw (e : Exn) (w : World)
| Undefined                                       (* null or dangling pointer *)
| OutOfFuel.                                      (* a loop bound was exhausted *)
Arguments Returned {A} a w.
Arguments Threw {A} e w.
Arguments Undefined {A}.
Arguments OutOfFuel {A}.

(** *** A state and exception monad over the World *)

Definition M (A : Type) := World -> Outcome A.

Definition ret {A} (a : A) : M A := fun w => Returned a w.

Definition bind {A B} (c : M A) (k : A -> M B) : M B :=
  fun w =>
    match c w with
    | Returned a w' => k a w'
    | Threw e w' => Threw e w'
    | Undefined => Undefined
    | OutOfFuel => OutOfFuel
    end.

Notation "'let*' x ':=' c 'in' k" := (bind c (fun x => k))
  (at level 10, x pattern, c at level 100, k at level 200).
Notation "c ';;' k" := (bind c (fun _ => k))
  (at level 100, k at level 200, right associativity).

Definition throw {A} (e : Exn) : M A := fun w => Threw e w.
Definition undefined {A} : M A := fun _ => Undefined.
Definition out_of_fuel {A} : M A := fun _ => OutOfFuel.
Definition get : M World := fun w => Returned w w.
Definition modify (f : World -> World) : M unit := fun w => Returned tt (f w).

Definition assert (b : bool) (expr : string) : M unit :=
  if b then ret tt else throw (AssertionException expr).

(** Running a cleanup when [c] throws, as stack unwinding does for the
    automatic objects of the enclosing scope. *)
Definition unwinding {A} (c : M A) (cleanup : M unit) : M A :=
  fun w =>
    match c w with
    | Threw e w' =>
        match cleanup w' with
        | Returned _ w'' => Threw e w''
        | Threw e' w'' => Threw e' w''
        | Undefined => Undefined
        | OutOfFuel => OutOfFuel
        end
    | r => r
    end.

Definition of_option {A} (o : option A) : M A :=
  match o with Some a => ret a | None => undefined end.

Definition set_clientObjs (f : gmap addr Client -> gmap addr Client) (w : World) :=
  mkWorld (clients w) (f (clientObjs w)) (curOps w) (contexts w)
          (currentClient w) (dbMutexState w) (dbHolder w) (_globalKill w) (log w).
Definition set_curOps (f : gmap addr CurOp -> gmap addr CurOp) (w : World) :=
  mkWorld (clients w) (clientObjs w) (f (curOps w)) (contexts w)
          (currentClient w) (dbMutexState w) (dbHolder w) (_globalKill w) (log w).
Definition set_contexts (f : gmap addr Context -> gmap addr Context) (w : World) :=
  mkWorld (clients w) (clientObjs w) (curOps w) (f (contexts w))
          (currentClient w) (dbMutexState w) (dbHolder w) (_globalKill w) (log w).
Definition set_dbMutexState (s : Z) (w : World) :=
  mkWorld (clients w) (clientObjs w) (curOps w) (contexts w)
          (currentClient w) s (dbHolder w) (_globalKill w) (log w).
Definition set_dbHolder
  (f : gmap (string * string) Database -> gmap (string * string) Database)
  (w : World) :=
  mkWorld (clients w) (clientObjs w) (curOps w) (contexts w)
          (currentClient w) (dbMutexState w) (f (dbHolder w)) (_globalKill w) (log w).
Definition set_globalKill (b : bool) (w : World) :=
  mkWorld (clients w) (clientObjs w) (curOps w) (contexts w)
          (currentClient w) (dbMutexState w) (dbHolder w) b (log w).
Definition emit_event (e : Event) (w : World) :=
  mkWorld (clients w) (clientObjs w) (curOps w) (contexts w)
          (currentClient w) (dbMutexState w) (dbHolder w) (_globalKill w)
          (log w ++ [e]).

Definition emit (e : Event) : M unit := modify (emit_event e).

Definition deref_client (c : addr) : M Client :=
  fun w => of_option (clientObjs w !! c) w.
Definition deref_curop (a : addr) : M CurOp :=
  fun w => of_option (curOps w !! a) w.
Definition deref_context (a : addr) : M Context :=
  fun w => of_option (contexts w !! a) w.

(** [currentClient.get()], dereferenced by the caller. *)
Definition currentClient_get : M addr :=
  fun w => of_option (currentClient w) w.

(** [_client->_context = v] *)
Definition store_client_context (c : addr) (v : option addr) : M unit :=
  let* cl := deref_client c in
  modify (set_clientObjs (<[c := mkClient v (_curOp cl)]>)).

(** [_client->_curOp], dereferenced. *)
Definition client_curop (c : addr) : M addr :=
  let* cl := deref_client c in of_option (_curOp cl).

(** *** CurOp *)

Definition set_killed (b : bool) (co : CurOp) : CurOp :=
  mkCurOp (_opNum co) (_wrapped co) b (_active co) (_start co) (_checkpoint co)
          (_lockType co) (_waitingForLock co) (_op co) (_ns co) (_dbprofile co)
          (_command co) (_remote co).
Definition set_start (t : Z) (co : CurOp) : CurOp :=
  mkCurOp (_opNum co) (_wrapped co) (_killed co) (_active co) t (_checkpoint co)
          (_lockType co) (_waitingForLock co) (_op co) (_ns co) (_dbprofile co)
          (_command co) (_remote co).
Definition set_checkpoint (t : Z) (co : CurOp) : CurOp :=
  mkCurOp (_opNum co) (_wrapped co) (_killed co) (_active co) (_start co) t
          (_lockType co) (_waitingForLock co) (_op co) (_ns co) (_dbprofile co)
          (_command co) (_remote co).
Definition set_ns (s : string) (co : CurOp) : CurOp :=
  mkCurOp (_opNum co) (_wrapped co) (_killed co) (_active co) (_start co)
          (_checkpoint co) (_lockType co) (_waitingForLock co) (_op co) s
          (_dbprofile co) (_command co) (_remote co).
Definition set_dbprofile (p : Z) (co : CurOp) : CurOp :=
  mkCurOp (_opNum co) (_wrapped co) (_killed co) (_active co) (_start co)
          (_checkpoint co) (_lockType co) (_waitingForLock co) (_op co) (_ns co)
          p (_command co) (_remote co).

(** Modelled from the spec: the inline members of CurOp (its class
    declaration is outside these sources).  [kill] sets the killed flag and
    [killed] reads it; [parent], [opNum], [active], [getLockType],
    [isWaitingForLock], [getOp] and [getRemoteString] read the attribute of
    that name; [setNS] records the namespace. *)
Definition CurOp_kill (co : CurOp) : CurOp := set_killed true co.
Definition killed (co : CurOp) : bool := _killed co.
Definition parent (co : CurOp) : option addr := _wrapped co.
Definition opNum (co : CurOp) : N := _opNum co.
Definition active (co : CurOp) : bool := _active co.
Definition getLockType (co : CurOp) : Z := _lockType co.
Definition isWaitingForLock (co : CurOp) : bool := _waitingForLock co.
Definition getOp (co : CurOp) : Operations := _op co.
Definition getRemoteString (co : CurOp) : string := _remote co.
Definition setNS (ns : string) (co : CurOp) : CurOp := set_ns ns co.

(** Modelled from the spec: [CurOp::ensureStarted] (declared outside these
    sources) marks the operation started: an operation without a start
    timestamp gets the clock reading [now]. *)
Definition ensureStarted (now : positive) (co : CurOp) : CurOp :=
  if _start co =? 0 then set_start (Z.pos now) co else co.

(** An operation is started once its start timestamp is set ([infoNoauth]
    reports it active when [_active && _start]). *)
Definition started (co : CurOp) : bool := negb (_start co =? 0).

(** [CurOp::enter]; [now] is the reading of the clock. *)
Definition CurOp_enter (now : positive) (context : Context) (co : CurOp) : CurOp :=
  let co := ensureStarted now co in
  let co := setNS (ctx_ns context) co in
  set_dbprofile (match _db context with Some d => profile d | None => 0 end) co.

(** [CurOp::leave]: the elapsed time goes to [Top::global.record] and the
    checkpoint is reset. *)
Definition CurOp_leave (now : positive) (co : CurOp) : CurOp * Event :=
  (set_checkpoint (Z.pos now) co,
   EvTopRecord (_ns co) (_op co) (_lockType co)
               (u64_sub (Z.pos now) (_checkpoint co)) (_command co)).

(** [_client->_curOp->enter( this )] *)
Definition client_enter (now : positive) (c : addr) (context : Context) : M unit :=
  let* a := client_curop c in
  let* co := deref_curop a in
  modify (set_curOps (<[a := CurOp_enter now context co]>)).

(** [_client->_curOp->leave( this )] *)
Definition client_leave (now : positive) (c : addr) : M unit :=
  let* a := client_curop c in
  let* co := deref_curop a in
  modify (set_curOps (<[a := fst (CurOp_leave now co)]>)) ;;
  emit (snd (CurOp_leave now co)).

(** [Client::clientAddress] (its [includePort] argument only selects how
    the remote address is rendered). *)
Definition clientAddress (c : addr) : M string :=
  let* cl := deref_client c in
  match _curOp cl with
  | Some a => let* co := deref_curop a in ret (getRemoteString co)
  | None => ret EmptyString
  end.

(** *** Locks and the database holder *)

Definition getState : M Z := fun w => Returned (dbMutexState w) w.

(** Modelled from the spec: the scoped guards [readlock] and [writelock]
    over [dbMutex] (declared outside these sources).  The lock state of the
    thread is 0 when unlocked, the write nesting count when write locked and
    minus the read nesting count when read locked; a read lock taken inside
    a write lock nests in the write lock.  A write lock cannot be taken from
    a read lock. *)
Definition readlock_ctor : M unit :=
  let* s := getState in
  modify (set_dbMutexState (if 0 <? s then s + 1 else s - 1)) ;;
  emit EvReadLock.

Definition readlock_dtor : M unit :=
  let* s := getState in
  assert (negb (s =? 0)) "unlock_shared: not locked" ;;
  modify (set_dbMutexState (if 0 <? s then s - 1 else s + 1)) ;;
  emit EvReadUnlock.

Definition writelock_ctor : M unit :=
  let* s := getState in
  assert (0 <=? s) "locks are not upgradeable" ;;
  modify (set_dbMutexState (s + 1)) ;;
  emit EvWriteLock.

Definition writelock_dtor : M unit :=
  let* s := getState in
  assert (0 <? s) "unlock: not write locked" ;;
  modify (set_dbMutexState (s - 1)) ;;
  emit EvWriteUnlock.

(** The database of a namespace: what precedes its first dot (compare
    [Context::inDB]). *)
Fixpoint nsToDatabase (ns : string) : string :=
  match ns with
  | EmptyString => EmptyString
  | String ch rest =>
      if Ascii.eqb ch "."%char then EmptyString else String ch (nsToDatabase rest)
  end.

(** Modelled from the spec: database resolution ([dbHolder] is declared
    outside these sources).  [get] returns the existing handle or nothing;
    [getOrCreate] returns the handle and whether it had to be created.
    Creating a database requires a write-level lock: without one,
    [getOrCreate] of a database that does not exist throws and creates
    nothing (as the comment in ReadContext has it, the construction under
    the read lock "will throw" when the database is gone). *)
Definition dbHolder_get (ns path : string) : M (option Database) :=
  fun w => Returned (dbHolder w !! (path, nsToDatabase ns)) w.

Definition dbHolder_getOrCreate (env : Env) (ns path : string)
  : M (Database * bool) :=
  let* found := dbHolder_get ns path in
  match found with
  | Some d => ret (d, false)
  | None =>
      let* lockState := getState in
      if 0 <? lockState then
        let d := mkDatabase (nsToDatabase ns) (defaultProfile env) true in
        modify (set_dbHolder (<[(path, nsToDatabase ns) := d]>)) ;;
        emit (EvDbCreated path (nsToDatabase ns)) ;;
        ret (d, true)
      else throw (DatabaseNotOpened path (nsToDatabase ns))
  end.

(** *** Context *)

(** [Client::checkLocks] has a body only in CLC builds. *)
Definition checkLocks : M unit := ret tt.

(** [Client::Context::checkNotStale] *)
Definition checkNotStale (env : Env) (self : Context) : M unit :=
  let* a := client_curop (_client self) in
  let* co := deref_curop a in
  match getOp co with
  | dbGetMore | dbUpdate | dbDelete => ret tt
  | _ =>
      let '(ok, errmsg) := shardVersionOk env (ctx_ns self) in
      if ok then ret tt
      else throw (SendStaleConfigException (ctx_ns self)
                    ("[" +:+ ctx_ns self
                     +:+ "] shard version not ok in Client::Context: "
                     +:+ errmsg))
  end.

(** [Client::Context::_auth( int lockState )] *)
Definition _auth (env : Env) (self : Context) (lockState : Z) : M unit :=
  let* d := of_option (_db self) in
  if isAuthorizedForLock env (name d) lockState then ret tt
  else
    (* before we assert, do a little cleanup *)
    store_client_context (_client self) (_oldContext self) ;;
    let* a := clientAddress (_client self) in
    throw (UserException 10057
             ("unauthorized db:" +:+ name d +:+ " lock type:"
              +:+ pretty lockState +:+ " client:" +:+ a)).

(** The object under construction becomes a live Context. *)
Definition constructed (this : addr) (self : Context) : M unit :=
  modify (set_contexts (<[this := self]>)) ;;
  emit (EvContextBuilt this).

(** [Context( string ns , Database * db, bool doauth )].  [_auth()] is
    called without an argument: its default is [dbMutex.getState()]. *)
Definition Context_ns_db (env : Env) (this : addr)
  (ns : string) (db : option Database) (doauth : bool) : M unit :=
  let* c := currentClient_get in
  let* cl := deref_client c in
  let self := mkContext c (_context cl) (dbpath env) false ns db in
  assert (match db with None => true | Some d => isOk d end)
         "db == 0 || db->isOk()" ;;
  store_client_context c (Some this) ;;
  (if doauth then (let* s := getState in _auth env self s) else ret tt) ;;
  checkLocks ;;
  constructed this self.

(** [Client::Context::_finishInit]; returns the object with [_db] and
    [_justCreated] filled in. *)
Definition _finishInit (env : Env) (now : positive) (this : addr)
  (self : Context) (doauth : bool) : M Context :=
  let* lockState := getState in
  assert (negb (lockState =? 0)) "lockState" ;;
  (if (0 <? lockState) && fileAllocatorHasFailed env
   then throw (UserException 14031
                 "Can't take a write lock while out of disk space")
   else ret tt) ;;
  let* r := dbHolder_getOrCreate env (ctx_ns self) (_path self) in
  let self := mkContext (_client self) (_oldContext self) (_path self)
                        (snd r) (ctx_ns self) (Some (fst r)) in
  checkNotStale env self ;;
  store_client_context (_client self) (Some this) ;;
  client_enter now (_client self) self ;;
  (if doauth then _auth env self lockState else ret tt) ;;
  ret self.

(** [Context( const string& ns, string path , bool doauth )] *)
Definition Context_ns_path (env : Env) (now : positive) (this : addr)
  (ns path : string) (doauth : bool) : M unit :=
  let* c := currentClient_get in
  let* cl := deref_client c in
  let self := mkContext c (_context cl) path false ns None in
  let* self := _finishInit env now this self doauth in
  checkLocks ;;
  constructed this self.

(** [Context( const string& path, const string& ns, Database *db,
    bool doauth )], invoked from ReadContext. *)
Definition Context_path_ns_db (env : Env) (now : positive) (this : addr)
  (path ns : string) (db : option Database) (doauth : bool) : M unit :=
  let* c := currentClient_get in
  let* cl := deref_client c in
  let self := mkContext c (_context cl) path false ns db in
  assert (bool_decide (is_Some db)) "_db" ;;
  checkNotStale env self ;;
  store_client_context c (Some this) ;;
  client_enter now c self ;;
  (if doauth then (let* s := getState in _auth env self s) else ret tt) ;;
  checkLocks ;;
  constructed this self.

(** [Client::Context::~Context()] (the [DEV] assertion that [_client] is
    the thread's client is compiled in debug builds only). *)
Definition Context_dtor (now : positive) (this : addr) : M unit :=
  let* self := deref_context this in
  client_leave now (_client self) ;;
  store_client_context (_client self) (_oldContext self) ;;
  modify (set_contexts (delete this)) ;;
  emit (EvContextDestroyed this).

(** *** ReadContext *)

Record ReadContext := mkReadContext {
  lk : bool;            (* scoped_ptr<readlock>: is a read lock owned *)
  c : option addr       (* scoped_ptr<Context> *)
}.

(** [Client::ReadContext::ReadContext].  [tmp] is where the Context of the
    inner write-locked block is built, [this] where the Context kept in [c]
    is built; [now1], [now2], [now3] are the clock readings of the
    successive enter and leave calls.  When the constructor throws, the
    read lock owned by [lk] is released by unwinding. *)
Definition ReadContext_ctor (env : Env) (now1 now2 now3 : positive)
  (tmp this : addr) (ns path : string) (doauth : bool) : M ReadContext :=
  readlock_ctor ;;
  let* db := dbHolder_get ns path in
  match db with
  | Some d =>
      unwinding (Context_path_ns_db env now1 this path ns (Some d) doauth)
                readlock_dtor ;;
      ret (mkReadContext true (Some this))
  | None =>
      (* we usually don't get here *)
      let* x := getState in
      if 0 <? x then
        (* write locked already *)
        unwinding (Context_ns_path env now1 this ns path doauth)
                  readlock_dtor ;;
        ret (mkReadContext true (Some this))
      else if x =? -1 then
        readlock_dtor ;;
        writelock_ctor ;;
        unwinding (Context_ns_path env now1 tmp ns path doauth)
                  writelock_dtor ;;
        Context_dtor now2 tmp ;;
        writelock_dtor ;;
        readlock_ctor ;;
        unwinding (Context_ns_path env now3 this ns path doauth)
                  readlock_dtor ;;
        ret (mkReadContext true (Some this))
      else
        unwinding
          (assert (x <? -1) "x < -1" ;;
           throw (UserException 15928
                    ("can't open a database from a nested read lock " +:+ ns)))
          readlock_dtor
  end.

(** *** Scopes: Contexts as automatic objects *)

Inductive ContextArgs :=
| ArgsNsDb (ns : string) (db : option Database) (doauth : bool)
| ArgsNsPath (ns path : string) (doauth : bool)
| ArgsPathNsDb (path ns : string) (db : option Database) (doauth : bool).

Definition Context_ctor (env : Env) (now : positive) (this : addr)
  (args : ContextArgs) : M unit :=
  match args with
  | ArgsNsDb ns db doauth => Context_ns_db env this ns db doauth
  | ArgsNsPath ns path doauth => Context_ns_path env now this ns path doauth
  | ArgsPathNsDb path ns db doauth =>
      Context_path_ns_db env now this path ns db doauth
  end.

(** What a thread does with Contexts: it constructs one at some address,
    or the innermost live one goes out of scope (by normal exit or by
    unwinding). *)
Inductive ScopeEvent :=
| Construct (now : positive) (this : addr) (args : ContextArgs)
| Destruct (now : positive).

(** [live] lists the Contexts constructed and not yet destroyed, innermost
    first.  A constructor that throws leaves no object behind; the events
    after it are those of the unwinding.  [None] when the sequence is not
    one a C++ program can produce (storage reused while alive, destruction
    of nothing) or when it runs into undefined behaviour. *)
Fixpoint run_scopes (env : Env) (evs : list ScopeEvent) (live : list addr)
  (w : World) : option (list addr * World) :=
  match evs with
  | [] => Some (live, w)
  | Construct now this args :: rest =>
      if bool_decide (is_Some (contexts w !! this)) then None
      else
        match Context_ctor env now this args w with
        | Returned _ w' => run_scopes env rest (this :: live) w'
        | Threw _ w' => run_scopes env rest live w'
        | _ => None
        end
  | Destruct now :: rest =>
      match live with
      | [] => None
      | this :: live' =>
          match Context_dtor now this w with
          | Returned _ w' => run_scopes env rest live' w'
          | _ => None
          end
      end
  end.

(** The current Context of the thread's Client. *)
Definition current_context (w : World) : option (option addr) :=
  c ← currentClient w; cl ← clientObjs w !! c; Some (_context cl).

(** *** Kill coordinator *)

(** [KillCurrentOp::interruptJs( AtomicUInt *op )] *)
Definition interruptJs (env : Env) (op : option N) : M unit :=
  if negb (globalScriptEngine env) then ret tt
  else emit (EvInterruptJs op).

(** [KillCurrentOp::killAll] *)
Definition killAll (env : Env) : M unit :=
  modify (set_globalKill true) ;;
  interruptJs env None.

(** [k->kill()] *)
Definition kill_curop (a : addr) : M unit :=
  let* co := deref_curop a in
  modify (set_curOps (<[a := CurOp_kill co]>)).

(** [for( CurOp *l = ( *j )->curop(); l != k; l = l->parent() ) l->kill();] *)
Fixpoint kill_until (fuel : nat) (l : option addr) (k : addr) : M unit :=
  match fuel with
  | O => out_of_fuel
  | S fuel' =>
      if bool_decide (l = Some k) then ret tt
      else
        let* a := of_option l in
        kill_curop a ;;
        let* co := deref_curop a in
        kill_until fuel' (parent co) k
  end.

(** [for( CurOp *k = ( *j )->curop(); !found && k; k = k->parent() )];
    returns [found]. *)
Fixpoint scan_chain (fuel0 fuel : nat) (j : addr) (k : option addr) (i : N)
  : M bool :=
  match fuel with
  | O => out_of_fuel
  | S fuel' =>
      match k with
      | None => ret false
      | Some a =>
          let* co := deref_curop a in
          if bool_decide (opNum co = i) then
            kill_curop a ;;
            let* cl := deref_client j in
            kill_until fuel0 (_curOp cl) a ;;
            ret true
          else scan_chain fuel0 fuel' j (parent co) i
      end
  end.

(** The loop over [Client::clients]; it stops at the first client on which
    the operation is found. *)
Fixpoint scan_clients (fuel : nat) (js : list addr) (i : N) : M bool :=
  match js with
  | [] => ret false
  | j :: rest =>
      let* cl := deref_client j in
      let* found := scan_chain fuel fuel j (_curOp cl) i in
      if found then ret true else scan_clients fuel rest i
  end.

(** [KillCurrentOp::kill(AtomicUInt i)].  A chain of distinct CurOps is no
    longer than the number of CurOps, which bounds every loop. *)
Definition KillCurrentOp_kill (env : Env) (i : N) : M unit :=
  let* w := get in
  let* found := scan_clients (S (size (curOps w))) (clients w) i in
  if found then interruptJs env (Some i) else ret tt.

(** *** Registry-wide queries *)

(** Modelled from the spec: [KillCurrentOp::checkForInterruptNoAssert]
    (declared outside these sources) returns the empty string unless the
    current operation has been flagged for interruption, by the global kill
    flag or by its own killed flag. *)
Definition checkForInterruptNoAssert : M string :=
  let* w := get in
  if _globalKill w then ret "interrupted at shutdown"
  else
    let* c := currentClient_get in
    let* a := client_curop c in
    let* co := deref_curop a in
    if killed co then ret "interrupted" else ret "".

(** The loop of [recommendedYieldMicros] over [clients]. *)
Fixpoint yield_scan (cs : list addr) (num w r : Z) : M (Z * Z * Z) :=
  match cs with
  | [] => ret (num, w, r)
  | c :: rest =>
      let* a := client_curop c in
      let* co := deref_curop a in
      if isWaitingForLock co then
        if 0 <? getLockType co
        then yield_scan rest (int_add num 1) (int_add w 1) r
        else yield_scan rest (int_add num 1) w (int_add r 1)
      else yield_scan rest num w r
  end.

(** [Client::recommendedYieldMicros( int * writers , int * readers )];
    returns the result with what is stored through [writers] and [readers]
    when they are not null. *)
Definition recommendedYieldMicros : M (Z * Z * Z) :=
  let* w0 := get in
  let* counts := yield_scan (clients w0) 0 0 0 in
  let w := snd (fst counts) in
  let r := snd counts in
  let time := int_mul r 100 in
  let time := int_add time (int_mul w 500) in
  let time := Z.min time 1000000 in
  let* interrupted := checkForInterruptNoAssert in
  match interrupted with
  | String _ _ => ret (100, w, r)
  | EmptyString => ret (time, w, r)
  end.

(** The loop of [getActiveClientCount] over [clients]. *)
Fixpoint active_scan (cs : list addr) (writers readers : Z) : M (Z * Z) :=
  match cs with
  | [] => ret (writers, readers)
  | c :: rest =>
      let* a := client_curop c in
      let* co := deref_curop a in
      if negb (active co) then active_scan rest writers readers
      else
        let l := getLockType co in
        if 0 <? l then active_scan rest (int_add writers 1) readers
        else if l <? 0 then active_scan rest writers (int_add readers 1)
        else active_scan rest writers readers
  end.

(** [Client::getActiveClientCount( int& writers, int& readers )]; returns
    the result, [writers] and [readers]. *)
Definition getActiveClientCount : M (Z * Z * Z) :=
  let* w0 := get in
  let* wr := active_scan (clients w0) 0 0 in
  ret (int_add (fst wr) (snd wr), fst wr, snd wr).

(** The CurOp that a registered client is running. *)
Definition curop_of (w : World) (c : addr) : option CurOp :=
  cl ← clientObjs w !! c; a ← _curOp cl; curOps w !! a.

(** Waiting writers and readers as the yield advisor tells them apart, and
    active writers and readers as the active count does. *)
Definition waitingWriter (co : CurOp) : bool :=
  isWaitingForLock co && (0 <? getLockType co).
Definition waitingReader (co : CurOp) : bool :=
  isWaitingForLock co && negb (0 <? getLockType co).
Definition activeWriter (co : CurOp) : bool :=
  active co && (0 <? getLockType co).
Definition activeReader (co : CurOp) : bool :=
  active co && (getLockType co <? 0).

Definition count (p : CurOp -> bool) (ops : list CurOp) : Z :=
  Z.of_nat (length (List.filter p ops)).

(** [ops] are the current operations of the registered clients, in
    registry order. *)
Definition registry_ops (w : World) (ops : list CurOp) : Prop :=
  Forall2 (fun c co => curop_of w c = Some co) (clients w) ops.

(** The operation the calling thread is running. *)
Definition current_curop (w : World) : option CurOp :=
  c ← currentClient w; curop_of w c.

(** Has the operation [cur] of the calling thread been flagged for
    interruption. *)
Definition interrupt_flagged (w : World) (cur : CurOp) : bool :=
  _globalKill w || killed cur.

(** The chain of CurOps from [p] through the parent links. *)
Inductive chain (h : gmap addr CurOp) : option addr -> list addr -> Prop :=
| chain_nil : chain h None []
| chain_cons a co l :
    h !! a = Some co -> chain h (parent co) l -> chain h (Some a) (a :: l).

Definition with_curOps (h : gmap addr CurOp) (w : World) : World :=
  set_curOps (fun _ => h) w.

(** No CurOp at address [a] carries the operation number [i]. *)
Definition no_match (i : N) (h : gmap addr CurOp) (a : addr) : Prop :=
  forall co, h !! a = Some co -> opNum co <> i.

(** Client [j] has a finite chain of CurOps none of which is number [i]. *)
Definition chain_without (i : N) (w : World) (j : addr) : Prop :=
  exists cl l, clientObjs w !! j = Some cl /\
    chain (curOps w) (_curOp cl) l /\ Forall (no_match i (curOps w)) l.

(** The CurOps at the addresses [l] marked killed. *)
Definition kill_all (l : list addr) (h : gmap addr CurOp) : gmap addr CurOp :=
  foldl (fun h a => alter CurOp_kill a h) h l.

(** What a Context constructor does to the stack of Contexts: when it
    returns, the new Context remembers the Context that was current and is
    itself current; when it throws, nothing has changed. *)
Definition ctor_effect (this : addr) (w : World) (r : Outcome unit) : Prop :=
  match r with
  | Returned _ w' =>
      exists c cl C,
        currentClient w = Some c /\ clientObjs w !! c = Some cl /\
        _client C = c /\ _oldContext C = _context cl /\
        contexts w' = <[this := C]> (contexts w) /\
        currentClient w' = Some c /\
        current_context w' = Some (Some this)
  | Threw _ w' =>
      contexts w' = contexts w /\ currentClient w' = currentClient w /\
      current_context w' = current_context w
  | _ => True
  end.

(** The operation kinds that [checkNotStale] lets through unchecked. *)
Definition exempt (op : Operations) : bool :=
  match op with
  | dbGetMore | dbUpdate | dbDelete => true
  | _ => false
  end.

(** The database [getOrCreate] hands out for [ns] under [path], when it
    hands one out. *)
Definition resolved_db (env : Env) (w : World) (ns path : string) : Database :=
  match dbHolder w !! (path, nsToDatabase ns) with
  | Some d => d
  | None => mkDatabase (nsToDatabase ns) (defaultProfile env) true
  end.

(** Does [getOrCreate] hand out a database for [ns] under [path]: it is
    there, or a write lock is held under which it is created. *)
Definition opens (w : World) (ns path : string) : bool :=
  match dbHolder w !! (path, nsToDatabase ns) with
  | Some _ => true
  | None => 0 <? dbMutexState w
  end.

(** The namespace on which a construction runs the staleness check, when
    it gets as far as the check: the constructor over a namespace and a
    database handle has no such check; [_finishInit] comes to it when a
    lock is held, the disk is not full under a write lock, and the
    database is there or can be created. *)
Definition reaches_stale_check (env : Env) (args : ContextArgs) (w : World)
  : option string :=
  match args with
  | ArgsNsDb _ _ _ => None
  | ArgsNsPath ns path _ =>
      if negb (dbMutexState w =? 0)
         && negb ((0 <? dbMutexState w) && fileAllocatorHasFailed env)
         && opens w ns path
      then Some ns else None
  | ArgsPathNsDb path ns (Some _) _ => Some ns
  | ArgsPathNsDb path ns None _ => None
  end.


(** Does the constructor run [checkNotStale] and call [CurOp::enter]:
    [_finishInit] and the constructor invoked from ReadContext do, the
    constructor over a namespace and a database handle does not. *)
Definition calls_enter (args : ContextArgs) : bool :=
  match args with
  | ArgsNsDb _ _ _ => false
  | ArgsNsPath _ _ _ | ArgsPathNsDb _ _ _ _ => true
  end.

Definition args_ns (args : ContextArgs) : string :=
  match args with
  | ArgsNsDb ns _ _ | ArgsNsPath ns _ _ | ArgsPathNsDb _ ns _ _ => ns
  end.

(** The state after [getOrCreate] for [ns] under [path] has handed out a
    database. *)
Definition db_created (env : Env) (ns path : string) (w : World) : World :=
  match dbHolder w !! (path, nsToDatabase ns) with
  | Some _ => w
  | None =>
      emit_event (EvDbCreated path (nsToDatabase ns))
        (set_dbHolder
           (<[(path, nsToDatabase ns) :=
                mkDatabase (nsToDatabase ns) (defaultProfile env) true]>) w)
  end.

(** The state after Context [C] has been built at [this] for the client
    [c] (object [cl]) whose current CurOp [co] is at [a], and the state
    after it has been destroyed. *)
Definition context_entered (now : positive) (this c : addr) (cl : Client)
  (a : addr) (co : CurOp) (C : Context) (w : World) : World :=
  emit_event (EvContextBuilt this)
    (set_contexts (<[this := C]>)
       (set_curOps (<[a := CurOp_enter now C co]>)
          (set_clientObjs (<[c := mkClient (Some this) (_curOp cl)]>) w))).

Definition context_left (now : positive) (this c : addr) (cl : Client)
  (a : addr) (co : CurOp) (C : Context) (w : World) : World :=
  emit_event (EvContextDestroyed this)
    (set_contexts (delete this)
       (set_clientObjs (<[c := mkClient (_oldContext C) (_curOp cl)]>)
          (emit_event (snd (CurOp_leave now co))
             (set_curOps (<[a := fst (CurOp_leave now co)]>) w)))).

(** The state after [_auth] has refused a construction that had entered
    the CurOp [co] at [a]: the Client's Context is put back, the CurOp
    stays entered. *)
Definition entered_only (now : positive) (a : addr) (co : CurOp) (C : Context)
  (w : World) : World :=
  set_curOps (<[a := CurOp_enter now C co]>) w.

(** The checks of a construction, for an operation of kind [op]: is the
    staleness check passed, and is the authorization, when asked for,
    granted; and the errors thrown when they are not. *)
Definition fresh (env : Env) (op : Operations) (ns : string) : bool :=
  exempt op || fst (shardVersionOk env ns).

Definition permitted (env : Env) (doauth : bool) (d : Database) (lockState : Z)
  : bool :=
  negb doauth || isAuthorizedForLock env (name d) lockState.

Definition stale_error (env : Env) (ns : string) : Exn :=
  SendStaleConfigException ns
    ("[" +:+ ns +:+ "] shard version not ok in Client::Context: "
     +:+ snd (shardVersionOk env ns)).

Definition unauthorized_error (d : Database) (lockState : Z) (co : CurOp)
  : Exn :=
  UserException 10057
    ("unauthorized db:" +:+ name d +:+ " lock type:" +:+ pretty lockState
     +:+ " client:" +:+ getRemoteString co).

(** What a construction that got past the locks and the database
    resolution throws when one of its checks fails. *)
Definition check_error (env : Env) (co : CurOp) (ns : string) (d : Database)
  (lockState : Z) : Exn :=
  if fresh env (getOp co) ns then unauthorized_error d lockState co
  else stale_error env ns.

(** [w'] is [w] but for its CurOps. *)
Definition only_curOps_differ (w w' : World) : Prop :=
  clients w' = clients w /\ clientObjs w' = clientObjs w /\
  contexts w' = contexts w /\ currentClient w' = currentClient w /\
  dbMutexState w' = dbMutexState w /\ dbHolder w' = dbHolder w /\
  _globalKill w' = _globalKill w /\ log w' = log w.


(** The lock state [dbMutex.getState()] shows once a read lock has been
    taken from state [s]: above 0 inside a write lock, -1 for a single read
    lock, below -1 for a nested read lock. *)
Definition read_locked_state (s : Z) : Z := if 0 <? s then s + 1 else s - 1.

(** The live Contexts [live] (innermost first) of the Client of thread
    state [w0] form a stack: the current Context is the innermost one,
    each remembers the one below it, and the outermost remembers the
    Context that was current in [w0]. *)
Fixpoint stack_ok (w0 : World) (ctxs : gmap addr Context) (live : list addr)
  (cur : option (option addr)) : Prop :=
  match live with
  | [] => cur = current_context w0
  | p :: rest =>
      cur = Some (Some p) /\
      exists C, ctxs !! p = Some C /\ currentClient w0 = Some (_client C) /\
                stack_ok w0 ctxs rest (Some (_oldContext C))
  end.

Definition scopes_inv (w0 : World) (live : list addr) (w : World) : Prop :=
  currentClient w = currentClient w0 /\ NoDup live /\
  stack_ok w0 (contexts w) live (current_context w).

(** *** A small server state, for examples *)

Definition sample_curop (num : N) (par : option addr) (act waiting : bool)
  (lockType : Z) : CurOp :=
  mkCurOp num par false act 0 0 lockType waiting dbQuery "test.coll" 0 false
          "127.0.0.1".

(** Three clients; the second runs operation 8 nested in 7 nested in 6. *)
Definition sample_world : World :=
  mkWorld [1; 2; 3]%positive
    (<[1%positive := mkClient None (Some 10%positive)]>
       (<[2%positive := mkClient None (Some 20%positive)]>
          (<[3%positive := mkClient None (Some 30%positive)]> ∅)))
    (<[10%positive := sample_curop 5 None true false 1]>
       (<[20%positive := sample_curop 8 (Some 21%positive) true true (-1)]>
          (<[21%positive := sample_curop 7 (Some 22%positive) true false (-1)]>
             (<[22%positive := sample_curop 6 None true false 0]>
                (<[30%positive := sample_curop 9 None true true 1]> ∅)))))
    ∅ (Some 1%positive) 0 ∅ false [].

Definition sample_ops : list CurOp :=
  [sample_curop 5 None true false 1;
   sample_curop 8 (Some 21%positive) true true (-1);
   sample_curop 9 None true true 1].

(** A Context is entered, a second one fails to construct (no lock is
    held), and unwinding destroys the first. *)
Definition sample_scopes : list ScopeEvent :=
  [Construct 1 100%positive (ArgsNsDb "test.coll" None false);
   Construct 2 101%positive (ArgsNsPath "test.coll" "/data/db" true);
   Destruct 3].

(** Collaborators that find every shard version stale, and collaborators
    that authorize nobody. *)
Definition stale_env : Env :=
  mkEnv "/data/db" (fun _ => (false, "version mismatch")) (fun _ _ => true)
        false true 0.

Definition deny_env : Env :=
  mkEnv "/data/db" (fun _ => (true, EmptyString)) (fun _ _ => false)
        false true 0.

Definition sample_env : Env :=
  mkEnv "/data/db" (fun _ => (true, EmptyString)) (fun _ _ => true)
        false true 0.

End ClientCpp.

(** ** mutex.h: the timed-lock deadline and the debug SimpleMutex *)

Module MutexTimed.
Import MutexH.

(** [boost::xtime]: seconds and nanoseconds. *)
Record xtime := mkXtime { sec : Z; nsec : Z }.

(** [incxtimemillis( long long s )]; [now] is what [boost::xtime_get]
    reads from the clock.  [/] and [%] truncate toward zero, and both
    quantities are cast to [int] before they are added. *)
Definition incxtimemillis (now : xtime) (s : Z) : xtime :=
  let sec1 := sec now + wrap32 (Z.quot s 1000) in
  let nsec1 := nsec now + wrap32 (Z.rem s 1000 * 1000000) in
  if 1000000000 <=? nsec1
  then mkXtime (sec1 + 1) (nsec1 - 1000000000)
  else mkXtime sec1 nsec1.

(** The nanoseconds an [xtime] stands for. *)
Definition nanos (t : xtime) : Z := sec t * 1000000000 + nsec t.

(** The native calls a sequence of destructions makes once statics are
    being destroyed: those of the [_WIN32] SimpleMutexes. *)
Definition unguarded_calls (ds : list Destruction) : list NativeCall :=
  flat_map (fun d => match d with
                     | DestroySimpleMutex Win32 h => [DeleteCriticalSection h]
                     | _ => []
                     end) ds.

(** *** SimpleMutex, [_WIN32] with [_DEBUG] *)

(** A Windows critical section: its owner and how many times the owner
    has entered it. *)
Record CriticalSection := mkCS { owner : option thread; entered : nat }.

Definition EnterCriticalSection (t : thread) (cs : CriticalSection)
  : LockResult CriticalSection :=
  match owner cs with
  | None => Done (mkCS (Some t) 1)
  | Some u => if decide (u = t) then Done (mkCS (Some t) (S (entered cs)))
              else Blocked
  end.

Definition LeaveCriticalSection (t : thread) (cs : CriticalSection)
  : LockResult CriticalSection :=
  match owner cs with
  | Some u =>
      if decide (u = t) then
        match entered cs with
        | S (S k) => Done (mkCS (Some t) (S k))
        | _ => Done (mkCS None 0)
        end
      else UndefinedBehaviour
  | None => UndefinedBehaviour
  end.

Record DebugSimpleMutex := mkDSM {
  _cs : CriticalSection;
  _nlocksByMe : thread -> Z        (* ThreadLocalValue<int> *)
}.

Definition DebugSimpleMutex_init : DebugSimpleMutex :=
  mkDSM (mkCS None 0) (fun _ => 0).

Definition set_nlocks (t : thread) (v : Z) (sm : DebugSimpleMutex)
  : thread -> Z :=
  fun t' => if decide (t' = t) then v else _nlocksByMe sm t'.

(** [lock()]: [assert( _nlocksByMe.get() == 0 ); _nlocksByMe.set(1);
    EnterCriticalSection(&_cs);]  A thread that has to wait does not
    complete the call. *)
Definition debug_lock (t : thread) (sm : DebugSimpleMutex)
  : LockResult DebugSimpleMutex :=
  if negb (_nlocksByMe sm t =? 0) then AssertionFailed
  else
    match EnterCriticalSection t (_cs sm) with
    | Done cs => Done (mkDSM cs (set_nlocks t 1 sm))
    | Blocked => Blocked
    | AssertionFailed => AssertionFailed
    | UndefinedBehaviour => UndefinedBehaviour
    end.

(** [unlock()]: [dassertLocked(); _nlocksByMe.set(0);
    LeaveCriticalSection(&_cs);] *)
Definition debug_unlock (t : thread) (sm : DebugSimpleMutex)
  : LockResult DebugSimpleMutex :=
  if negb (_nlocksByMe sm t =? 1) then AssertionFailed
  else
    match LeaveCriticalSection t (_cs sm) with
    | Done cs => Done (mkDSM cs (set_nlocks t 0 sm))
    | Blocked => Blocked
    | AssertionFailed => AssertionFailed
    | UndefinedBehaviour => UndefinedBehaviour
    end.

Inductive debug_step : DebugSimpleMutex -> DebugSimpleMutex -> Prop :=
| debug_step_lock t sm sm' : debug_lock t sm = Done sm' -> debug_step sm sm'
| debug_step_unlock t sm sm' :
    debug_unlock t sm = Done sm' -> debug_step sm sm'.

Inductive debug_reachable : DebugSimpleMutex -> Prop :=
| debug_reachable_init : debug_reachable DebugSimpleMutex_init
| debug_reachable_step sm sm' :
    debug_reachable sm -> debug_step sm sm' -> debug_reachable sm'.

(** The counters are 0 or 1, and the critical section is owned, entered
    once, by the thread whose counter is 1. *)
Definition dsm_inv (sm : DebugSimpleMutex) : Prop :=
  (forall u, _nlocksByMe sm u = 0 \/ _nlocksByMe sm u = 1) /\
  (forall u, _nlocksByMe sm u = 1 <-> owner (_cs sm) = Some u) /\
  (owner (_cs sm) = None -> entered (_cs sm) = 0%nat) /\
  (is_Some (owner (_cs sm)) -> entered (_cs sm) = 1%nat).

End MutexTimed.

(** ** client.cpp: namespaces, the life of Clients and CurOps *)

Module ClientLife.
Import ClientCpp.

(** *** Namespace tests *)

(** [std::string::find( t )] on [s]: where [t] first occurs, if it does. *)
Fixpoint string_find (s t : string) : option nat :=
  if String.prefix t s then Some 0%nat
  else
    match s with
    | EmptyString => None
    | String _ s' => S <$> string_find s' t
    end.

(** [s[n]]: the character at [n], and the terminating NUL at the end. *)
Definition char_at (s : string) (n : nat) : ascii :=
  match String.get n s with
  | Some ch => ch
  | None => Ascii.zero
  end.

(** [subcollectionOf( const string& parent, const char *child )] *)
Definition subcollectionOf (parent child : string) : bool :=
  String.eqb parent child
  || ((String.length parent <? String.length child)%nat
      && Ascii.eqb (char_at child (String.length parent)) "."%char).

(** [Client::Context::inDB( const string& db , const string& path )] *)
Definition inDB (self : Context) (db path : string) : bool :=
  if negb (String.eqb (_path self) path) then false
  else if String.eqb db (ctx_ns self) then true
  else
    match string_find (ctx_ns self) db with
    | Some O => Ascii.eqb (char_at (ctx_ns self) (String.length db)) "."%char
    | _ => false
    end.

(** *** The end of a CurOp *)

(** [_client->_curOp = v] *)
Definition store_client_curop (client : addr) (v : option addr) : M unit :=
  let* cl := deref_client client in
  modify (set_clientObjs (<[client := mkClient (_context cl) v]>)).

(** [CurOp::~CurOp()] for the CurOp at [this], whose [_client] is
    [client]: a wrapped CurOp gives the Client its parent back; then the
    object is gone. *)
Definition CurOp_dtor (this client : addr) : M unit :=
  let* co := deref_curop this in
  match _wrapped co with
  | Some p => store_client_curop client (Some p)
  | None => ret tt
  end ;;
  modify (set_curOps (delete this)).

(** Every registered client has a chain of CurOps that ends. *)
Definition well_formed_registry (w : World) : Prop :=
  Forall (fun j => exists cl l, clientObjs w !! j = Some cl /\
                                chain (curOps w) (_curOp cl) l)
         (clients w).

(** What [kill(i)] leaves behind when it has found the operation and
    marked the CurOps at [l]. *)
Definition killed_world (env : Env) (i : N) (l : list addr) (w : World)
  : World :=
  let w1 := with_curOps (kill_all l (curOps w)) w in
  if globalScriptEngine env then emit_event (EvInterruptJs (Some i)) w1
  else w1.

(** *** The life of a Client *)

(** [std::set<Client*>]: kept in increasing order, without duplicates. *)
Fixpoint set_insert (x : addr) (l : list addr) : list addr :=
  match l with
  | [] => [x]
  | y :: l' =>
      if (x <? y)%positive then x :: l
      else if (x =? y)%positive then l
      else y :: set_insert x l'
  end.

Definition set_erase (x : addr) (l : list addr) : list addr :=
  List.filter (fun y => negb (x =? y)%positive) l.

Definition set_clients (f : list addr -> list addr) (w : World) : World :=
  mkWorld (f (clients w)) (clientObjs w) (curOps w) (contexts w)
          (currentClient w) (dbMutexState w) (dbHolder w) (_globalKill w)
          (log w).
Definition set_currentClient (v : option addr) (w : World) : World :=
  mkWorld (clients w) (clientObjs w) (curOps w) (contexts w)
          v (dbMutexState w) (dbHolder w) (_globalKill w) (log w).

(** The server as the Client's own members see it: the World, the
    [_shutdown] flag of each Client object, [Client::syncThread], and what
    [inShutdown()] answers. *)
Record Server := mkServer {
  world : World;
  _shutdown : gmap addr bool;
  syncThread : option addr;
  inShutdown : bool
}.

Inductive Res (A : Type) :=
| Ok (a : A) (s : Server)
| Asserted (expr : string) (s : Server)   (* assert( expr ) failed *)
| Relocked                                (* clientsMutex, which is not
                                             recursive, taken by its holder *)
| Undef.                                  (* storage misuse *)
Arguments Ok {A} a s.
Arguments Asserted {A} expr s.
Arguments Relocked {A}.
Arguments Undef {A}.

Definition set_world (f : World -> World) (s : Server) : Server :=
  mkServer (f (world s)) (_shutdown s) (syncThread s) (inShutdown s).

(** [Client::Client], run by [new Client(desc, mp)] at address [c]: no
    Context, not shut down, a new CurOp (the object [co0] that
    [new CurOp( this )] builds, at address [a]), and the Client is
    registered. *)
Definition Client_ctor (c a : addr) (co0 : CurOp) (s : Server) : Server :=
  mkServer
    (set_clients (set_insert c)
       (set_curOps (<[a := co0]>)
          (set_clientObjs (<[c := mkClient None (Some a)]>) (world s))))
    (<[c := false]> (_shutdown s)) (syncThread s) (inShutdown s).

(** [Client::initThread]; [c] and [a] are the addresses the two [new]
    expressions return, which are not those of live objects. *)
Definition initThread (c a : addr) (co0 : CurOp) (s : Server) : Res addr :=
  match currentClient (world s) with
  | Some _ => Asserted "currentClient.get() == 0" s
  | None =>
      if bool_decide (is_Some (clientObjs (world s) !! c))
         || bool_decide (is_Some (curOps (world s) !! a))
      then Undef
      else Ok c (set_world (set_currentClient (Some c))
                           (Client_ctor c a co0 s))
  end.

(** Modelled from the spec: [isSyncThread()] (declared outside these
    sources) tells whether the Client is the replication-apply thread,
    the one [Client::syncThread] points to. *)
Definition isSyncThread (this : addr) (s : Server) : bool :=
  bool_decide (syncThread s = Some this).

(** [Client::shutdown()] *)
Definition shutdown (this : addr) (s : Server) : Res bool :=
  match clientObjs (world s) !! this with
  | None => Undef
  | Some _ =>
      let s1 := mkServer (world s) (<[this := true]> (_shutdown s))
                         (syncThread s) (inShutdown s) in
      if inShutdown s1 then Ok false s1
      else
        Ok false
           (mkServer (set_clients (set_erase this) (world s1)) (_shutdown s1)
                     (if isSyncThread this s1 then None else syncThread s1)
                     (inShutdown s1))
  end.

(** [Client::~Client()]; returns the errors it logs ([desc] is the
    Client's description).  Outside shutdown, and under [clientsMutex],
    the Client leaves the registry if [shutdown()] has not done it and
    [_curOp] is deleted: [~CurOp] of a wrapped CurOp takes [clientsMutex]
    itself.  Then the object is gone. *)
Definition Client_dtor (this : addr) (desc : string) (s : Server)
  : Res (list string) :=
  match clientObjs (world s) !! this, _shutdown s !! this with
  | Some cl, Some down =>
      let errors :=
        (if bool_decide (is_Some (_context cl))
         then ["Client::~Client _context should be null but is not; client:"
               +:+ desc]
         else [])
        ++ (if negb down then ["Client::shutdown not called: " +:+ desc]
            else []) in
      let gone (w : World) := set_clientObjs (delete this) w in
      if negb (inShutdown s) then
        let w1 := if negb down then set_clients (set_erase this) (world s)
                  else world s in
        match _curOp cl with
        | Some a =>
            match curOps w1 !! a with
            | Some co =>
                if bool_decide (is_Some (_wrapped co)) then Relocked
                else
                  Ok errors
                     (mkServer (gone (set_curOps (delete a) w1))
                               (delete this (_shutdown s))
                               (syncThread s) (inShutdown s))
            | None => Undef
            end
        | None =>
            Ok errors (mkServer (gone w1) (delete this (_shutdown s))
                                (syncThread s) (inShutdown s))
        end
      else
        Ok errors (mkServer (gone (world s)) (delete this (_shutdown s))
                            (syncThread s) (inShutdown s))
  | _, _ => Undef
  end.

(** The Top record a destroyed Context leaves in the log. *)
Definition top_records (l : list Event) : list string :=
  flat_map (fun e => match e with
                     | EvTopRecord ns _ _ _ _ => [ns]
                     | _ => []
                     end) l.

(** A computation that leaves the thread's lock state as it found it,
    whether it returns or throws. *)
Definition lock_neutral {A} (m : M A) : Prop :=
  forall w,
    match m w with
    | Returned _ w' | Threw _ w' => dbMutexState w' = dbMutexState w
    | _ => True
    end.

End ClientLife.

(** * Properties *)

Lemma wrap32_small z : -2147483648 <= z <= INT_MAX -> wrap32 z = z.
Proof.
  unfold wrap32, INT_MAX. intros H.
  rewrite Z.mod_small by lia. lia.
Qed.

Module MutexFacts.
Import MutexH.

(** ** Shutdown safety of the destructors *)

Lemma destroy_flag d p :
  _destroyingStatics (destroy d p) = _destroyingStatics p || is_sentinel d.
Proof.
  destruct d as [|h|[] h]; simpl; unfold mutex_dtor, SimpleMutex_dtor;
    destruct (_destroyingStatics p) eqn:E; simpl; rewrite ?E; reflexivity.
Qed.

Lemma destroy_all_flag ds p :
  _destroyingStatics p = true -> _destroyingStatics (destroy_all ds p) = true.
Proof.
  revert p. induction ds as [|d ds IH]; intros p Hp; simpl; [assumption|].
  apply IH. rewrite destroy_flag, Hp. reflexivity.
Qed.

Lemma destroy_flagged d p :
  _destroyingStatics p = true -> consults_flag d = true -> destroy d p = p.
Proof.
  intros Hp Hd. destruct d as [|h|[] h]; simpl in *;
    unfold StaticObserver_dtor, mutex_dtor; try rewrite Hp; try discriminate;
    try reflexivity.
  destruct p as [f ns cs]; simpl in *. subst f. reflexivity.
Qed.

Lemma destroy_all_flagged ds p :
  _destroyingStatics p = true ->
  forallb consults_flag ds = true ->
  destroy_all ds p = p.
Proof.
  revert p. induction ds as [|d ds IH]; intros p Hp Hds; simpl in *;
    [reflexivity|].
  apply andb_true_iff in Hds as [Hd Hds].
  rewrite (destroy_flagged d p Hp Hd). apply IH; assumption.
Qed.

(** C9, as the claim states it, fails on the [_WIN32] SimpleMutex: with the
    flag set, its destructor still deletes the critical section. *)
Lemma win32_SimpleMutex_destroyed_during_static_destruction :
  let p := mkProcess true {[ 1%positive ]} [] in
  _destroyingStatics p = true /\
  nativeCalls (SimpleMutex_dtor Win32 1%positive p)
    = [DeleteCriticalSection 1%positive] /\
  natives (SimpleMutex_dtor Win32 1%positive p) = ∅.
Proof.
  simpl. split; [reflexivity|]. split; [reflexivity|]. set_solver.
Qed.

(** C9 (amended): once [_destroyingStatics] is set, the destructor of a
    [mutex] and the destructor of a pthread [SimpleMutex] leave the process
    as it is: the boost mutex is not deleted and [pthread_mutex_destroy] is
    not called; so does every sequence of destructions that has no [_WIN32]
    SimpleMutex in it.  A destruction sets the flag exactly when it is the
    destruction of the StaticObserver sentinel, and no destruction clears
    it. *)
Theorem destroying_statics_skips_native_destruction
  (p : Process) (h : handle) (ds : list Destruction)
  (Hflag : _destroyingStatics p = true) :
  mutex_dtor h p = p /\
  SimpleMutex_dtor Pthread h p = p /\
  (forallb consults_flag ds = true -> destroy_all ds p = p) /\
  _destroyingStatics (destroy_all ds p) = true /\
  (forall d q,
     _destroyingStatics (destroy d q) = _destroyingStatics q || is_sentinel d).
Proof.
  split; [|split; [|split; [|split]]].
  - exact (destroy_flagged (DestroyMutex h) p Hflag eq_refl).
  - exact (destroy_flagged (DestroySimpleMutex Pthread h) p Hflag eq_refl).
  - apply destroy_all_flagged; assumption.
  - apply destroy_all_flag; assumption.
  - intros d q. apply destroy_flag.
Qed.

Lemma destroying_statics_skips_native_destruction_witness :
  let p := destroy DestroyStaticObserver (mkProcess false {[ 1%positive ]} []) in
  mutex_dtor 1%positive p = p /\
  SimpleMutex_dtor Pthread 1%positive p = p /\
  (forallb consults_flag [DestroyMutex 1%positive] = true ->
   destroy_all [DestroyMutex 1%positive] p = p) /\
  _destroyingStatics (destroy_all [DestroyMutex 1%positive] p) = true /\
  (forall d q,
     _destroyingStatics (destroy d q) = _destroyingStatics q || is_sentinel d).
Proof.
  apply (destroying_statics_skips_native_destruction
           (destroy DestroyStaticObserver (mkProcess false {[ 1%positive ]} []))
           1%positive [DestroyMutex 1%positive]).
  reflexivity.
Defined.

(** ** RecursiveMutex *)

Lemma rm_inv_init : rm_inv Threads_init.
Proof.
  unfold rm_inv, Threads_init, RecursiveMutex_init; simpl.
  split; [|split; [|split; [split|]]].
  - intros; lia.
  - discriminate.
  - discriminate.
  - intros (u & Hu & _). lia.
  - intros u v Hu. lia.
Qed.

Lemma set_n_same t v rm : set_n t v rm t = v.
Proof. unfold set_n. destruct (decide (t = t)); [reflexivity|congruence]. Qed.

Lemma set_n_other t v rm u : u <> t -> set_n t v rm u = n rm u.
Proof. unfold set_n. intros H. destruct (decide (u = t)); [contradiction|reflexivity]. Qed.

Lemma set_inLock_same t b s : set_inLock t b s t = b.
Proof. unfold set_inLock. destruct (decide (t = t)); [reflexivity|congruence]. Qed.

Lemma set_inLock_other t b s u : u <> t -> set_inLock t b s u = inLock s u.
Proof.
  unfold set_inLock. intros H. destruct (decide (u = t)); [contradiction|reflexivity].
Qed.

(** A thread outside [rm.m.lock()] with a positive counter is the only
    one, and it holds the SimpleMutex. *)
Lemma rm_inv_holder s t :
  rm_inv s -> 0 < n (mutex s) t -> inLock s t = false ->
  m (mutex s) = true /\
  forall u, u <> t -> inLock s u = false -> n (mutex s) u = 0.
Proof.
  intros (Hnn & Hw & Hheld & Huniq) Hpos Hout. split.
  - apply Hheld. exists t. split; assumption.
  - intros u Hne Hu. destruct (Z.eq_dec (n (mutex s) u) 0) as [|Hnz]; [assumption|].
    exfalso. apply Hne. apply Huniq; try assumption. specialize (Hnn u). lia.
Qed.

Lemma rm_inv_free s :
  rm_inv s -> m (mutex s) = false ->
  forall u, inLock s u = false -> n (mutex s) u = 0.
Proof.
  intros (Hnn & _ & Hheld & _) Hfree u Hu.
  destruct (Z.eq_dec (n (mutex s) u) 0) as [|Hne]; [assumption|].
  assert (m (mutex s) = true); [|congruence].
  apply Hheld. exists u. specialize (Hnn u). split; [lia|assumption].
Qed.

Lemma step_inv s s' : rm_inv s -> step s s' -> rm_inv s'.
Proof.
  intros Hinv Hstep.
  destruct Hstep as [t s first rm1 Hout Hinc | t s held Hin Hlock
                    | t s rm' Hout Hd].
  - (* nLocksByMe++ *)
    unfold post_increment in Hinc.
    destruct (n (mutex s) t =? INT_MAX); [discriminate|].
    injection Hinc as <- <-.
    destruct Hinv as (Hnn & Hw & Hheld & Huniq).
    destruct (Z.eqb_spec (n (mutex s) t) 0) as [E0|E0].
    + (* the counter was 0: the thread goes on to rm.m.lock() *)
      unfold rm_inv; simpl. split; [|split; [|split; [split|]]].
      * intros u. destruct (decide (u = t)) as [->|Hne];
          [rewrite set_n_same; lia | rewrite set_n_other by assumption; apply Hnn].
      * intros u. destruct (decide (u = t)) as [->|Hne].
        -- rewrite set_n_same. lia.
        -- rewrite set_n_other, set_inLock_other by assumption. apply Hw.
      * intros Hm. destruct (proj1 Hheld Hm) as (u & Hu & Huo).
        exists u. assert (u <> t) by (intros ->; lia).
        rewrite set_n_other, set_inLock_other by assumption. split; assumption.
      * intros (u & Hu & Huo). apply Hheld.
        destruct (decide (u = t)) as [->|Hne];
          [rewrite set_inLock_same in Huo; discriminate|].
        rewrite set_n_other in Hu by assumption.
        rewrite set_inLock_other in Huo by assumption.
        exists u. split; assumption.
      * intros u v Hu Huo Hv Hvo.
        destruct (decide (u = t)) as [->|Hnu];
          [rewrite set_inLock_same in Huo; discriminate|].
        destruct (decide (v = t)) as [->|Hnv];
          [rewrite set_inLock_same in Hvo; discriminate|].
        rewrite set_n_other in Hu, Hv by assumption.
        rewrite set_inLock_other in Huo, Hvo by assumption.
        apply Huniq; assumption.
    + (* the thread holds the lock already *)
      assert (Hpos : 0 < n (mutex s) t) by (specialize (Hnn t); lia).
      unfold rm_inv; simpl. split; [|split; [|split; [split|]]].
      * intros u. destruct (decide (u = t)) as [->|Hne];
          [rewrite set_n_same; lia | rewrite set_n_other by assumption; apply Hnn].
      * intros u. destruct (decide (u = t)) as [->|Hne].
        -- rewrite set_inLock_same. discriminate.
        -- rewrite set_n_other, set_inLock_other by assumption. apply Hw.
      * intros _. exists t. rewrite set_n_same, set_inLock_same. split; [lia|reflexivity].
      * intros _. apply Hheld. exists t. split; assumption.
      * intros u v Hu Huo Hv Hvo.
        assert (Hu' : 0 < n (mutex s) u /\ inLock s u = false).
        { destruct (decide (u = t)) as [->|Hne]; [split; assumption|].
          rewrite set_n_other in Hu by assumption.
          rewrite set_inLock_other in Huo by assumption. split; assumption. }
        assert (Hv' : 0 < n (mutex s) v /\ inLock s v = false).
        { destruct (decide (v = t)) as [->|Hne]; [split; assumption|].
          rewrite set_n_other in Hv by assumption.
          rewrite set_inLock_other in Hvo by assumption. split; assumption. }
        apply Huniq; tauto.
  - (* rm.m.lock() returns *)
    unfold SimpleMutex_lock in Hlock.
    destruct (m (mutex s)) eqn:Hm; [discriminate|]. injection Hlock as <-.
    pose proof (rm_inv_free s Hinv Hm) as Hzero.
    destruct Hinv as (Hnn & Hw & Hheld & Huniq).
    unfold rm_inv; simpl. split; [|split; [|split; [split|]]].
    + exact Hnn.
    + intros u. destruct (decide (u = t)) as [->|Hne].
      * rewrite set_inLock_same. discriminate.
      * rewrite set_inLock_other by assumption. apply Hw.
    + intros _. exists t. rewrite set_inLock_same, (Hw t Hin). split; [lia|reflexivity].
    + reflexivity.
    + intros u v Hu Huo Hv Hvo.
      destruct (decide (u = t)) as [->|Hnu], (decide (v = t)) as [->|Hnv];
        try reflexivity.
      * rewrite set_inLock_other in Hvo by assumption.
        rewrite (Hzero v Hvo) in Hv. lia.
      * rewrite set_inLock_other in Huo by assumption.
        rewrite (Hzero u Huo) in Hu. lia.
      * rewrite set_inLock_other in Huo by assumption.
        rewrite (Hzero u Huo) in Hu. lia.
  - (* ~scoped_lock *)
    unfold scoped_lock_dtor, SimpleMutex_unlock in Hd.
    destruct (0 <? n (mutex s) t) eqn:Epos; simpl in Hd; [|discriminate].
    apply Z.ltb_lt in Epos.
    destruct (rm_inv_holder s t Hinv Epos Hout) as (Hm & Hothers).
    destruct Hinv as (Hnn & Hw & Hheld & Huniq).
    destruct (n (mutex s) t - 1 =? 0) eqn:E1.
    + apply Z.eqb_eq in E1. rewrite Hm in Hd. injection Hd as <-.
      unfold rm_inv; simpl. split; [|split; [|split; [split|]]].
      * intros u. destruct (decide (u = t)) as [->|Hne];
          [rewrite set_n_same; lia | rewrite set_n_other by assumption; apply Hnn].
      * intros u Hu. assert (u <> t) by (intros ->; congruence).
        rewrite set_n_other by assumption. apply Hw, Hu.
      * discriminate.
      * intros (u & Hu & Huo). destruct (decide (u = t)) as [->|Hne].
        -- rewrite set_n_same in Hu. lia.
        -- rewrite set_n_other in Hu by assumption.
           rewrite (Hothers u Hne Huo) in Hu. lia.
      * intros u v Hu Huo Hv Hvo.
        destruct (decide (u = t)) as [->|Hne]; [rewrite set_n_same in Hu; lia|].
        rewrite set_n_other in Hu by assumption.
        rewrite (Hothers u Hne Huo) in Hu. lia.
    + apply Z.eqb_neq in E1. injection Hd as <-.
      unfold rm_inv; simpl. split; [|split; [|split; [split|]]].
      * intros u. destruct (decide (u = t)) as [->|Hne];
          [rewrite set_n_same; lia | rewrite set_n_other by assumption; apply Hnn].
      * intros u Hu. assert (u <> t) by (intros ->; congruence).
        rewrite set_n_other by assumption. apply Hw, Hu.
      * intros _. exists t. rewrite set_n_same. split; [lia|assumption].
      * intros _. exact Hm.
      * intros u v Hu Huo Hv Hvo.
        destruct (decide (u = t)) as [->|Hnu], (decide (v = t)) as [->|Hnv];
          try reflexivity.
        -- rewrite set_n_other in Hv by assumption.
           rewrite (Hothers v Hnv Hvo) in Hv. lia.
        -- rewrite set_n_other in Hu by assumption.
           rewrite (Hothers u Hnu Huo) in Hu. lia.
        -- rewrite set_n_other in Hu by assumption.
           rewrite (Hothers u Hnu Huo) in Hu. lia.
Qed.

Lemma reachable_inv s : reachable s -> rm_inv s.
Proof.
  induction 1 as [|s s' _ IH Hstep].
  - apply rm_inv_init.
  - eapply step_inv; eassumption.
Qed.







End MutexFacts.

Module ClientFacts.
Import ClientCpp.

(** ** Registry-wide queries *)

Lemma with_curop {A} (w : World) (c : addr) (co : CurOp)
  (k : addr -> CurOp -> M A) :
  curop_of w c = Some co ->
  exists a,
    bind (client_curop c) (fun a => bind (deref_curop a) (k a)) w
    = k a co w.
Proof.
  unfold curop_of, client_curop, deref_client, deref_curop, bind, of_option.
  intros H.
  destruct (clientObjs w !! c) as [cl|]; simpl in *; [|discriminate].
  destruct (_curOp cl) as [a|]; simpl in *; [|discriminate].
  exists a. unfold ret. rewrite H. reflexivity.
Qed.

Lemma count_cons p co ops :
  count p (co :: ops) = (if p co then 1 else 0) + count p ops.
Proof.
  unfold count. cbn [List.filter]. destruct (p co); cbn [length]; lia.
Qed.

Lemma count_nonneg p ops : 0 <= count p ops.
Proof. unfold count. lia. Qed.

Lemma count_le_length p ops : count p ops <= Z.of_nat (length ops).
Proof.
  unfold count. pose proof (List.filter_length_le p ops). lia.
Qed.

Lemma active_scan_counts (w : World) cs ops :
  Forall2 (fun c co => curop_of w c = Some co) cs ops ->
  forall writers readers,
    0 <= writers -> 0 <= readers ->
    writers + Z.of_nat (length cs) <= INT_MAX ->
    readers + Z.of_nat (length cs) <= INT_MAX ->
    active_scan cs writers readers w
    = Returned (writers + count activeWriter ops,
                readers + count activeReader ops) w.
Proof.
  induction 1 as [|c co cs ops Hc _ IH]; intros writers readers Hw Hr Hbw Hbr.
  - simpl. unfold ret, count. simpl. rewrite !Z.add_0_r. reflexivity.
  - rewrite !count_cons. simpl length in *.
    cbn [active_scan].
    destruct (with_curop w c co
                (fun _ co =>
                   if negb (active co) then active_scan cs writers readers
                   else
                     if 0 <? getLockType co
                     then active_scan cs (int_add writers 1) readers
                     else if getLockType co <? 0
                          then active_scan cs writers (int_add readers 1)
                          else active_scan cs writers readers) Hc) as [a ->].
    assert (HW : activeWriter co = active co && (0 <? getLockType co))
      by reflexivity.
    assert (HR : activeReader co = active co && (getLockType co <? 0))
      by reflexivity.
    rewrite HW, HR. clear HW HR. unfold int_add.
    destruct (active co); simpl;
      [destruct (Z.ltb_spec 0 (getLockType co));
       destruct (Z.ltb_spec (getLockType co) 0); try lia; simpl|];
      rewrite ?wrap32_small by (unfold INT_MAX in *; lia);
      rewrite IH by lia; f_equal; apply pair_equal_spec; split; lia.
Qed.

Lemma active_counts_sum ops :
  count activeWriter ops + count activeReader ops
  = count (fun co => active co && negb (getLockType co =? 0)) ops.
Proof.
  induction ops as [|co ops IH]; [reflexivity|].
  rewrite !count_cons, <- IH. unfold activeWriter, activeReader.
  destruct (active co); simpl; [|lia].
  destruct (Z.ltb_spec 0 (getLockType co));
    destruct (Z.ltb_spec (getLockType co) 0);
    destruct (Z.eqb_spec (getLockType co) 0); simpl; lia.
Qed.

(** C10: over the registry, [getActiveClientCount] counts as writers the
    clients whose current operation is active with a lock type above 0, as
    readers those active with a lock type below 0, and returns the sum of
    the two; this sum is the number of active operations whose lock type is
    not 0, so an active operation that holds no lock is counted nowhere. *)
Theorem getActiveClientCount_counts_lock_holders
  (w : World) (ops : list CurOp)
  (Hops : registry_ops w ops)
  (Hsize : Z.of_nat (length (clients w)) <= INT_MAX) :
  getActiveClientCount w
  = Returned (count activeWriter ops + count activeReader ops,
              count activeWriter ops, count activeReader ops) w /\
  count activeWriter ops + count activeReader ops
  = count (fun co => active co && negb (getLockType co =? 0)) ops.
Proof.
  split; [|apply active_counts_sum].
  unfold getActiveClientCount, bind, get.
  rewrite (active_scan_counts w (clients w) ops Hops 0 0) by lia.
  unfold ret. cbn [fst snd]. rewrite !Z.add_0_l. unfold int_add.
  rewrite wrap32_small; [reflexivity|].
  rewrite active_counts_sum.
  pose proof (count_nonneg
                (fun co => active co && negb (getLockType co =? 0)) ops).
  pose proof (count_le_length
                (fun co => active co && negb (getLockType co =? 0)) ops).
  pose proof (Forall2_length _ _ _ Hops). unfold INT_MAX in *. lia.
Qed.

Lemma sample_registry_ops : registry_ops sample_world sample_ops.
Proof. repeat constructor. Qed.

Lemma getActiveClientCount_counts_lock_holders_witness :
  getActiveClientCount sample_world = Returned (3, 2, 1) sample_world.
Proof.
  apply (getActiveClientCount_counts_lock_holders sample_world sample_ops).
  - exact sample_registry_ops.
  - vm_compute. discriminate.
Defined.

(** The yield advisor's loop. *)
Lemma yield_scan_counts (w : World) cs ops :
  Forall2 (fun c co => curop_of w c = Some co) cs ops ->
  forall num wr rd,
    0 <= num -> 0 <= wr -> 0 <= rd ->
    num + Z.of_nat (length cs) <= INT_MAX ->
    wr + Z.of_nat (length cs) <= INT_MAX ->
    rd + Z.of_nat (length cs) <= INT_MAX ->
    yield_scan cs num wr rd w
    = Returned (num + count isWaitingForLock ops,
                wr + count waitingWriter ops,
                rd + count waitingReader ops) w.
Proof.
  induction 1 as [|c co cs ops Hc _ IH];
    intros num wr rd Hn Hw Hr Hbn Hbw Hbr.
  - simpl. unfold ret, count. simpl. rewrite !Z.add_0_r. reflexivity.
  - rewrite !count_cons. simpl length in *.
    cbn [yield_scan].
    destruct (with_curop w c co
                (fun _ co =>
                   if isWaitingForLock co then
                     if 0 <? getLockType co
                     then yield_scan cs (int_add num 1) (int_add wr 1) rd
                     else yield_scan cs (int_add num 1) wr (int_add rd 1)
                   else yield_scan cs num wr rd) Hc) as [a ->].
    assert (HW : waitingWriter co
                 = isWaitingForLock co && (0 <? getLockType co))
      by reflexivity.
    assert (HR : waitingReader co
                 = isWaitingForLock co && negb (0 <? getLockType co))
      by reflexivity.
    rewrite HW, HR. clear HW HR. unfold int_add.
    destruct (isWaitingForLock co); simpl;
      [destruct (0 <? getLockType co); simpl|];
      rewrite ?wrap32_small by (unfold INT_MAX in *; lia);
      rewrite IH by lia; f_equal;
      repeat (apply pair_equal_spec; split); lia.
Qed.

Lemma waiting_counts_sum ops :
  count waitingWriter ops + count waitingReader ops
  = count isWaitingForLock ops.
Proof.
  induction ops as [|co ops IH]; [reflexivity|].
  rewrite !count_cons, <- IH. unfold waitingWriter, waitingReader.
  destruct (isWaitingForLock co), (0 <? getLockType co); simpl; lia.
Qed.

(** A waiting operation has recorded the lock it waits for; when none of
    the waiting operations has lock type 0, the readers the advisor counts
    are exactly the operations waiting with a lock type below 0. *)
Lemma waitingReader_strict ops :
  Forall (fun co => isWaitingForLock co = true -> getLockType co <> 0) ops ->
  count waitingReader ops
  = count (fun co => isWaitingForLock co && (getLockType co <? 0)) ops.
Proof.
  induction 1 as [|co ops Hco _ IH]; [reflexivity|].
  rewrite !count_cons, IH. unfold waitingReader.
  destruct (isWaitingForLock co); simpl; [|reflexivity].
  specialize (Hco eq_refl).
  destruct (Z.ltb_spec 0 (getLockType co));
    destruct (Z.ltb_spec (getLockType co) 0); simpl; lia.
Qed.

Lemma checkForInterrupt_flagged (w : World) (cur : CurOp) :
  current_curop w = Some cur ->
  exists msg,
    checkForInterruptNoAssert w = Returned msg w /\
    (interrupt_flagged w cur = true -> exists ch rest, msg = String ch rest) /\
    (interrupt_flagged w cur = false -> msg = EmptyString).
Proof.
  unfold current_curop, curop_of, interrupt_flagged, checkForInterruptNoAssert,
    currentClient_get, client_curop, deref_client, deref_curop, bind, get,
    of_option, ret.
  intros H. destruct (_globalKill w); simpl.
  - eexists. split; [reflexivity|]. split; [eauto | discriminate].
  - destruct (currentClient w) as [c|]; simpl in *; [|discriminate].
    destruct (clientObjs w !! c) as [cl|]; simpl in *; [|discriminate].
    destruct (_curOp cl) as [a|]; simpl in *; [|discriminate].
    rewrite H. destruct (killed cur); eexists;
      (split; [reflexivity|]); split; eauto; discriminate.
Qed.

(** C8: with [r] waiting readers and [wr] waiting writers in the registry,
    [recommendedYieldMicros] returns min(100*r + 500*wr, 1000000) when the
    current operation is not flagged for interruption, and 100 when it is,
    whatever [r] and [wr] are. *)
Theorem recommendedYieldMicros_advice
  (w : World) (ops : list CurOp) (cur : CurOp)
  (Hops : registry_ops w ops)
  (Hcur : current_curop w = Some cur)
  (Hsize : 500 * Z.of_nat (length (clients w)) <= INT_MAX) :
  let r := count waitingReader ops in
  let wr := count waitingWriter ops in
  recommendedYieldMicros w
  = Returned (if interrupt_flagged w cur then 100
              else Z.min (100 * r + 500 * wr) 1000000, wr, r) w.
Proof.
  intros r wr. unfold recommendedYieldMicros, bind, get.
  pose proof (Forall2_length _ _ _ Hops) as Hlen.
  pose proof (count_nonneg waitingReader ops).
  pose proof (count_nonneg waitingWriter ops).
  pose proof (count_le_length isWaitingForLock ops).
  pose proof (waiting_counts_sum ops).
  rewrite (yield_scan_counts w (clients w) ops Hops 0 0 0)
    by (unfold INT_MAX in *; lia).
  cbn [fst snd]. rewrite !Z.add_0_l. fold r wr.
  destruct (checkForInterrupt_flagged w cur Hcur) as (msg & -> & Hyes & Hno).
  unfold int_add, int_mul.
  rewrite (wrap32_small (r * 100)) by (unfold INT_MAX in *; lia).
  rewrite (wrap32_small (wr * 500)) by (unfold INT_MAX in *; lia).
  rewrite wrap32_small by (unfold INT_MAX in *; lia).
  destruct (interrupt_flagged w cur).
  - destruct (Hyes eq_refl) as (ch & rest & ->). reflexivity.
  - rewrite (Hno eq_refl). unfold ret. do 3 f_equal. lia.
Qed.

Lemma recommendedYieldMicros_advice_witness :
  recommendedYieldMicros sample_world = Returned (600, 1, 1) sample_world.
Proof.
  apply (recommendedYieldMicros_advice sample_world sample_ops
           (sample_curop 5 None true false 1)).
  - exact sample_registry_ops.
  - reflexivity.
  - vm_compute. discriminate.
Defined.

(** ** The chain of CurOps *)

Lemma chain_det h p l1 l2 : chain h p l1 -> chain h p l2 -> l1 = l2.
Proof.
  intros H1. revert l2. induction H1 as [|a co l Ha _ IH]; intros l2 H2.
  - inversion H2. reflexivity.
  - inversion H2 as [|a' co' l' Ha' Hl']; subst.
    rewrite Ha in Ha'. injection Ha' as <-. f_equal. apply IH. assumption.
Qed.

Lemma chain_app_inv h p l1 l2 :
  chain h p (l1 ++ l2) -> exists q, chain h q l2.
Proof.
  revert p. induction l1 as [|a l1 IH]; intros p H.
  - exists p. assumption.
  - inversion H; subst. eapply IH. eassumption.
Qed.

Lemma chain_suffix_start h p l1 a l2 :
  chain h p (l1 ++ a :: l2) -> chain h (Some a) (a :: l2).
Proof.
  intros H. destruct (chain_app_inv _ _ _ _ H) as [q Hq].
  inversion Hq; subst. econstructor; eassumption.
Qed.

(** A chain that ends visits no CurOp twice. *)
Lemma chain_NoDup h p l : chain h p l -> NoDup l.
Proof.
  induction 1 as [|a co l Ha Hl IH]; constructor; [|assumption].
  intros Hin. apply list_elem_of_split in Hin as (l1 & l2 & ->).
  pose proof (chain_suffix_start _ _ _ _ _ Hl) as Hsuf.
  assert (Hfull : chain h (Some a) (a :: l1 ++ a :: l2))
    by (econstructor; eassumption).
  pose proof (chain_det _ _ _ _ Hsuf Hfull) as Heq.
  apply (f_equal length) in Heq. simpl in Heq.
  rewrite length_app in Heq. simpl in Heq. lia.
Qed.

Lemma chain_in_heap h p l a : chain h p l -> a ∈ l -> is_Some (h !! a).
Proof.
  induction 1 as [|b co l Hb _ IH]; intros Hin.
  - inversion Hin.
  - apply elem_of_cons in Hin as [->|Hin]; [eauto | apply IH; assumption].
Qed.

Lemma chain_length h p l : chain h p l -> (length l <= size h)%nat.
Proof.
  intros H. pose proof (chain_NoDup _ _ _ H) as Hnd.
  rewrite <- (size_list_to_set (C := gset addr) l Hnd), <- (size_dom h).
  apply subseteq_size. intros a Ha. apply elem_of_list_to_set in Ha.
  apply elem_of_dom. eapply chain_in_heap; eassumption.
Qed.

Lemma lookup_alter_kill (h : gmap addr CurOp) a b :
  alter CurOp_kill a h !! b
  = if decide (a = b) then CurOp_kill <$> h !! b else h !! b.
Proof.
  rewrite lookup_alter. destruct (decide (a = b)) as [->|]; reflexivity.
Qed.

Lemma chain_alter_kill h a p l :
  chain h p l -> chain (alter CurOp_kill a h) p l.
Proof.
  induction 1 as [|b co l Hb _ IH]; [constructor|].
  destruct (decide (a = b)) as [->|Hne].
  - apply (chain_cons _ b (CurOp_kill co)); [|exact IH].
    rewrite lookup_alter_kill, Hb. destruct (decide (b = b)); [reflexivity|congruence].
  - apply (chain_cons _ b co); [|exact IH].
    rewrite lookup_alter_kill, Hb. destruct (decide (a = b)); [congruence|reflexivity].
Qed.

Lemma no_match_alter_kill i h a b :
  no_match i h b -> no_match i (alter CurOp_kill a h) b.
Proof.
  unfold no_match. intros H co. rewrite lookup_alter_kill.
  destruct (decide (a = b)); [|apply H].
  destruct (h !! b) as [co0|] eqn:E; simpl; [|discriminate].
  intros [= <-]. apply (H co0). reflexivity.
Qed.

Lemma insert_kill_alter (h : gmap addr CurOp) a co :
  h !! a = Some co -> <[a := CurOp_kill co]> h = alter CurOp_kill a h.
Proof.
  intros H. apply map_eq. intros b.
  rewrite lookup_alter_kill, lookup_insert.
  destruct (decide (a = b)) as [->|]; [rewrite H|]; reflexivity.
Qed.

Lemma CurOp_kill_idem co : CurOp_kill (CurOp_kill co) = CurOp_kill co.
Proof. reflexivity. Qed.

Lemma kill_all_lookup l : forall (h : gmap addr CurOp) a,
  kill_all l h !! a = if decide (a ∈ l) then CurOp_kill <$> h !! a else h !! a.
Proof.
  induction l as [|b l IH]; intros h a.
  - simpl. destruct (decide (a ∈ [])) as [Hin|]; [inversion Hin | reflexivity].
  - change (kill_all (b :: l) h) with (kill_all l (alter CurOp_kill b h)).
    rewrite IH, lookup_alter_kill.
    destruct (decide (a ∈ b :: l)) as [Hbl|Hbl], (decide (a ∈ l)) as [Hl|Hl],
      (decide (b = a)) as [Hba|Hne];
      rewrite elem_of_cons in Hbl;
      try reflexivity; try (destruct (h !! a); reflexivity);
      exfalso; intuition congruence.
Qed.

Lemma kill_all_app l1 l2 h : kill_all (l1 ++ l2) h = kill_all l2 (kill_all l1 h).
Proof. unfold kill_all. apply foldl_app. Qed.

Lemma chain_kill_all l h p l' : chain h p l' -> chain (kill_all l h) p l'.
Proof.
  revert h. induction l as [|a l IH]; intros h H; [assumption|].
  apply IH. apply chain_alter_kill. assumption.
Qed.

(** ** The kill coordinator *)

Lemma with_curOps_id w : with_curOps (curOps w) w = w.
Proof. destruct w. reflexivity. Qed.

Lemma curOps_with_curOps h w : curOps (with_curOps h w) = h.
Proof. reflexivity. Qed.

Lemma clientObjs_with_curOps h w : clientObjs (with_curOps h w) = clientObjs w.
Proof. reflexivity. Qed.

Lemma with_curOps_twice h h' w :
  with_curOps h' (with_curOps h w) = with_curOps h' w.
Proof. reflexivity. Qed.

Lemma kill_curop_spec w a co :
  curOps w !! a = Some co ->
  kill_curop a w = Returned tt (with_curOps (alter CurOp_kill a (curOps w)) w).
Proof.
  intros H. unfold kill_curop, bind, deref_curop, of_option. rewrite H.
  unfold ret, modify, with_curOps, set_curOps.
  rewrite (insert_kill_alter _ _ _ H). reflexivity.
Qed.

Lemma kill_until_spec before : forall fuel w start k after,
  chain (curOps w) start (before ++ k :: after) ->
  k ∉ before -> (length before < fuel)%nat ->
  kill_until fuel start k w
  = Returned tt (with_curOps (kill_all before (curOps w)) w).
Proof.
  induction before as [|a before IH]; intros fuel w start k after Hc Hk Hf;
    (destruct fuel as [|fuel]; [simpl in Hf; lia|]); simpl in Hc;
    inversion Hc as [|a' co l Ha Hl]; subst; cbn [kill_until].
  - rewrite bool_decide_eq_true_2 by reflexivity.
    unfold ret. simpl. rewrite with_curOps_id. reflexivity.
  - assert (Hne : a <> k) by (intros ->; apply Hk; left).
    rewrite bool_decide_eq_false_2 by congruence.
    unfold bind at 1. unfold of_option, ret.
    unfold bind at 1. rewrite (kill_curop_spec w a co Ha).
    unfold bind at 1. unfold deref_curop, of_option.
    rewrite curOps_with_curOps, lookup_alter_kill, Ha.
    destruct (decide (a = a)); [|congruence]. simpl. unfold ret.
    rewrite (IH fuel _ (parent co) k after).
    + reflexivity.
    + rewrite curOps_with_curOps. apply chain_alter_kill. exact Hl.
    + intros Hin. apply Hk. right. exact Hin.
    + simpl in Hf. lia.
Qed.

Lemma scan_chain_not_found l : forall fuel0 fuel w j cur i,
  chain (curOps w) cur l -> Forall (no_match i (curOps w)) l ->
  (length l < fuel)%nat ->
  scan_chain fuel0 fuel j cur i w = Returned false w.
Proof.
  induction l as [|a l IH]; intros fuel0 fuel w j cur i Hc Hno Hf;
    (destruct fuel as [|fuel]; [simpl in Hf; lia|]);
    inversion Hc as [|a' co l' Ha Hl]; subst; cbn [scan_chain].
  - reflexivity.
  - apply Forall_cons in Hno as [Hna Hno].
    unfold bind at 1. unfold deref_curop, of_option. rewrite Ha. unfold ret.
    rewrite bool_decide_eq_false_2 by (apply (Hna co Ha)).
    apply IH; [assumption | assumption | simpl in Hf; lia].
Qed.

Lemma scan_chain_found before :
  forall pre fuel0 fuel w j cl cur k after cok i,
  clientObjs w !! j = Some cl ->
  chain (curOps w) (_curOp cl) (pre ++ before ++ k :: after) ->
  chain (curOps w) cur (before ++ k :: after) ->
  Forall (no_match i (curOps w)) (pre ++ before) ->
  curOps w !! k = Some cok -> opNum cok = i ->
  (length before < fuel)%nat -> (length (pre ++ before) < fuel0)%nat ->
  scan_chain fuel0 fuel j cur i w
  = Returned true
      (with_curOps (kill_all (k :: pre ++ before) (curOps w)) w).
Proof.
  induction before as [|a before IH];
    intros pre fuel0 fuel w j cl cur k after cok i Hj Hfull Hc Hno Hk Hi Hf Hf0;
    (destruct fuel as [|fuel]; [simpl in Hf; lia|]); simpl in Hc;
    inversion Hc as [|a' co l Ha Hl]; subst; cbn [scan_chain].
  - rewrite app_nil_r in *. simpl in Hfull.
    unfold bind at 1. unfold deref_curop, of_option. rewrite Ha. unfold ret.
    assert (co = cok) as -> by congruence.
    rewrite bool_decide_eq_true_2 by reflexivity.
    unfold bind at 1. rewrite (kill_curop_spec w k cok Ha).
    unfold bind at 1. unfold deref_client, of_option.
    rewrite clientObjs_with_curOps, Hj. unfold ret.
    unfold bind at 1.
    rewrite (kill_until_spec pre fuel0 _ (_curOp cl) k after).
    + reflexivity.
    + rewrite curOps_with_curOps. apply chain_alter_kill. exact Hfull.
    + intros Hin. rewrite Forall_forall in Hno.
      apply (Hno k Hin cok Ha). reflexivity.
    + exact Hf0.
  - assert (Hna : no_match (opNum cok) (curOps w) a).
    { rewrite Forall_forall in Hno. apply Hno.
      apply elem_of_app. right. left. }
    unfold bind at 1. unfold deref_curop, of_option. rewrite Ha. unfold ret.
    rewrite bool_decide_eq_false_2 by (apply (Hna co Ha)).
    rewrite (IH (pre ++ [a]) fuel0 fuel w j cl (parent co) k after cok
               (opNum cok)); try assumption; try reflexivity.
    + rewrite <- app_assoc. reflexivity.
    + rewrite <- app_assoc. exact Hfull.
    + rewrite <- app_assoc. exact Hno.
    + simpl in Hf. lia.
    + rewrite <- app_assoc. exact Hf0.
Qed.

Lemma scan_clients_found pre :
  forall fuel w j post cl before k after cok i,
  Forall (chain_without i w) pre ->
  clientObjs w !! j = Some cl ->
  chain (curOps w) (_curOp cl) (before ++ k :: after) ->
  Forall (no_match i (curOps w)) before ->
  curOps w !! k = Some cok -> opNum cok = i ->
  (size (curOps w) < fuel)%nat ->
  scan_clients fuel (pre ++ j :: post) i w
  = Returned true (with_curOps (kill_all (k :: before) (curOps w)) w).
Proof.
  induction pre as [|j' pre IH];
    intros fuel w j post cl before k after cok i Hpre Hj Hc Hno Hk Hi Hf;
    cbn [app scan_clients].
  - unfold bind at 1. unfold deref_client, of_option. rewrite Hj. unfold ret.
    pose proof (chain_length _ _ _ Hc) as Hlen.
    rewrite length_app in Hlen. simpl in Hlen.
    unfold bind at 1.
    rewrite (scan_chain_found before [] fuel fuel w j cl (_curOp cl) k after
               cok i); try assumption; [reflexivity | simpl; lia..].
  - apply Forall_cons in Hpre as [(cl' & l & Hj' & Hc' & Hno') Hpre].
    unfold bind at 1. unfold deref_client, of_option. rewrite Hj'. unfold ret.
    pose proof (chain_length _ _ _ Hc') as Hlen.
    unfold bind at 1.
    rewrite (scan_chain_not_found l fuel fuel w j' (_curOp cl') i Hc' Hno')
      by lia.
    eapply IH; eassumption.
Qed.

(** C1: when [kill(i)] finds operation [i] on a registered client (the
    first in registry order that has it; [k] is the first CurOp numbered [i]
    along the chain [before ++ k :: after] from that client's current
    CurOp), the call returns and has marked killed the matched CurOp and
    every CurOp before it on the chain, from the client's current CurOp on.
    The ancestors beyond the match, and all CurOps that are not on that
    stretch of the chain (those of other clients among them), are as they
    were.  The script engine, when there is one, is told to interrupt [i]. *)
Theorem kill_marks_match_and_inner_ops
  (env : Env) (w : World) (i : N)
  (pre : list addr) (j : addr) (post : list addr) (cl : Client)
  (before : list addr) (k : addr) (after : list addr) (cok : CurOp)
  (Hreg : clients w = pre ++ j :: post)
  (Hpre : Forall (chain_without i w) pre)
  (Hj : clientObjs w !! j = Some cl)
  (Hchain : chain (curOps w) (_curOp cl) (before ++ k :: after))
  (Hbefore : Forall (no_match i (curOps w)) before)
  (Hk : curOps w !! k = Some cok)
  (Hi : opNum cok = i) :
  exists w',
    KillCurrentOp_kill env i w = Returned tt w' /\
    (forall a, a ∈ before ++ [k] ->
       exists co, curOps w !! a = Some co /\
                  curOps w' !! a = Some (CurOp_kill co) /\
                  killed (CurOp_kill co) = true) /\
    (forall a, a ∈ after -> curOps w' !! a = curOps w !! a) /\
    (forall a, a ∉ before ++ [k] -> curOps w' !! a = curOps w !! a) /\
    clients w' = clients w /\ clientObjs w' = clientObjs w /\
    log w' = log w ++ (if globalScriptEngine env
                       then [EvInterruptJs (Some i)] else []).
Proof.
  set (h' := kill_all (k :: before) (curOps w)).
  assert (Hlookup : forall a,
            curOps (with_curOps h' w) !! a
            = if decide (a ∈ before ++ [k]) then CurOp_kill <$> curOps w !! a
              else curOps w !! a).
  { intros a. rewrite curOps_with_curOps. unfold h'. rewrite kill_all_lookup.
    destruct (decide (a ∈ k :: before)) as [H1|H1],
      (decide (a ∈ before ++ [k])) as [H2|H2]; try reflexivity; exfalso;
      rewrite elem_of_cons in H1; rewrite elem_of_app, list_elem_of_singleton in H2;
      tauto. }
  assert (Hrun : scan_clients (S (size (curOps w))) (clients w) i w
                 = Returned true (with_curOps h' w)).
  { rewrite Hreg. eapply scan_clients_found; try eassumption. lia. }
  pose proof (chain_NoDup _ _ _ Hchain) as Hnd.
  assert (Hres : forall w1,
            curOps w1 = curOps (with_curOps h' w) ->
            (forall a, a ∈ before ++ [k] ->
               exists co, curOps w !! a = Some co /\
                          curOps w1 !! a = Some (CurOp_kill co) /\
                          killed (CurOp_kill co) = true) /\
            (forall a, a ∈ after -> curOps w1 !! a = curOps w !! a) /\
            (forall a, a ∉ before ++ [k] -> curOps w1 !! a = curOps w !! a)).
  { intros w1 ->. split; [|split].
    - intros a Ha. rewrite Hlookup. destruct (decide (a ∈ before ++ [k])); [|contradiction].
      destruct (chain_in_heap _ _ _ a Hchain) as [co Hco].
      { apply elem_of_app in Ha as [Ha|Ha]; apply elem_of_app;
          [left; assumption | right].
        apply list_elem_of_singleton in Ha as ->. left. }
      exists co. rewrite Hco. repeat split.
    - intros a Ha. rewrite Hlookup.
      destruct (decide (a ∈ before ++ [k])) as [Hin|]; [|reflexivity].
      exfalso. replace (before ++ k :: after) with ((before ++ [k]) ++ after) in Hnd
        by (rewrite <- app_assoc; reflexivity).
      apply NoDup_app in Hnd as (_ & Hdisj & _). exact (Hdisj a Hin Ha).
    - intros a Ha. rewrite Hlookup.
      destruct (decide (a ∈ before ++ [k])); [contradiction | reflexivity]. }
  unfold KillCurrentOp_kill, bind, get. rewrite Hrun. unfold interruptJs.
  destruct (globalScriptEngine env); simpl.
  - eexists. split; [reflexivity|].
    destruct (Hres (emit_event (EvInterruptJs (Some i)) (with_curOps h' w)) eq_refl)
      as (H1 & H2 & H3).
    repeat (split; [assumption || reflexivity|]). reflexivity.
  - eexists. split; [reflexivity|].
    destruct (Hres (with_curOps h' w) eq_refl) as (H1 & H2 & H3).
    repeat (split; [assumption || reflexivity|]). simpl. rewrite app_nil_r.
    reflexivity.
Qed.

Lemma sample_chain_20 :
  chain (curOps sample_world) (Some 20%positive)
        ([20%positive] ++ 21%positive :: [22%positive]).
Proof.
  eapply chain_cons; [reflexivity|].
  eapply chain_cons; [reflexivity|].
  eapply chain_cons; [reflexivity|].
  apply chain_nil.
Qed.

Lemma kill_marks_match_and_inner_ops_witness :
  exists w',
    KillCurrentOp_kill sample_env 7 sample_world = Returned tt w' /\
    (forall a, a ∈ [20%positive] ++ [21%positive] ->
       exists co, curOps sample_world !! a = Some co /\
                  curOps w' !! a = Some (CurOp_kill co) /\
                  killed (CurOp_kill co) = true) /\
    (forall a, a ∈ [22%positive] ->
       curOps w' !! a = curOps sample_world !! a) /\
    (forall a, a ∉ [20%positive] ++ [21%positive] ->
       curOps w' !! a = curOps sample_world !! a) /\
    clients w' = clients sample_world /\
    clientObjs w' = clientObjs sample_world /\
    log w' = log sample_world ++ [EvInterruptJs (Some 7%N)].
Proof.
  apply (kill_marks_match_and_inner_ops sample_env sample_world 7%N
           [1%positive] 2%positive [3%positive]
           (mkClient None (Some 20%positive))
           [20%positive] 21%positive [22%positive]
           (sample_curop 7 (Some 22%positive) true false (-1))).
  - reflexivity.
  - constructor; [|constructor].
    exists (mkClient None (Some 10%positive)), [10%positive].
    split; [reflexivity|]. split.
    + eapply chain_cons; [reflexivity|]. apply chain_nil.
    + constructor; [|constructor].
      intros co Hco. vm_compute in Hco. injection Hco as <-.
      vm_compute. discriminate.
  - reflexivity.
  - exact sample_chain_20.
  - constructor; [|constructor].
    intros co Hco. vm_compute in Hco. injection Hco as <-.
    vm_compute. discriminate.
  - reflexivity.
  - reflexivity.
Defined.

(** ** Contexts *)

Ltac run_step :=
  match goal with
  | |- context [match ?x with _ => _ end] =>
      match type of x with
      | option _ => destruct x eqn:?
      | bool => destruct x eqn:?
      | Operations => destruct x eqn:?
      | (_ * _)%type => destruct x eqn:?
      end
  end.

Ltac run_ctor :=
  unfold Context_ns_db, Context_ns_path, Context_path_ns_db, _finishInit,
    constructed, checkLocks, checkNotStale, _auth, client_enter,
    clientAddress, store_client_context, client_curop, dbHolder_getOrCreate,
    dbHolder_get, getState, currentClient_get, deref_client, deref_curop,
    assert, emit, modify, throw, undefined, of_option, bind, ret;
  cbn;
  repeat (run_step; cbn; rewrite ?lookup_insert_eq; cbn).

Ltac rew_lookups :=
  repeat match goal with
         | H : currentClient _ = Some _ |- _ => rewrite H
         | H : clientObjs _ !! _ = Some _ |- _ => rewrite H
         end.

Ltac close_effect :=
  try exact I; simplify_eq; unfold current_context; cbn; rew_lookups; cbn;
  rewrite ?lookup_insert_eq; cbn; rew_lookups; cbn;
  first [ by repeat split
        | eexists _, _, _; split; [reflexivity|]; split; [eassumption|];
          by repeat split ].

Lemma Context_ns_db_effect env this ns db doauth w :
  ctor_effect this w (Context_ns_db env this ns db doauth w).
Proof. run_ctor; close_effect. Qed.

Lemma Context_ns_path_effect env now this ns path doauth w :
  ctor_effect this w (Context_ns_path env now this ns path doauth w).
Proof. run_ctor; close_effect. Qed.

Lemma Context_path_ns_db_effect env now this path ns db doauth w :
  ctor_effect this w (Context_path_ns_db env now this path ns db doauth w).
Proof. run_ctor; close_effect. Qed.

Lemma Context_dtor_effect now this w w' :
  Context_dtor now this w = Returned tt w' ->
  exists C, contexts w !! this = Some C /\
    contexts w' = delete this (contexts w) /\
    currentClient w' = currentClient w /\
    (currentClient w = Some (_client C) ->
     current_context w' = Some (_oldContext C)).
Proof.
  unfold Context_dtor, client_leave, deref_context, CurOp_leave.
  run_ctor; intros Hr; simplify_eq.
  eexists. split; [reflexivity|]. cbn. repeat split.
  intros Hc. unfold current_context. cbn. rewrite Hc. cbn.
  rewrite lookup_insert_eq. reflexivity.
Qed.

Lemma stack_ok_ext w0 (h h' : gmap addr Context) live cur :
  (forall p, p ∈ live -> h' !! p = h !! p) ->
  stack_ok w0 h live cur -> stack_ok w0 h' live cur.
Proof.
  revert cur. induction live as [|p live IH]; intros cur Hext H; [exact H|].
  destruct H as (-> & C & HC & Hcl & Hrest).
  split; [reflexivity|]. exists C. split; [|split; [exact Hcl|]].
  - rewrite Hext; [exact HC | left].
  - apply IH; [|exact Hrest]. intros q Hq. apply Hext. right. exact Hq.
Qed.

Lemma stack_ok_in_heap w0 (h : gmap addr Context) live cur p :
  stack_ok w0 h live cur -> p ∈ live -> is_Some (h !! p).
Proof.
  revert cur. induction live as [|q live IH]; intros cur H Hin.
  - inversion Hin.
  - destruct H as (_ & C & HC & _ & Hrest).
    apply elem_of_cons in Hin as [->|Hin]; [eauto | eapply IH; eassumption].
Qed.

Lemma run_scopes_inv env w0 evs : forall live w live' w',
  scopes_inv w0 live w ->
  run_scopes env evs live w = Some (live', w') ->
  scopes_inv w0 live' w'.
Proof.
  induction evs as [|[now this args|now] evs IH]; intros live w live' w' Hinv Hrun;
    cbn [run_scopes] in Hrun.
  - injection Hrun as <- <-. exact Hinv.
  - destruct (bool_decide (is_Some (contexts w !! this))) eqn:Efresh;
      [discriminate|].
    apply bool_decide_eq_false in Efresh.
    destruct Hinv as (Hcc & Hnd & Hstack).
    pose proof (match args as a
                  return ctor_effect this w (Context_ctor env now this a w)
                with
                | ArgsNsDb ns db doauth =>
                    Context_ns_db_effect env this ns db doauth w
                | ArgsNsPath ns path doauth =>
                    Context_ns_path_effect env now this ns path doauth w
                | ArgsPathNsDb path ns db doauth =>
                    Context_path_ns_db_effect env now this path ns db doauth w
                end) as Heff.
    destruct (Context_ctor env now this args w) as [[] w1|e w1| |];
      try discriminate; cbn [ctor_effect] in Heff.
    + destruct Heff as (c & cl & C & Hc & Hcl & HC & Hold & Hctx & Hc1 & Hcur).
      eapply IH; [|exact Hrun]. split; [congruence|]. split.
      { apply NoDup_cons_2; [|exact Hnd]. intros Hin. apply Efresh.
        eapply stack_ok_in_heap; eassumption. }
      rewrite Hcur. split; [reflexivity|]. exists C.
      rewrite Hctx, lookup_insert_eq. split; [reflexivity|].
      split; [rewrite <- Hcc, Hc, HC; reflexivity|].
      apply (stack_ok_ext w0 (contexts w)).
      * intros p Hp. apply lookup_insert_ne. intros ->.
        apply Efresh. eapply stack_ok_in_heap; eassumption.
      * rewrite Hold. unfold current_context in Hstack.
        rewrite Hc in Hstack. cbn in Hstack. rewrite Hcl in Hstack.
        exact Hstack.
    + destruct Heff as (Hctx & Hc1 & Hcur).
      eapply IH; [|exact Hrun]. split; [congruence|]. split; [exact Hnd|].
      rewrite Hctx, Hcur. exact Hstack.
  - destruct live as [|this live]; [discriminate|].
    destruct (Context_dtor now this w) as [[] w1|e w1| |] eqn:Edtor;
      try discriminate.
    destruct Hinv as (Hcc & Hnd & Hstack).
    destruct Hstack as (Hcur & C & HC & Hcl & Hrest).
    destruct (Context_dtor_effect _ _ _ _ Edtor) as (C' & HC' & Hctx & Hc1 & Hcur1).
    assert (C' = C) as -> by congruence.
    apply NoDup_cons in Hnd as [Hnotin Hnd].
    eapply IH; [|exact Hrun]. split; [congruence|]. split; [exact Hnd|].
    rewrite Hcur1 by congruence.
    apply (stack_ok_ext w0 (contexts w)); [|exact Hrest].
    intros p Hp. rewrite Hctx. apply lookup_delete_ne. intros ->. contradiction.
Qed.

Lemma Context_ctor_effect env now this args w :
  ctor_effect this w (Context_ctor env now this args w).
Proof.
  destruct args; cbn [Context_ctor].
  - apply Context_ns_db_effect.
  - apply Context_ns_path_effect.
  - apply Context_path_ns_db_effect.
Qed.

(** C2: a Context constructor that returns has saved the Client's current
    Context as its old context and made itself current; one that throws
    leaves the current Context as it was; the destructor restores the saved
    old context.  Hence after any sequence of constructions and (LIFO)
    destructions that ends with every constructed Context destroyed, the
    Client's current Context is the one from before the first
    construction. *)
Theorem context_stack_discipline
  (env : Env) (evs : list ScopeEvent) (w w' : World)
  (Hrun : run_scopes env evs [] w = Some ([], w')) :
  current_context w' = current_context w /\
  (forall now this args w1 w2,
     Context_ctor env now this args w1 = Returned tt w2 ->
     exists C, contexts w2 !! this = Some C /\
       current_context w1 = Some (_oldContext C) /\
       current_context w2 = Some (Some this)) /\
  (forall now this args e w1 w2,
     Context_ctor env now this args w1 = Threw e w2 ->
     current_context w2 = current_context w1) /\
  (forall now this C w1 w2,
     contexts w1 !! this = Some C ->
     currentClient w1 = Some (_client C) ->
     Context_dtor now this w1 = Returned tt w2 ->
     current_context w2 = Some (_oldContext C)).
Proof.
  split; [|split; [|split]].
  - assert (Hinit : scopes_inv w [] w).
    { split; [reflexivity|]. split; [constructor | reflexivity]. }
    destruct (run_scopes_inv env w evs [] w [] w' Hinit Hrun) as (_ & _ & H).
    exact H.
  - intros now this args w1 w2 H.
    pose proof (Context_ctor_effect env now this args w1) as Heff.
    rewrite H in Heff.
    destruct Heff as (c & cl & C & Hc & Hcl & HC & Hold & Hctx & Hc1 & Hcur).
    exists C. rewrite Hctx, lookup_insert_eq. split; [reflexivity|].
    split; [|exact Hcur].
    unfold current_context. rewrite Hc. cbn. rewrite Hcl, Hold. reflexivity.
  - intros now this args e w1 w2 H.
    pose proof (Context_ctor_effect env now this args w1) as Heff.
    rewrite H in Heff. apply Heff.
  - intros now this C w1 w2 HC Hc H.
    destruct (Context_dtor_effect _ _ _ _ H) as (C' & HC' & _ & _ & Hcur).
    assert (C' = C) as -> by congruence. apply Hcur. exact Hc.
Qed.

Lemma context_stack_discipline_witness :
  exists w',
    run_scopes sample_env sample_scopes [] sample_world = Some ([], w') /\
    current_context w' = current_context sample_world.
Proof.
  eexists. split.
  - vm_compute. reflexivity.
  - apply (context_stack_discipline sample_env sample_scopes sample_world).
    vm_compute. reflexivity.
Defined.

Ltac unfold_ctor :=
  unfold Context_ns_db, Context_ns_path, Context_path_ns_db, _finishInit,
    constructed, checkLocks, checkNotStale, _auth, client_enter,
    clientAddress, store_client_context, client_curop, dbHolder_getOrCreate,
    dbHolder_get, getState, currentClient_get, deref_client, deref_curop,
    assert, emit, modify, throw, undefined, of_option, bind, ret.

Ltac use_fact :=
  match goal with
  | |- context [<[?k := ?v]> ?m !! ?k] => rewrite (lookup_insert_eq m k v)
  | H : ?l = Some _ |- context [match ?l with _ => _ end] => rewrite H
  | H : ?l = None |- context [match ?l with _ => _ end] => rewrite H
  | H : ?b = true |- context [?b] => rewrite H
  | H : ?b = false |- context [?b] => rewrite H
  end.

Ltac sym_exec := unfold_ctor; cbn; repeat (use_fact; cbn).

Lemma remote_ensureStarted now co : _remote (ensureStarted now co) = _remote co.
Proof. unfold ensureStarted. destruct (_start co =? 0); reflexivity. Qed.

Lemma op_ensureStarted now co : _op (ensureStarted now co) = _op co.
Proof. unfold ensureStarted. destruct (_start co =? 0); reflexivity. Qed.


Lemma started_enter now C co : started (CurOp_enter now C co) = true.
Proof.
  unfold started, CurOp_enter, ensureStarted.
  destruct (_start co =? 0) eqn:E; cbn; [reflexivity | rewrite E; reflexivity].
Qed.

Lemma restore_clientObjs (m : gmap addr Client) c cl v o :
  m !! c = Some cl -> _curOp cl = o ->
  <[c := mkClient (_context cl) o]> (<[c := v]> m) = m.
Proof.
  intros H <-. rewrite insert_insert_eq. apply insert_id.
  rewrite H. destruct cl. reflexivity.
Qed.

Lemma auth_cleanup_world c cl a v g w :
  clientObjs w !! c = Some cl -> _curOp cl = Some a ->
  set_clientObjs (<[c := mkClient (_context cl) (Some a)]>)
    (set_curOps g (set_clientObjs (<[c := v]>) w))
  = set_curOps g w.
Proof.
  intros Hcl Ha. destruct w. unfold set_clientObjs, set_curOps. cbn in *.
  f_equal. apply restore_clientObjs; assumption.
Qed.

Ltac use_known :=
  match goal with
  | H : getOp ?co = _ |- context [getOp ?co] => rewrite H
  | H : shardVersionOk ?e ?n = _ |- context [shardVersionOk ?e ?n] => rewrite H
  | |- context [_op (ensureStarted ?now ?co)] => rewrite (op_ensureStarted now co)
  end.

Ltac sym_exec' := unfold_ctor; cbn; repeat (first [use_fact | use_known]; cbn).

(** ** What a construction comes to *)

(** The constructor invoked from ReadContext, on a database handle. *)
Lemma Context_path_ns_db_outcome env now this path ns d doauth w c cl a co :
  currentClient w = Some c -> clientObjs w !! c = Some cl ->
  _curOp cl = Some a -> curOps w !! a = Some co ->
  Context_path_ns_db env now this path ns (Some d) doauth w
  = (if fresh env (getOp co) ns then
       if permitted env doauth d (dbMutexState w) then
         Returned tt
           (context_entered now this c cl a co
              (mkContext c (_context cl) path false ns (Some d)) w)
       else
         Threw (unauthorized_error d (dbMutexState w) co)
           (entered_only now a co
              (mkContext c (_context cl) path false ns (Some d)) w)
     else Threw (stale_error env ns) w).
Proof.
  intros Hc Hcl Ha Hco.
  unfold fresh, permitted, stale_error, unauthorized_error, context_entered,
    entered_only.
  destruct (shardVersionOk env ns) as [ok errmsg] eqn:Esv.
  destruct doauth;
    [destruct (isAuthorizedForLock env (name d) (dbMutexState w)) eqn:Eauth|];
    destruct ok; destruct (getOp co) eqn:Eop; cbn [exempt orb fst snd negb];
    sym_exec'; rewrite ?Ha; try reflexivity.
  all: unfold getRemoteString; rewrite ?remote_ensureStarted.
  all: rewrite (auth_cleanup_world _ _ _ _ _ _ Hcl Ha); reflexivity.
Qed.

(** [Context(ns, path, doauth)] once a lock is held, the disk is not full
    under a write lock, and the database is there or can be created. *)
Lemma Context_ns_path_outcome env now this ns path doauth w c cl a co :
  currentClient w = Some c -> clientObjs w !! c = Some cl ->
  _curOp cl = Some a -> curOps w !! a = Some co ->
  (dbMutexState w =? 0) = false ->
  (0 <? dbMutexState w) && fileAllocatorHasFailed env = false ->
  opens w ns path = true ->
  Context_ns_path env now this ns path doauth w
  = (let d := resolved_db env w ns path in
     let C := mkContext c (_context cl) path
                (match dbHolder w !! (path, nsToDatabase ns) with
                 | Some _ => false
                 | None => true
                 end) ns (Some d) in
     let w1 := db_created env ns path w in
     if fresh env (getOp co) ns then
       if permitted env doauth d (dbMutexState w) then
         Returned tt (context_entered now this c cl a co C w1)
       else
         Threw (unauthorized_error d (dbMutexState w) co)
               (entered_only now a co C w1)
     else Threw (stale_error env ns) w1).
Proof.
  intros Hc Hcl Ha Hco Hs Hdisk Hopens.
  unfold opens, resolved_db, db_created, fresh, permitted, stale_error,
    unauthorized_error, context_entered, entered_only in *.
  destruct (shardVersionOk env ns) as [ok errmsg] eqn:Esv.
  destruct (dbHolder w !! (path, nsToDatabase ns)) as [d|] eqn:Edb;
    [clear Hopens | rewrite Hopens in Hdisk; cbn in Hdisk];
    cbn zeta;
    (destruct doauth;
     [match goal with
      | |- context [isAuthorizedForLock env ?n ?l] =>
          destruct (isAuthorizedForLock env n l) eqn:Eauth
      end|]);
    destruct ok; destruct (getOp co) eqn:Eop; cbn [exempt orb fst snd negb];
    try (cbn [name] in Eauth);
    sym_exec'; rewrite ?Ha; try reflexivity.
  all: unfold getRemoteString; rewrite ?remote_ensureStarted.
  all: rewrite (auth_cleanup_world c cl a) by (first [exact Hcl | exact Ha]);
    reflexivity.
Qed.

(** Without a write lock, [Context(ns, path, doauth)] on a database that
    does not exist throws and changes nothing. *)
Lemma Context_ns_path_not_opened env now this ns path doauth w c cl :
  currentClient w = Some c -> clientObjs w !! c = Some cl ->
  dbMutexState w < 0 ->
  dbHolder w !! (path, nsToDatabase ns) = None ->
  Context_ns_path env now this ns path doauth w
  = Threw (DatabaseNotOpened path (nsToDatabase ns)) w.
Proof.
  intros Hc Hcl Hs Hdb. unfold_ctor. cbn. rewrite Hc. cbn. rewrite Hcl. cbn.
  replace (dbMutexState w =? 0) with false by lia.
  replace (0 <? dbMutexState w) with false by lia.
  cbn. rewrite Hdb. cbn.
  replace (0 <? dbMutexState w) with false by lia. reflexivity.
Qed.

(** Under a write lock with the disk full, [Context(ns, path, doauth)]
    throws and changes nothing. *)
Lemma Context_ns_path_disk_full env now this ns path doauth w c cl :
  currentClient w = Some c -> clientObjs w !! c = Some cl ->
  0 < dbMutexState w -> fileAllocatorHasFailed env = true ->
  Context_ns_path env now this ns path doauth w
  = Threw (UserException 14031
             "Can't take a write lock while out of disk space") w.
Proof.
  intros Hc Hcl Hs Hfull. unfold_ctor. cbn. rewrite Hc. cbn. rewrite Hcl. cbn.
  replace (dbMutexState w =? 0) with false by lia.
  replace (0 <? dbMutexState w) with true by lia.
  rewrite Hfull. reflexivity.
Qed.

(** The successful constructions. *)
Lemma Context_path_ns_db_returns env now this path ns d doauth w c cl a co :
  currentClient w = Some c -> clientObjs w !! c = Some cl ->
  _curOp cl = Some a -> curOps w !! a = Some co ->
  fresh env (getOp co) ns = true ->
  permitted env doauth d (dbMutexState w) = true ->
  Context_path_ns_db env now this path ns (Some d) doauth w
  = Returned tt
      (context_entered now this c cl a co
         (mkContext c (_context cl) path false ns (Some d)) w).
Proof.
  intros Hc Hcl Ha Hco Hfresh Hauth.
  rewrite (Context_path_ns_db_outcome _ _ _ _ _ _ _ _ _ _ _ _ Hc Hcl Ha Hco).
  rewrite Hfresh, Hauth. reflexivity.
Qed.

Lemma Context_ns_path_returns env now this ns path doauth w c cl a co :
  currentClient w = Some c -> clientObjs w !! c = Some cl ->
  _curOp cl = Some a -> curOps w !! a = Some co ->
  (dbMutexState w =? 0) = false ->
  (0 <? dbMutexState w) && fileAllocatorHasFailed env = false ->
  opens w ns path = true ->
  fresh env (getOp co) ns = true ->
  permitted env doauth (resolved_db env w ns path) (dbMutexState w) = true ->
  Context_ns_path env now this ns path doauth w
  = Returned tt
      (context_entered now this c cl a co
         (mkContext c (_context cl) path
                    (match dbHolder w !! (path, nsToDatabase ns) with
                     | Some _ => false
                     | None => true
                     end)
                    ns (Some (resolved_db env w ns path)))
         (db_created env ns path w)).
Proof.
  intros Hc Hcl Ha Hco Hs Hdisk Hopens Hfresh Hauth.
  rewrite (Context_ns_path_outcome _ _ _ _ _ _ _ _ _ _ _ Hc Hcl Ha Hco
             Hs Hdisk Hopens).
  cbn zeta. rewrite Hfresh, Hauth. reflexivity.
Qed.

(** ** Authorization *)



(** ** The staleness check and CurOp::enter *)




(** C4 (amended): a construction through [_finishInit] or through the
    constructor invoked from ReadContext that gets as far as the staleness
    check, while the current operation is not a getMore, an update or a
    delete and the shard version of the namespace is not current, fails
    with a stale-config error that carries the namespace, in the error and
    in its message; the Client, its operation and the live Contexts are as
    before.  The constructor over a namespace and a database handle makes
    no such check. *)
Theorem stale_construction_fails
  (env : Env) (now : positive) (this : addr) (args : ContextArgs) (w : World)
  (c : addr) (cl : Client) (a : addr) (co : CurOp) (ns errmsg : string)
  (Hc : currentClient w = Some c)
  (Hcl : clientObjs w !! c = Some cl)
  (Ha : _curOp cl = Some a)
  (Hco : curOps w !! a = Some co)
  (Hreach : reaches_stale_check env args w = Some ns)
  (Hop : exempt (getOp co) = false)
  (Hstale : shardVersionOk env ns = (false, errmsg)) :
  exists w',
    Context_ctor env now this args w
    = Threw (SendStaleConfigException ns
               ("[" +:+ ns +:+ "] shard version not ok in Client::Context: "
                +:+ errmsg)) w' /\
    clientObjs w' = clientObjs w /\ curOps w' = curOps w /\
    contexts w' = contexts w /\ current_context w' = current_context w.
Proof.
  assert (Hfresh : fresh env (getOp co) ns = false)
    by (unfold fresh; rewrite Hop, Hstale; reflexivity).
  assert (Herr : stale_error env ns
                 = SendStaleConfigException ns
                     ("[" +:+ ns
                      +:+ "] shard version not ok in Client::Context: "
                      +:+ errmsg))
    by (unfold stale_error; rewrite Hstale; reflexivity).
  destruct args as [ns0 db doauth | ns0 path doauth | path ns0 [d|] doauth];
    cbn [reaches_stale_check] in Hreach; try discriminate;
    cbn [Context_ctor].
  - destruct (dbMutexState w =? 0) eqn:E0; [discriminate|].
    destruct ((0 <? dbMutexState w) && fileAllocatorHasFailed env) eqn:Edisk;
      [discriminate|].
    destruct (opens w ns0 path) eqn:Eopens; [|discriminate].
    cbn in Hreach. simplify_eq.
    rewrite (Context_ns_path_outcome _ _ _ _ _ _ _ _ _ _ _ Hc Hcl Ha Hco
               E0 Edisk Eopens).
    cbn zeta. rewrite Hfresh, Herr.
    eexists. split; [reflexivity|].
    unfold current_context, db_created.
    destruct (dbHolder w !! (path, nsToDatabase ns)); repeat split.
  - simplify_eq.
    rewrite (Context_path_ns_db_outcome _ _ _ _ _ _ _ _ _ _ _ _ Hc Hcl Ha Hco).
    rewrite Hfresh, Herr. eexists. split; [reflexivity|]. repeat split.
Qed.

Lemma stale_construction_fails_witness :
  exists w',
    Context_ctor stale_env 7 100%positive
      (ArgsPathNsDb "/data/db" "test.coll" (Some (mkDatabase "test" 0 true))
                    false)
      sample_world
    = Threw (SendStaleConfigException "test.coll"
               "[test.coll] shard version not ok in Client::Context: version mismatch")
            w' /\
    clientObjs w' = clientObjs sample_world /\
    curOps w' = curOps sample_world /\
    contexts w' = contexts sample_world /\
    current_context w' = current_context sample_world.
Proof.
  apply (stale_construction_fails stale_env 7 100%positive
           (ArgsPathNsDb "/data/db" "test.coll"
                         (Some (mkDatabase "test" 0 true)) false)
           sample_world 1%positive (mkClient None (Some 10%positive))
           10%positive (sample_curop 5 None true false 1)
           "test.coll" "version mismatch");
    reflexivity.
Defined.

(** C4, as the claim states it, fails on the constructor over a namespace
    and a database handle: the current operation is a query, the shard
    version of the namespace is not current, and the Context is built all
    the same. *)
Lemma namespace_db_constructor_skips_stale_check :
  current_curop sample_world = Some (sample_curop 5 None true false 1) /\
  exempt (getOp (sample_curop 5 None true false 1)) = false /\
  fst (shardVersionOk stale_env "test.coll") = false /\
  exists w',
    Context_ctor stale_env 7 100%positive
      (ArgsNsDb "test.coll" (Some (mkDatabase "test" 0 true)) true)
      sample_world = Returned tt w' /\
    current_context w' = Some (Some 100%positive).
Proof.
  split; [vm_compute; reflexivity|]. split; [reflexivity|].
  split; [reflexivity|].
  eexists. split; vm_compute; reflexivity.
Qed.

(** ** ReadContext *)

Lemma Context_dtor_returns now this w C cl a co :
  contexts w !! this = Some C -> clientObjs w !! _client C = Some cl ->
  _curOp cl = Some a -> curOps w !! a = Some co ->
  Context_dtor now this w
  = Returned tt (context_left now this (_client C) cl a co C w).
Proof.
  intros HC Hcl Ha Hco.
  unfold Context_dtor, client_leave, deref_context, context_left.
  sym_exec. rewrite ?Ha. reflexivity.
Qed.

Lemma bind_returned {A B} (m : M A) (k : A -> M B) w a w' :
  m w = Returned a w' -> bind m k w = k a w'.
Proof. unfold bind. intros ->. reflexivity. Qed.

Lemma unwinding_returned {A} (m : M A) cleanup w a w' :
  m w = Returned a w' -> unwinding m cleanup w = Returned a w'.
Proof. unfold unwinding. intros ->. reflexivity. Qed.

Lemma unwinding_threw {A} (m : M A) cleanup w e w' w'' :
  m w = Threw e w' -> cleanup w' = Returned tt w'' ->
  unwinding m cleanup w = Threw e w''.
Proof. unfold unwinding. intros -> ->. reflexivity. Qed.

Lemma readlock_ctor_eq w :
  readlock_ctor w
  = Returned tt
      (emit_event EvReadLock
         (set_dbMutexState
            (if 0 <? dbMutexState w then dbMutexState w + 1
             else dbMutexState w - 1) w)).
Proof. reflexivity. Qed.

Lemma readlock_dtor_eq w :
  dbMutexState w <> 0 ->
  readlock_dtor w
  = Returned tt
      (emit_event EvReadUnlock
         (set_dbMutexState
            (if 0 <? dbMutexState w then dbMutexState w - 1
             else dbMutexState w + 1) w)).
Proof.
  intros H. apply Z.eqb_neq in H.
  unfold readlock_dtor, bind, getState, assert. rewrite H. reflexivity.
Qed.

Lemma writelock_ctor_eq w :
  0 <= dbMutexState w ->
  writelock_ctor w
  = Returned tt (emit_event EvWriteLock (set_dbMutexState (dbMutexState w + 1) w)).
Proof.
  intros H. apply Z.leb_le in H.
  unfold writelock_ctor, bind, getState, assert. rewrite H. reflexivity.
Qed.

Lemma writelock_dtor_eq w :
  0 < dbMutexState w ->
  writelock_dtor w
  = Returned tt (emit_event EvWriteUnlock (set_dbMutexState (dbMutexState w - 1) w)).
Proof.
  intros H. apply Z.ltb_lt in H.
  unfold writelock_dtor, bind, getState, assert. rewrite H. reflexivity.
Qed.

Lemma current_context_entered now this c cl a co C w :
  currentClient w = Some c ->
  current_context (context_entered now this c cl a co C w) = Some (Some this).
Proof.
  intros Hc. unfold current_context, context_entered. cbn. rewrite Hc. cbn.
  rewrite lookup_insert_eq. reflexivity.
Qed.

Lemma ReadContext_nested_read env now1 now2 now3 tmp this ns path doauth w :
  dbHolder w !! (path, nsToDatabase ns) = None ->
  dbMutexState w < 0 ->
  exists w',
    ReadContext_ctor env now1 now2 now3 tmp this ns path doauth w
    = Threw (UserException 15928
               ("can't open a database from a nested read lock " +:+ ns)) w' /\
    log w' = log w ++ [EvReadLock; EvReadUnlock] /\
    dbMutexState w' = dbMutexState w /\
    dbHolder w' = dbHolder w /\ contexts w' = contexts w /\
    clientObjs w' = clientObjs w /\ curOps w' = curOps w.
Proof.
  intros Hdb Hs.
  pose proof (readlock_ctor_eq w) as E1.
  replace (0 <? dbMutexState w) with false in E1 by lia.
  set (w1 := emit_event EvReadLock _) in E1.
  assert (Hs1 : dbMutexState w1 = dbMutexState w - 1) by reflexivity.
  pose proof (readlock_dtor_eq w1 ltac:(lia)) as E2.
  replace (0 <? dbMutexState w1) with false in E2 by lia.
  set (w2 := emit_event EvReadUnlock _) in E2.
  exists w2. split.
  - unfold ReadContext_ctor.
    rewrite (bind_returned _ _ _ _ _ E1).
    unfold dbHolder_get at 1. unfold bind at 1.
    change (dbHolder w1) with (dbHolder w). rewrite Hdb.
    unfold getState at 1. unfold bind at 1.
    replace (0 <? dbMutexState w1) with false by lia.
    replace (dbMutexState w1 =? -1) with false by lia.
    replace (dbMutexState w1 <? -1) with true by lia.
    apply (unwinding_threw _ _ _ _ w1 w2); [reflexivity | exact E2].
  - subst w2 w1. cbn. rewrite <- app_assoc. repeat split. lia.
Qed.

Lemma bind_threw {A B} (m : M A) (k : A -> M B) w e w' :
  m w = Threw e w' -> bind m k w = Threw e w'.
Proof. unfold bind. intros ->. reflexivity. Qed.

Lemma read_unlock_restores s :
  (if 0 <? read_locked_state s then read_locked_state s - 1
   else read_locked_state s + 1) = s.
Proof.
  unfold read_locked_state. destruct (Z.ltb_spec 0 s).
  - replace (0 <? s + 1) with true by lia. lia.
  - replace (0 <? s - 1) with false by lia. lia.
Qed.

Lemma read_locked_state_nonzero s : read_locked_state s <> 0.
Proof. unfold read_locked_state. destruct (Z.ltb_spec 0 s); lia. Qed.

(** A construction whose checks fail throws, and has at most entered the
    CurOp. *)
Lemma Context_path_ns_db_fails env now this path ns d doauth w c cl a co :
  currentClient w = Some c -> clientObjs w !! c = Some cl ->
  _curOp cl = Some a -> curOps w !! a = Some co ->
  fresh env (getOp co) ns && permitted env doauth d (dbMutexState w) = false ->
  exists w',
    Context_path_ns_db env now this path ns (Some d) doauth w
    = Threw (check_error env co ns d (dbMutexState w)) w' /\
    only_curOps_differ w w'.
Proof.
  intros Hc Hcl Ha Hco Hcheck.
  rewrite (Context_path_ns_db_outcome _ _ _ _ _ _ _ _ _ _ _ _ Hc Hcl Ha Hco).
  unfold check_error.
  destruct (fresh env (getOp co) ns); cbn in Hcheck.
  - rewrite Hcheck. eexists. split; [reflexivity|].
    unfold only_curOps_differ, entered_only. cbn. repeat split.
  - eexists. split; [reflexivity|]. unfold only_curOps_differ. repeat split.
Qed.

Lemma Context_ns_path_fails env now this ns path doauth w c cl a co :
  currentClient w = Some c -> clientObjs w !! c = Some cl ->
  _curOp cl = Some a -> curOps w !! a = Some co ->
  (dbMutexState w =? 0) = false ->
  (0 <? dbMutexState w) && fileAllocatorHasFailed env = false ->
  opens w ns path = true ->
  fresh env (getOp co) ns
  && permitted env doauth (resolved_db env w ns path) (dbMutexState w) = false ->
  exists w',
    Context_ns_path env now this ns path doauth w
    = Threw (check_error env co ns (resolved_db env w ns path)
                         (dbMutexState w)) w' /\
    only_curOps_differ (db_created env ns path w) w'.
Proof.
  intros Hc Hcl Ha Hco Hs Hdisk Hopens Hcheck.
  rewrite (Context_ns_path_outcome _ _ _ _ _ _ _ _ _ _ _ Hc Hcl Ha Hco
             Hs Hdisk Hopens).
  cbn zeta. unfold check_error.
  destruct (fresh env (getOp co) ns); cbn in Hcheck.
  - rewrite Hcheck. eexists. split; [reflexivity|].
    unfold only_curOps_differ, entered_only. cbn. repeat split.
  - eexists. split; [reflexivity|]. unfold only_curOps_differ. repeat split.
Qed.

(** The database exists: the Context is built under the read lock, or the
    read lock is given back. *)
Lemma ReadContext_existing_db
  env now1 now2 now3 tmp this ns path doauth w d c cl a co :
  dbHolder w !! (path, nsToDatabase ns) = Some d ->
  currentClient w = Some c -> clientObjs w !! c = Some cl ->
  _curOp cl = Some a -> curOps w !! a = Some co ->
  if fresh env (getOp co) ns
     && permitted env doauth d (read_locked_state (dbMutexState w))
  then
    exists w',
      ReadContext_ctor env now1 now2 now3 tmp this ns path doauth w
      = Returned (mkReadContext true (Some this)) w' /\
      log w' = log w ++ [EvReadLock; EvContextBuilt this] /\
      dbMutexState w' = read_locked_state (dbMutexState w) /\
      dbHolder w' = dbHolder w /\
      current_context w' = Some (Some this)
  else
    exists w',
      ReadContext_ctor env now1 now2 now3 tmp this ns path doauth w
      = Threw (check_error env co ns d (read_locked_state (dbMutexState w)))
              w' /\
      log w' = log w ++ [EvReadLock; EvReadUnlock] /\
      dbMutexState w' = dbMutexState w /\
      dbHolder w' = dbHolder w /\
      contexts w' = contexts w /\
      current_context w' = current_context w.
Proof.
  intros Hdb Hc Hcl Ha Hco.
  pose proof (readlock_ctor_eq w) as E1.
  change (if 0 <? dbMutexState w then dbMutexState w + 1
          else dbMutexState w - 1)
    with (read_locked_state (dbMutexState w)) in E1.
  set (w1 := emit_event EvReadLock _) in E1.
  assert (Hs1 : dbMutexState w1 = read_locked_state (dbMutexState w))
    by reflexivity.
  assert (Hstart :
    ReadContext_ctor env now1 now2 now3 tmp this ns path doauth w
    = (unwinding (Context_path_ns_db env now1 this path ns (Some d) doauth)
                 readlock_dtor ;;
       ret (mkReadContext true (Some this))) w1).
  { unfold ReadContext_ctor.
    rewrite (bind_returned _ _ _ _ _ E1).
    unfold dbHolder_get at 1. unfold bind at 1.
    change (dbHolder w1) with (dbHolder w). rewrite Hdb. reflexivity. }
  rewrite <- Hs1.
  destruct (fresh env (getOp co) ns && permitted env doauth d (dbMutexState w1))
    eqn:Echeck.
  - apply andb_true_iff in Echeck as [Hfresh Hauth].
    pose proof (Context_path_ns_db_returns env now1 this path ns d doauth w1
                  c cl a co Hc Hcl Ha Hco Hfresh Hauth) as E2.
    set (w2 := context_entered _ _ _ _ _ _ _ _) in E2.
    exists w2. split.
    + rewrite Hstart.
      rewrite (bind_returned _ _ _ _ _ (unwinding_returned _ _ _ _ _ E2)).
      reflexivity.
    + split; [|split; [|split]].
      * subst w2 w1. cbn. rewrite <- app_assoc. reflexivity.
      * reflexivity.
      * reflexivity.
      * apply current_context_entered. exact Hc.
  - destruct (Context_path_ns_db_fails env now1 this path ns d doauth w1
                c cl a co Hc Hcl Ha Hco Echeck)
      as (w2 & E2 & _ & Hobjs & Hctx & Hcur & Hs2 & Hdb2 & _ & Hlog).
    pose proof (readlock_dtor_eq w2
                  ltac:(rewrite Hs2, Hs1; apply read_locked_state_nonzero))
      as E3.
    set (w3 := emit_event EvReadUnlock _) in E3.
    exists w3. split.
    + rewrite Hstart.
      apply bind_threw. apply (unwinding_threw _ _ _ _ w2 w3); assumption.
    + split; [|split; [|split; [|split]]].
      * subst w3. cbn. rewrite Hlog. subst w1. cbn.
        rewrite <- app_assoc. reflexivity.
      * subst w3. cbn. rewrite Hs2, Hs1. apply read_unlock_restores.
      * subst w3. cbn. rewrite Hdb2. reflexivity.
      * subst w3. cbn. rewrite Hctx. reflexivity.
      * unfold current_context. subst w3. cbn. rewrite Hcur, Hobjs.
        reflexivity.
Qed.

(** The database is missing and a write lock is held already: the
    Context is built under it, which creates the database. *)
Lemma ReadContext_write_locked
  env now1 now2 now3 tmp this ns path doauth w c cl a co :
  dbHolder w !! (path, nsToDatabase ns) = None ->
  0 < dbMutexState w ->
  currentClient w = Some c -> clientObjs w !! c = Some cl ->
  _curOp cl = Some a -> curOps w !! a = Some co ->
  let made := mkDatabase (nsToDatabase ns) (defaultProfile env) true in
  if fileAllocatorHasFailed env then
    exists w',
      ReadContext_ctor env now1 now2 now3 tmp this ns path doauth w
      = Threw (UserException 14031
                 "Can't take a write lock while out of disk space") w' /\
      log w' = log w ++ [EvReadLock; EvReadUnlock] /\
      dbMutexState w' = dbMutexState w /\
      dbHolder w' = dbHolder w /\
      contexts w' = contexts w /\
      current_context w' = current_context w
  else if fresh env (getOp co) ns
          && permitted env doauth made (dbMutexState w + 1)
  then
    exists w',
      ReadContext_ctor env now1 now2 now3 tmp this ns path doauth w
      = Returned (mkReadContext true (Some this)) w' /\
      log w' = log w ++ [EvReadLock; EvDbCreated path (nsToDatabase ns);
                         EvContextBuilt this] /\
      dbMutexState w' = dbMutexState w + 1 /\
      dbHolder w' !! (path, nsToDatabase ns) = Some made /\
      current_context w' = Some (Some this)
  else
    exists w',
      ReadContext_ctor env now1 now2 now3 tmp this ns path doauth w
      = Threw (check_error env co ns made (dbMutexState w + 1)) w' /\
      log w' = log w ++ [EvReadLock; EvDbCreated path (nsToDatabase ns);
                         EvReadUnlock] /\
      dbMutexState w' = dbMutexState w /\
      dbHolder w' !! (path, nsToDatabase ns) = Some made /\
      contexts w' = contexts w /\
      current_context w' = current_context w.
Proof.
  intros Hdb Hs Hc Hcl Ha Hco made.
  pose proof (readlock_ctor_eq w) as E1.
  replace (0 <? dbMutexState w) with true in E1 by lia.
  set (w1 := emit_event EvReadLock _) in E1.
  assert (Hs1 : dbMutexState w1 = dbMutexState w + 1) by reflexivity.
  assert (Hdb1 : dbHolder w1 !! (path, nsToDatabase ns) = None) by exact Hdb.
  assert (Hstart :
    ReadContext_ctor env now1 now2 now3 tmp this ns path doauth w
    = (unwinding (Context_ns_path env now1 this ns path doauth)
                 readlock_dtor ;;
       ret (mkReadContext true (Some this))) w1).
  { unfold ReadContext_ctor.
    rewrite (bind_returned _ _ _ _ _ E1).
    unfold dbHolder_get at 1. unfold bind at 1. rewrite Hdb1.
    unfold getState at 1. unfold bind at 1.
    replace (0 <? dbMutexState w1) with true by lia. reflexivity. }
  assert (Hback : (if 0 <? dbMutexState w1 then dbMutexState w1 - 1
                   else dbMutexState w1 + 1) = dbMutexState w).
  { replace (0 <? dbMutexState w1) with true by lia. lia. }
  destruct (fileAllocatorHasFailed env) eqn:Efull.
  - (* the disk is full *)
    pose proof (Context_ns_path_disk_full env now1 this ns path doauth w1
                  c cl Hc Hcl ltac:(lia) Efull) as E2.
    pose proof (readlock_dtor_eq w1 ltac:(lia)) as E3.
    rewrite Hback in E3.
    set (w3 := emit_event EvReadUnlock _) in E3.
    exists w3. split.
    + rewrite Hstart.
      apply bind_threw. apply (unwinding_threw _ _ _ _ w1 w3); assumption.
    + subst w3 w1. cbn. rewrite <- app_assoc. repeat split.
  - assert (Hnz : (dbMutexState w1 =? 0) = false) by lia.
    assert (Hdisk : (0 <? dbMutexState w1) && fileAllocatorHasFailed env = false)
      by (rewrite Efull; apply andb_false_r).
    assert (Hopens : opens w1 ns path = true)
      by (unfold opens; rewrite Hdb1; lia).
    assert (Hres : resolved_db env w1 ns path = made)
      by (unfold resolved_db; rewrite Hdb1; reflexivity).
    rewrite <- Hs1, <- Hres.
    destruct (fresh env (getOp co) ns
              && permitted env doauth (resolved_db env w1 ns path)
                           (dbMutexState w1)) eqn:Echeck.
    + apply andb_true_iff in Echeck as [Hfresh Hauth].
      pose proof (Context_ns_path_returns env now1 this ns path doauth w1
                    c cl a co Hc Hcl Ha Hco Hnz Hdisk Hopens Hfresh Hauth)
        as E2.
      unfold db_created in E2. rewrite Hdb1 in E2.
      set (w2 := context_entered _ _ _ _ _ _ _ _) in E2.
      exists w2. split.
      * rewrite Hstart.
        rewrite (bind_returned _ _ _ _ _ (unwinding_returned _ _ _ _ _ E2)).
        reflexivity.
      * split; [|split; [|split]].
        -- subst w2 w1. cbn. rewrite <- !app_assoc. reflexivity.
        -- reflexivity.
        -- rewrite Hres. subst w2 w1. cbn. apply lookup_insert_eq.
        -- apply current_context_entered. exact Hc.
    + destruct (Context_ns_path_fails env now1 this ns path doauth w1
                  c cl a co Hc Hcl Ha Hco Hnz Hdisk Hopens Echeck)
        as (w2 & E2 & _ & Hobjs & Hctx & Hcur & Hs2 & Hdb2 & _ & Hlog).
      unfold db_created in Hobjs, Hctx, Hcur, Hs2, Hdb2, Hlog.
      rewrite Hdb1 in Hobjs, Hctx, Hcur, Hs2, Hdb2, Hlog.
      cbn in Hobjs, Hctx, Hcur, Hs2, Hdb2, Hlog.
      pose proof (readlock_dtor_eq w2 ltac:(rewrite Hs2; lia)) as E3.
      rewrite Hs2 in E3.
      replace (0 <? dbMutexState w + 1) with true in E3 by lia.
      set (w3 := emit_event EvReadUnlock _) in E3.
      exists w3. split.
      * rewrite Hstart.
        apply bind_threw. apply (unwinding_threw _ _ _ _ w2 w3); assumption.
      * split; [|split; [|split; [|split]]].
        -- subst w3. cbn. rewrite Hlog, <- !app_assoc. reflexivity.
        -- subst w3. cbn. lia.
        -- rewrite Hres. subst w3. cbn. rewrite Hdb2. apply lookup_insert_eq.
        -- subst w3. cbn. rewrite Hctx. reflexivity.
        -- unfold current_context. subst w3. cbn. rewrite Hcur, Hobjs.
           reflexivity.
Qed.

(** The database is missing and the read lock just taken is the only
    lock: it is given back, the database is created by a Context built
    and destroyed under a write lock, and the Context is built again
    under a new read lock. *)
Lemma ReadContext_single_read_lock
  env now1 now2 now3 tmp this ns path doauth w c cl a co :
  dbHolder w !! (path, nsToDatabase ns) = None ->
  dbMutexState w = 0 ->
  currentClient w = Some c -> clientObjs w !! c = Some cl ->
  _curOp cl = Some a -> curOps w !! a = Some co ->
  let made := mkDatabase (nsToDatabase ns) (defaultProfile env) true in
  if fileAllocatorHasFailed env then
    exists w',
      ReadContext_ctor env now1 now2 now3 tmp this ns path doauth w
      = Threw (UserException 14031
                 "Can't take a write lock while out of disk space") w' /\
      log w' = log w ++ [EvReadLock; EvReadUnlock; EvWriteLock;
                         EvWriteUnlock] /\
      dbMutexState w' = 0 /\
      dbHolder w' = dbHolder w /\
      contexts w' = contexts w /\
      current_context w' = current_context w
  else if negb (fresh env (getOp co) ns && permitted env doauth made 1)
  then
    exists w',
      ReadContext_ctor env now1 now2 now3 tmp this ns path doauth w
      = Threw (check_error env co ns made 1) w' /\
      log w' = log w ++ [EvReadLock; EvReadUnlock; EvWriteLock;
                         EvDbCreated path (nsToDatabase ns);
                         EvWriteUnlock] /\
      dbMutexState w' = 0 /\
      dbHolder w' !! (path, nsToDatabase ns) = Some made /\
      contexts w' = contexts w /\
      current_context w' = current_context w
  else if permitted env doauth made (-1)
  then
    exists w' op lockType micros command,
      ReadContext_ctor env now1 now2 now3 tmp this ns path doauth w
      = Returned (mkReadContext true (Some this)) w' /\
      log w' = log w ++ [EvReadLock; EvReadUnlock; EvWriteLock;
                         EvDbCreated path (nsToDatabase ns);
                         EvContextBuilt tmp;
                         EvTopRecord ns op lockType micros command;
                         EvContextDestroyed tmp; EvWriteUnlock;
                         EvReadLock; EvContextBuilt this] /\
      dbMutexState w' = -1 /\
      dbHolder w' !! (path, nsToDatabase ns) = Some made /\
      current_context w' = Some (Some this)
  else
    exists w' op lockType micros command,
      ReadContext_ctor env now1 now2 now3 tmp this ns path doauth w
      = Threw (unauthorized_error made (-1) co) w' /\
      log w' = log w ++ [EvReadLock; EvReadUnlock; EvWriteLock;
                         EvDbCreated path (nsToDatabase ns);
                         EvContextBuilt tmp;
                         EvTopRecord ns op lockType micros command;
                         EvContextDestroyed tmp; EvWriteUnlock;
                         EvReadLock; EvReadUnlock] /\
      dbMutexState w' = 0 /\
      dbHolder w' !! (path, nsToDatabase ns) = Some made /\
      current_context w' = current_context w.
Proof.
  intros Hdb Hs Hc Hcl Ha Hco made.
  (* lk.reset( new readlock() ) *)
  pose proof (readlock_ctor_eq w) as E1.
  rewrite Hs in E1. cbn [Z.ltb Z.compare Z.sub Z.add Z.opp Z.pos_sub] in E1.
  set (w1 := emit_event EvReadLock _) in E1.
  assert (Hs1 : dbMutexState w1 = -1) by reflexivity.
  assert (Hdb1 : dbHolder w1 !! (path, nsToDatabase ns) = None) by exact Hdb.
  (* lk.reset(0) *)
  pose proof (readlock_dtor_eq w1 ltac:(rewrite Hs1; discriminate)) as E2.
  rewrite Hs1 in E2. cbn [Z.ltb Z.compare Z.sub Z.add Z.opp Z.pos_sub] in E2.
  set (w2 := emit_event EvReadUnlock _) in E2.
  assert (Hs2 : dbMutexState w2 = 0) by reflexivity.
  (* writelock w *)
  pose proof (writelock_ctor_eq w2 ltac:(rewrite Hs2; lia)) as E3.
  rewrite Hs2 in E3. cbn [Z.add] in E3.
  set (w3 := emit_event EvWriteLock _) in E3.
  assert (Hs3 : dbMutexState w3 = 1) by reflexivity.
  assert (Hdb3 : dbHolder w3 !! (path, nsToDatabase ns) = None) by exact Hdb.
  assert (Hstart :
    ReadContext_ctor env now1 now2 now3 tmp this ns path doauth w
    = (unwinding (Context_ns_path env now1 tmp ns path doauth)
                 writelock_dtor ;;
       Context_dtor now2 tmp ;;
       writelock_dtor ;;
       readlock_ctor ;;
       unwinding (Context_ns_path env now3 this ns path doauth)
                 readlock_dtor ;;
       ret (mkReadContext true (Some this))) w3).
  { unfold ReadContext_ctor.
    rewrite (bind_returned _ _ _ _ _ E1).
    unfold dbHolder_get at 1. unfold bind at 1. rewrite Hdb1.
    unfold getState at 1. unfold bind at 1. rewrite Hs1.
    cbn [Z.ltb Z.eqb Z.compare Pos.eqb Pos.compare Pos.compare_cont].
    rewrite (bind_returned _ _ _ _ _ E2).
    rewrite (bind_returned _ _ _ _ _ E3). reflexivity. }
  destruct (fileAllocatorHasFailed env) eqn:Efull.
  - (* the disk is full: the write-locked construction refuses *)
    pose proof (Context_ns_path_disk_full env now1 tmp ns path doauth w3
                  c cl Hc Hcl ltac:(rewrite Hs3; lia) Efull) as E4.
    pose proof (writelock_dtor_eq w3 ltac:(rewrite Hs3; lia)) as E5.
    rewrite Hs3 in E5. cbn [Z.sub Z.add Z.opp Z.pos_sub] in E5.
    set (w5 := emit_event EvWriteUnlock _) in E5.
    exists w5. split.
    + rewrite Hstart.
      apply bind_threw. apply (unwinding_threw _ _ _ _ w3 w5); assumption.
    + subst w5 w3 w2 w1. cbn. rewrite <- !app_assoc. repeat split.
  - assert (Hnz3 : (dbMutexState w3 =? 0) = false) by reflexivity.
    assert (Hdisk3 : (0 <? dbMutexState w3) && fileAllocatorHasFailed env
                     = false)
      by (rewrite Efull; apply andb_false_r).
    assert (Hopens3 : opens w3 ns path = true)
      by (unfold opens; rewrite Hdb3; reflexivity).
    assert (Hres3 : resolved_db env w3 ns path = made)
      by (unfold resolved_db; rewrite Hdb3; reflexivity).
    destruct (fresh env (getOp co) ns && permitted env doauth made 1)
      eqn:Echeck0; cbn [negb];
      assert (Echeck : fresh env (getOp co) ns
                       && permitted env doauth (resolved_db env w3 ns path)
                                    (dbMutexState w3)
                       = fresh env (getOp co) ns
                         && permitted env doauth made 1)
        by (rewrite Hres3; reflexivity);
      rewrite Echeck0 in Echeck.
    + (* the write-locked construction goes through *)
      apply andb_true_iff in Echeck as [Hfresh Hauth].
      pose proof (Context_ns_path_returns env now1 tmp ns path doauth w3
                    c cl a co Hc Hcl Ha Hco Hnz3 Hdisk3 Hopens3 Hfresh Hauth)
        as E4.
      unfold db_created in E4. rewrite Hdb3, Hres3 in E4.
      set (C1 := mkContext _ _ _ _ _ _) in E4.
      set (w4 := context_entered _ _ _ _ _ _ _ _) in E4.
      (* ~Context *)
      assert (HC4 : contexts w4 !! tmp = Some C1).
      { subst w4. unfold context_entered. cbn. apply lookup_insert_eq. }
      assert (Hcl4 : clientObjs w4 !! _client C1
                     = Some (mkClient (Some tmp) (_curOp cl))).
      { subst w4. unfold context_entered. cbn. apply lookup_insert_eq. }
      assert (Hco4 : curOps w4 !! a = Some (CurOp_enter now1 C1 co)).
      { subst w4. unfold context_entered. cbn. apply lookup_insert_eq. }
      pose proof (Context_dtor_returns now2 tmp w4 C1 _ a _ HC4 Hcl4 Ha Hco4)
        as E5.
      set (w5 := context_left _ _ _ _ _ _ _ _) in E5.
      assert (Hs5 : dbMutexState w5 = 1) by reflexivity.
      (* ~writelock *)
      pose proof (writelock_dtor_eq w5 ltac:(rewrite Hs5; lia)) as E6.
      rewrite Hs5 in E6. cbn [Z.sub Z.add Z.opp Z.pos_sub] in E6.
      set (w6 := emit_event EvWriteUnlock _) in E6.
      (* lk.reset( new readlock() ) *)
      pose proof (readlock_ctor_eq w6) as E7.
      change (dbMutexState w6) with 0 in E7.
      cbn [Z.ltb Z.compare Z.sub Z.add Z.opp Z.pos_sub] in E7.
      set (w7 := emit_event EvReadLock _) in E7.
      assert (Hs7 : dbMutexState w7 = -1) by reflexivity.
      (* c.reset( new Context(ns, path, doauth) ) *)
      set (co7 := fst (CurOp_leave now2 (CurOp_enter now1 C1 co))).
      assert (Hcl7 : clientObjs w7 !! c
                     = Some (mkClient (_context cl) (_curOp cl))).
      { subst w7 w6 w5. unfold context_left. cbn. apply lookup_insert_eq. }
      assert (Hco7 : curOps w7 !! a = Some co7).
      { subst w7 w6 w5. unfold context_left. cbn. apply lookup_insert_eq. }
      assert (Hdb7 : dbHolder w7 !! (path, nsToDatabase ns) = Some made).
      { subst w7 w6 w5 w4. unfold context_left, context_entered. cbn.
        apply lookup_insert_eq. }
      assert (Hop7 : getOp co7 = getOp co).
      { subst co7. cbn. apply op_ensureStarted. }
      assert (Hremote7 : getRemoteString co7 = getRemoteString co).
      { subst co7. cbn. apply remote_ensureStarted. }
      assert (Hnz7 : (dbMutexState w7 =? 0) = false) by reflexivity.
      assert (Hdisk7 : (0 <? dbMutexState w7) && fileAllocatorHasFailed env
                       = false) by reflexivity.
      assert (Hopens7 : opens w7 ns path = true)
        by (unfold opens; rewrite Hdb7; reflexivity).
      assert (Hres7 : resolved_db env w7 ns path = made)
        by (unfold resolved_db; rewrite Hdb7; reflexivity).
      assert (Hfresh7 : fresh env (getOp co7) ns = true)
        by (rewrite Hop7; exact Hfresh).
      assert (Hcur7 : current_context w7 = current_context w).
      { transitivity (Some (_context cl)).
        - unfold current_context.
          change (currentClient w7) with (currentClient w). rewrite Hc.
          change (clientObjs w7 !! c ≫= (fun cl0 => Some (_context cl0))
                  = Some (_context cl)).
          rewrite Hcl7. reflexivity.
        - unfold current_context. rewrite Hc.
          change (Some (_context cl)
                  = clientObjs w !! c ≫= (fun cl0 => Some (_context cl0))).
          rewrite Hcl. reflexivity. }
      assert (Hlog7 : exists op lockType micros command,
                 log w7 = log w ++ [EvReadLock; EvReadUnlock; EvWriteLock;
                                    EvDbCreated path (nsToDatabase ns);
                                    EvContextBuilt tmp;
                                    EvTopRecord ns op lockType micros command;
                                    EvContextDestroyed tmp; EvWriteUnlock;
                                    EvReadLock]).
      { exists (_op (CurOp_enter now1 C1 co)),
          (_lockType (CurOp_enter now1 C1 co)),
          (u64_sub (Z.pos now2) (_checkpoint (CurOp_enter now1 C1 co))),
          (_command (CurOp_enter now1 C1 co)).
        subst w7 w6 w5 w4 w3 w2 w1. unfold context_entered, context_left.
        cbn. rewrite <- !app_assoc. reflexivity. }
      destruct Hlog7 as (op & lockType & micros & command & Hlog7).
      assert (Hprefix :
        forall k : M ReadContext,
          (unwinding (Context_ns_path env now1 tmp ns path doauth)
                     writelock_dtor ;;
           Context_dtor now2 tmp ;;
           writelock_dtor ;;
           readlock_ctor ;; k) w3 = k w7).
      { intros k.
        rewrite (bind_returned _ _ _ _ _ (unwinding_returned _ _ _ _ _ E4)).
        rewrite (bind_returned _ _ _ _ _ E5).
        rewrite (bind_returned _ _ _ _ _ E6).
        rewrite (bind_returned _ _ _ _ _ E7). reflexivity. }
      destruct (permitted env doauth made (-1)) eqn:Eauth0;
        assert (Eauth7 : permitted env doauth (resolved_db env w7 ns path)
                                   (dbMutexState w7)
                         = permitted env doauth made (-1))
          by (rewrite Hres7; reflexivity);
        rewrite Eauth0 in Eauth7.
      * (* and so does the one under the new read lock *)
        pose proof (Context_ns_path_returns env now3 this ns path doauth w7
                      c _ a co7 Hc Hcl7 Ha Hco7 Hnz7 Hdisk7 Hopens7 Hfresh7
                      Eauth7) as E8.
        unfold db_created in E8. rewrite Hdb7 in E8.
        set (w8 := context_entered _ _ _ _ _ _ _ _) in E8.
        exists w8, op, lockType, micros, command. split.
        -- rewrite Hstart, Hprefix.
           rewrite (bind_returned _ _ _ _ _ (unwinding_returned _ _ _ _ _ E8)).
           reflexivity.
        -- split; [|split; [|split]].
           ++ change (log w8) with (log w7 ++ [EvContextBuilt this]).
              rewrite Hlog7, <- !app_assoc. reflexivity.
           ++ reflexivity.
           ++ exact Hdb7.
           ++ apply current_context_entered. exact Hc.
      * (* the Client may not read the database *)
        assert (Echeck7 :
                  fresh env (getOp co7) ns
                  && permitted env doauth (resolved_db env w7 ns path)
                               (dbMutexState w7) = false)
          by (rewrite Hfresh7, Eauth7; reflexivity).
        destruct (Context_ns_path_fails env now3 this ns path doauth w7
                    c _ a co7 Hc Hcl7 Ha Hco7 Hnz7 Hdisk7 Hopens7 Echeck7)
          as (w8 & E8 & _ & Hobjs & Hctx & Hcur & Hs8 & Hdb8 & _ & Hlog).
        unfold db_created in Hobjs, Hctx, Hcur, Hs8, Hdb8, Hlog.
        rewrite Hdb7 in Hobjs, Hctx, Hcur, Hs8, Hdb8, Hlog.
        assert (Herr : check_error env co7 ns (resolved_db env w7 ns path)
                                   (dbMutexState w7)
                       = unauthorized_error made (-1) co).
        { unfold check_error. rewrite Hfresh7, Hres7.
          unfold unauthorized_error. rewrite Hremote7. reflexivity. }
        rewrite Herr in E8.
        pose proof (readlock_dtor_eq w8 ltac:(rewrite Hs8, Hs7; discriminate))
          as E9.
        rewrite Hs8, Hs7 in E9.
        cbn [Z.ltb Z.compare Z.sub Z.add Z.opp Z.pos_sub] in E9.
        set (w9 := emit_event EvReadUnlock _) in E9.
        exists w9, op, lockType, micros, command. split.
        -- rewrite Hstart, Hprefix.
           apply bind_threw. apply (unwinding_threw _ _ _ _ w8 w9); assumption.
        -- split; [|split; [|split]].
           ++ subst w9. cbn. rewrite Hlog, Hlog7, <- !app_assoc. reflexivity.
           ++ reflexivity.
           ++ subst w9. cbn. rewrite Hdb8. exact Hdb7.
           ++ rewrite <- Hcur7. unfold current_context. subst w9. cbn.
              rewrite Hcur, Hobjs. reflexivity.
    + (* a check of the write-locked construction fails *)
      destruct (Context_ns_path_fails env now1 tmp ns path doauth w3
                  c cl a co Hc Hcl Ha Hco Hnz3 Hdisk3 Hopens3 Echeck)
        as (w4 & E4 & _ & Hobjs & Hctx & Hcur & Hs4 & Hdb4 & _ & Hlog).
      unfold db_created in Hobjs, Hctx, Hcur, Hs4, Hdb4, Hlog.
      rewrite Hdb3 in Hobjs, Hctx, Hcur, Hs4, Hdb4, Hlog.
      cbn in Hobjs, Hctx, Hcur, Hs4, Hdb4, Hlog.
      pose proof (writelock_dtor_eq w4 ltac:(rewrite Hs4; lia)) as E5.
      rewrite Hs4 in E5. cbn [Z.sub Z.add Z.opp Z.pos_sub] in E5.
      set (w5 := emit_event EvWriteUnlock _) in E5.
      rewrite Hres3 in E4.
      exists w5. split.
      * rewrite Hstart.
        apply bind_threw.
        apply (unwinding_threw _ _ _ _ w4 w5); [exact E4 | exact E5].
      * split; [|split; [|split; [|split]]].
        -- subst w5. cbn. rewrite Hlog, <- !app_assoc. reflexivity.
        -- reflexivity.
        -- subst w5. cbn. rewrite Hdb4. apply lookup_insert_eq.
        -- subst w5. cbn. rewrite Hctx. reflexivity.
        -- unfold current_context. subst w5. cbn. rewrite Hcur, Hobjs.
           reflexivity.
Qed.

(** C3: ReadContext takes a read lock and looks the database up.  If it
    exists, the Context is built directly under the read lock.
    Otherwise: if a write lock is already held the Context is built under
    it, creating the database; if the read lock is the only lock held, it
    is released, a write lock is taken, a Context is built (creating the
    database) and destroyed, the write lock is released, a read lock is
    taken again and the Context is built again; if a nested read lock is
    held, the constructor fails with user error 15928 and the read lock
    it took is released.  A Context construction on the way can refuse
    (full disk under the write lock, stale shard version, no
    authorization at the lock level held): the constructor then throws
    that error with every lock it took released, and a database it has
    created stays. *)
Theorem ReadContext_database_fallback
  (env : Env) (now1 now2 now3 : positive) (tmp this : addr)
  (ns path : string) (doauth : bool) (w : World) :
  (forall d c cl a co,
   dbHolder w !! (path, nsToDatabase ns) = Some d ->
   currentClient w = Some c -> clientObjs w !! c = Some cl ->
   _curOp cl = Some a -> curOps w !! a = Some co ->
   if fresh env (getOp co) ns
      && permitted env doauth d (read_locked_state (dbMutexState w))
   then
     exists w',
       ReadContext_ctor env now1 now2 now3 tmp this ns path doauth w
       = Returned (mkReadContext true (Some this)) w' /\
       log w' = log w ++ [EvReadLock; EvContextBuilt this] /\
       dbMutexState w' = read_locked_state (dbMutexState w) /\
       dbHolder w' = dbHolder w /\
       current_context w' = Some (Some this)
   else
     exists w',
       ReadContext_ctor env now1 now2 now3 tmp this ns path doauth w
       = Threw (check_error env co ns d (read_locked_state (dbMutexState w)))
               w' /\
       log w' = log w ++ [EvReadLock; EvReadUnlock] /\
       dbMutexState w' = dbMutexState w /\
       dbHolder w' = dbHolder w /\
       contexts w' = contexts w /\
       current_context w' = current_context w) /\
  (forall c cl a co,
   dbHolder w !! (path, nsToDatabase ns) = None ->
   0 < dbMutexState w ->
   currentClient w = Some c -> clientObjs w !! c = Some cl ->
   _curOp cl = Some a -> curOps w !! a = Some co ->
   let made := mkDatabase (nsToDatabase ns) (defaultProfile env) true in
   if fileAllocatorHasFailed env then
     exists w',
       ReadContext_ctor env now1 now2 now3 tmp this ns path doauth w
       = Threw (UserException 14031
                  "Can't take a write lock while out of disk space") w' /\
       log w' = log w ++ [EvReadLock; EvReadUnlock] /\
       dbMutexState w' = dbMutexState w /\
       dbHolder w' = dbHolder w /\
       contexts w' = contexts w /\
       current_context w' = current_context w
   else if fresh env (getOp co) ns
           && permitted env doauth made (dbMutexState w + 1)
   then
     exists w',
       ReadContext_ctor env now1 now2 now3 tmp this ns path doauth w
       = Returned (mkReadContext true (Some this)) w' /\
       log w' = log w ++ [EvReadLock; EvDbCreated path (nsToDatabase ns);
                          EvContextBuilt this] /\
       dbMutexState w' = dbMutexState w + 1 /\
       dbHolder w' !! (path, nsToDatabase ns) = Some made /\
       current_context w' = Some (Some this)
   else
     exists w',
       ReadContext_ctor env now1 now2 now3 tmp this ns path doauth w
       = Threw (check_error env co ns made (dbMutexState w + 1)) w' /\
       log w' = log w ++ [EvReadLock; EvDbCreated path (nsToDatabase ns);
                          EvReadUnlock] /\
       dbMutexState w' = dbMutexState w /\
       dbHolder w' !! (path, nsToDatabase ns) = Some made /\
       contexts w' = contexts w /\
       current_context w' = current_context w) /\
  (forall c cl a co,
   dbHolder w !! (path, nsToDatabase ns) = None ->
   dbMutexState w = 0 ->
   currentClient w = Some c -> clientObjs w !! c = Some cl ->
   _curOp cl = Some a -> curOps w !! a = Some co ->
   let made := mkDatabase (nsToDatabase ns) (defaultProfile env) true in
   if fileAllocatorHasFailed env then
     exists w',
       ReadContext_ctor env now1 now2 now3 tmp this ns path doauth w
       = Threw (UserException 14031
                  "Can't take a write lock while out of disk space") w' /\
       log w' = log w ++ [EvReadLock; EvReadUnlock; EvWriteLock;
                          EvWriteUnlock] /\
       dbMutexState w' = 0 /\
       dbHolder w' = dbHolder w /\
       contexts w' = contexts w /\
       current_context w' = current_context w
   else if negb (fresh env (getOp co) ns && permitted env doauth made 1)
   then
     exists w',
       ReadContext_ctor env now1 now2 now3 tmp this ns path doauth w
       = Threw (check_error env co ns made 1) w' /\
       log w' = log w ++ [EvReadLock; EvReadUnlock; EvWriteLock;
                          EvDbCreated path (nsToDatabase ns);
                          EvWriteUnlock] /\
       dbMutexState w' = 0 /\
       dbHolder w' !! (path, nsToDatabase ns) = Some made /\
       contexts w' = contexts w /\
       current_context w' = current_context w
   else if permitted env doauth made (-1)
   then
     exists w' op lockType micros command,
       ReadContext_ctor env now1 now2 now3 tmp this ns path doauth w
       = Returned (mkReadContext true (Some this)) w' /\
       log w' = log w ++ [EvReadLock; EvReadUnlock; EvWriteLock;
                          EvDbCreated path (nsToDatabase ns);
                          EvContextBuilt tmp;
                          EvTopRecord ns op lockType micros command;
                          EvContextDestroyed tmp; EvWriteUnlock;
                          EvReadLock; EvContextBuilt this] /\
       dbMutexState w' = -1 /\
       dbHolder w' !! (path, nsToDatabase ns) = Some made /\
       current_context w' = Some (Some this)
   else
     exists w' op lockType micros command,
       ReadContext_ctor env now1 now2 now3 tmp this ns path doauth w
       = Threw (unauthorized_error made (-1) co) w' /\
       log w' = log w ++ [EvReadLock; EvReadUnlock; EvWriteLock;
                          EvDbCreated path (nsToDatabase ns);
                          EvContextBuilt tmp;
                          EvTopRecord ns op lockType micros command;
                          EvContextDestroyed tmp; EvWriteUnlock;
                          EvReadLock; EvReadUnlock] /\
       dbMutexState w' = 0 /\
       dbHolder w' !! (path, nsToDatabase ns) = Some made /\
       current_context w' = current_context w) /\
  (dbHolder w !! (path, nsToDatabase ns) = None ->
   dbMutexState w < 0 ->
   exists w',
   ReadContext_ctor env now1 now2 now3 tmp this ns path doauth w
   = Threw (UserException 15928
              ("can't open a database from a nested read lock " +:+ ns))
           w' /\
   log w' = log w ++ [EvReadLock; EvReadUnlock] /\
   dbMutexState w' = dbMutexState w /\
   dbHolder w' = dbHolder w /\ contexts w' = contexts w /\
   clientObjs w' = clientObjs w /\ curOps w' = curOps w).
Proof.
  split; [|split; [|split]].
  - intros d c cl a co. apply ReadContext_existing_db.
  - intros c cl a co. apply ReadContext_write_locked.
  - intros c cl a co. apply ReadContext_single_read_lock.
  - apply ReadContext_nested_read.
Qed.

Lemma ReadContext_database_fallback_witness :
  exists w' op lockType micros command,
    ReadContext_ctor sample_env 1 2 3 100%positive 101%positive
                     "test.coll" "/data/db" true sample_world
    = Returned (mkReadContext true (Some 101%positive)) w' /\
    log w' = log sample_world
             ++ [EvReadLock; EvReadUnlock; EvWriteLock;
                 EvDbCreated "/data/db" (nsToDatabase "test.coll");
                 EvContextBuilt 100%positive;
                 EvTopRecord "test.coll" op lockType micros command;
                 EvContextDestroyed 100%positive; EvWriteUnlock;
                 EvReadLock; EvContextBuilt 101%positive] /\
    dbMutexState w' = -1 /\
    dbHolder w' !! ("/data/db", nsToDatabase "test.coll")
    = Some (mkDatabase (nsToDatabase "test.coll")
                       (defaultProfile sample_env) true) /\
    current_context w' = Some (Some 101%positive).
Proof.
  exact (proj1 (proj2 (proj2
           (ReadContext_database_fallback sample_env 1 2 3
              100%positive 101%positive "test.coll" "/data/db" true
              sample_world)))
           1%positive (mkClient None (Some 10%positive))
           10%positive (sample_curop 5 None true false 1)
           eq_refl eq_refl eq_refl eq_refl eq_refl eq_refl).
Defined.

End ClientFacts.

Module MutexTimedFacts.
Import MutexH MutexFacts MutexTimed.

(** ** The deadline of a timed lock *)

(** X1: for a timeout of [s >= 0] milliseconds whose seconds fit an [int],
    [incxtimemillis] returns a normalised time (nanoseconds within a
    second) that lies exactly [s] milliseconds after the clock reading. *)
Theorem incxtimemillis_adds_millis (now : xtime) (s : Z)
  (Hs : 0 <= s) (Hfit : Z.quot s 1000 <= INT_MAX)
  (Hnow : 0 <= nsec now < 1000000000) :
  0 <= nsec (incxtimemillis now s) < 1000000000 /\
  nanos (incxtimemillis now s) = nanos now + s * 1000000.
Proof.
  unfold incxtimemillis, nanos.
  pose proof (Z.quot_rem' s 1000) as Hqr.
  pose proof (Z.rem_bound_pos s 1000 Hs ltac:(lia)) as Hr.
  pose proof (Z.quot_pos s 1000 Hs ltac:(lia)) as Hq.
  rewrite !wrap32_small by (unfold INT_MAX in *; lia).
  destruct (1000000000 <=? nsec now + Z.rem s 1000 * 1000000) eqn:E;
    cbn [sec nsec]; lia.
Qed.

Lemma incxtimemillis_adds_millis_witness :
  incxtimemillis (mkXtime 10 999000000) 2500 = mkXtime 13 499000000 /\
  nanos (incxtimemillis (mkXtime 10 999000000) 2500)
  = nanos (mkXtime 10 999000000) + 2500 * 1000000.
Proof.
  split; [reflexivity|].
  apply (incxtimemillis_adds_millis (mkXtime 10 999000000) 2500).
  - lia.
  - vm_compute. discriminate.
  - cbn. lia.
Defined.

(** X2: a negative timeout is not normalised: when the nanoseconds of the
    clock reading are fewer than the sub-second part taken off, the
    nanoseconds of the result are negative (the time it stands for is
    still the reading plus [s] milliseconds). *)
Theorem incxtimemillis_negative_not_normalised (now : xtime) (s : Z)
  (Hs : s < 0) (Hfit : - 2147483648 <= Z.quot s 1000)
  (Hnow : 0 <= nsec now < - (Z.rem s 1000) * 1000000) :
  nsec (incxtimemillis now s) < 0 /\
  nanos (incxtimemillis now s) = nanos now + s * 1000000.
Proof.
  unfold incxtimemillis, nanos.
  pose proof (Z.quot_rem' s 1000) as Hqr.
  pose proof (Z.rem_bound_pos_neg s 1000 ltac:(lia) ltac:(lia)) as Hr.
  assert (Hq : Z.quot s 1000 <= 0) by lia.
  rewrite !wrap32_small by (unfold INT_MAX in *; lia).
  destruct (1000000000 <=? nsec now + Z.rem s 1000 * 1000000) eqn:E;
    cbn [sec nsec]; lia.
Qed.

Lemma incxtimemillis_negative_not_normalised_witness :
  nsec (incxtimemillis (mkXtime 10 0) (-1)) < 0 /\
  nanos (incxtimemillis (mkXtime 10 0) (-1))
  = nanos (mkXtime 10 0) + (-1) * 1000000.
Proof.
  apply (incxtimemillis_negative_not_normalised (mkXtime 10 0) (-1)).
  - lia.
  - vm_compute. discriminate.
  - split; vm_compute; [discriminate | reflexivity].
Defined.

(** ** Destructions once statics are being destroyed *)

(** X3: once [_destroyingStatics] is set, the native destruction calls a
    sequence of destructions makes are exactly the [DeleteCriticalSection]
    calls of its [_WIN32] SimpleMutexes, in order; no boost mutex is deleted
    and [pthread_mutex_destroy] is never called. *)
Theorem after_sentinel_only_critical_sections_deleted
  (p : Process) (ds : list Destruction)
  (Hflag : _destroyingStatics p = true) :
  nativeCalls (destroy_all ds p) = nativeCalls p ++ unguarded_calls ds.
Proof.
  revert p Hflag. induction ds as [|d ds IH]; intros p Hflag.
  - simpl. rewrite app_nil_r. reflexivity.
  - change (destroy_all (d :: ds) p) with (destroy_all ds (destroy d p)).
    rewrite IH by (rewrite destroy_flag, Hflag; reflexivity).
    destruct d as [|h|[] h]; cbn [unguarded_calls flat_map destroy].
    + reflexivity.
    + unfold mutex_dtor. rewrite Hflag. reflexivity.
    + cbn. rewrite <- app_assoc. reflexivity.
    + unfold SimpleMutex_dtor. rewrite Hflag. reflexivity.
Qed.

Lemma after_sentinel_only_critical_sections_deleted_witness :
  nativeCalls
    (destroy_all [DestroyMutex 1%positive;
                  DestroySimpleMutex Win32 2%positive;
                  DestroySimpleMutex Pthread 3%positive]
       (mkProcess true {[ 1%positive; 2%positive; 3%positive ]} []))
  = [] ++ [DeleteCriticalSection 2%positive].
Proof.
  apply (after_sentinel_only_critical_sections_deleted
           (mkProcess true {[ 1%positive; 2%positive; 3%positive ]} [])
           [DestroyMutex 1%positive; DestroySimpleMutex Win32 2%positive;
            DestroySimpleMutex Pthread 3%positive]).
  reflexivity.
Defined.

(** ** RecursiveMutex: exclusion *)

(** X4: while a thread [t] holds the RecursiveMutex (its counter is
    positive and it is not inside [rm.m.lock()]), the SimpleMutex is held
    and every other thread that is not waiting has its counter at 0, so
    [isLocked] answers true on [t] and false on it.  Such a thread [u]
    that constructs a scoped lock increments its counter and waits inside
    [rm.m.lock()]: from then on [isLocked] answers true on [u] although
    [u] does not hold the lock, [t]'s counter is untouched, and whatever
    step is taken next, [u] is still waiting after it. *)
Theorem recursive_mutex_excludes_other_threads
  (s : Threads) (t u : thread)
  (Hreach : reachable s)
  (Hheld : 0 < n (mutex s) t) (Ht : inLock s t = false)
  (Hu : inLock s u = false) (Hother : u <> t) :
  m (mutex s) = true /\
  isLocked t (mutex s) = true /\ isLocked u (mutex s) = false /\
  exists rm',
    scoped_lock_ctor u (mutex s) = CtorWaits rm' /\
    m rm' = true /\ n rm' u = 1 /\ n rm' t = n (mutex s) t /\
    isLocked u rm' = true /\
    step s (mkThreads rm' (set_inLock u true s)) /\
    forall s2, step (mkThreads rm' (set_inLock u true s)) s2 ->
               inLock s2 u = true.
Proof.
  pose proof (reachable_inv s Hreach) as Hinv.
  destruct (rm_inv_holder s t Hinv Hheld Ht) as (Hm & Hothers).
  pose proof (Hothers u Hother Hu) as Hu0.
  split; [exact Hm|].
  split; [apply Z.ltb_lt; exact Hheld|].
  split; [unfold isLocked; rewrite Hu0; reflexivity|].
  assert (Hinc : post_increment u (mutex s)
                 = Some (true, mkRM (m (mutex s)) (set_n u (0 + 1) (mutex s)))).
  { unfold post_increment. rewrite Hu0. reflexivity. }
  exists (mkRM (m (mutex s)) (set_n u (0 + 1) (mutex s))).
  split.
  { unfold scoped_lock_ctor. rewrite Hinc. cbn. rewrite Hm. reflexivity. }
  cbn. split; [exact Hm|]. split; [apply set_n_same|].
  split; [apply set_n_other; congruence|].
  split; [unfold isLocked; cbn; rewrite set_n_same; reflexivity|].
  split; [apply (step_increment u s true); assumption|].
  intros s2 Hstep.
  inversion Hstep as [v s0 first rm1 Hout Hinc' | v s0 held Hin Hlock
                     | v s0 rm2 Hout Hd]; subst; cbn in *.
  - destruct (decide (u = v)) as [<-|Hne];
      [rewrite set_inLock_same in Hout; discriminate|].
    unfold set_inLock at 1. cbn.
    destruct (decide (u = v)); [contradiction|]. apply set_inLock_same.
  - unfold SimpleMutex_lock in Hlock. rewrite Hm in Hlock. discriminate.
  - apply set_inLock_same.
Qed.

Lemma recursive_mutex_excludes_other_threads_witness :
  let s := mkThreads (mkRM true (set_n 0%nat (0 + 1) RecursiveMutex_init))
             (set_inLock 0%nat false
                (mkThreads (mkRM false (set_n 0%nat (0 + 1) RecursiveMutex_init))
                           (set_inLock 0%nat true Threads_init))) in
  m (mutex s) = true /\
  isLocked 0%nat (mutex s) = true /\ isLocked 1%nat (mutex s) = false /\
  exists rm',
    scoped_lock_ctor 1%nat (mutex s) = CtorWaits rm' /\
    m rm' = true /\ n rm' 1%nat = 1 /\ n rm' 0%nat = n (mutex s) 0%nat /\
    isLocked 1%nat rm' = true /\
    step s (mkThreads rm' (set_inLock 1%nat true s)) /\
    forall s2, step (mkThreads rm' (set_inLock 1%nat true s)) s2 ->
               inLock s2 1%nat = true.
Proof.
  intros s.
  apply (recursive_mutex_excludes_other_threads s 0%nat 1%nat).
  - apply (reachable_step
             (mkThreads (mkRM false (set_n 0%nat (0 + 1) RecursiveMutex_init))
                        (set_inLock 0%nat true Threads_init))).
    + apply (reachable_step Threads_init); [apply reachable_init|].
      apply (step_increment 0%nat Threads_init true); reflexivity.
    + apply (step_acquire 0%nat
               (mkThreads (mkRM false (set_n 0%nat (0 + 1) RecursiveMutex_init))
                          (set_inLock 0%nat true Threads_init)) true);
        reflexivity.
  - reflexivity.
  - reflexivity.
  - reflexivity.
  - discriminate.
Defined.

(** ** The debug SimpleMutex of Windows builds *)

Lemma dsm_inv_init : dsm_inv DebugSimpleMutex_init.
Proof.
  unfold dsm_inv, DebugSimpleMutex_init; cbn.
  split; [intros; left; reflexivity|].
  split; [intros u; split; discriminate|].
  split; [reflexivity | intros [x Hx]; discriminate].
Qed.

Lemma debug_lock_inv t sm sm' :
  dsm_inv sm -> debug_lock t sm = Done sm' -> dsm_inv sm'.
Proof.
  intros (H01 & Hown & Hfree & Hone).
  unfold debug_lock, EnterCriticalSection.
  destruct (_nlocksByMe sm t =? 0) eqn:E0; cbn [negb]; [|discriminate].
  apply Z.eqb_eq in E0.
  destruct (owner (_cs sm)) as [v|] eqn:Eo.
  - destruct (decide (v = t)) as [->|Hne]; [|discriminate].
    exfalso. assert (_nlocksByMe sm t = 1) by (apply Hown; reflexivity). lia.
  - intros [= <-]. unfold dsm_inv, set_nlocks; cbn.
    split; [|split; [|split]].
    + intros u. destruct (decide (u = t)); [right; reflexivity | apply H01].
    + intros u. destruct (decide (u = t)) as [->|Hne].
      * split; reflexivity.
      * split.
        -- intros H1. apply Hown in H1. discriminate.
        -- intros [= ->]. contradiction.
    + discriminate.
    + reflexivity.
Qed.

Lemma debug_unlock_inv t sm sm' :
  dsm_inv sm -> debug_unlock t sm = Done sm' -> dsm_inv sm'.
Proof.
  intros (H01 & Hown & Hfree & Hone).
  unfold debug_unlock, LeaveCriticalSection.
  destruct (_nlocksByMe sm t =? 1) eqn:E1; cbn [negb]; [|discriminate].
  apply Z.eqb_eq in E1. pose proof (proj1 (Hown t) E1) as Eo.
  rewrite Eo. destruct (decide (t = t)); [|congruence].
  rewrite (Hone ltac:(rewrite Eo; eauto)).
  intros [= <-]. unfold dsm_inv, set_nlocks; cbn.
  split; [|split; [|split]].
  - intros u. destruct (decide (u = t)); [left; reflexivity | apply H01].
  - intros u. destruct (decide (u = t)) as [->|Hne].
    + split; discriminate.
    + split; [|discriminate].
      intros H1. apply Hown in H1. rewrite Eo in H1. congruence.
  - reflexivity.
  - intros [x Hx]. discriminate.
Qed.

Lemma debug_reachable_inv sm : debug_reachable sm -> dsm_inv sm.
Proof.
  induction 1 as [|sm sm' _ IH Hstep].
  - apply dsm_inv_init.
  - destruct Hstep as [t sm sm' H | t sm sm' H].
    + eapply debug_lock_inv; eassumption.
    + eapply debug_unlock_inv; eassumption.
Qed.

(** X5: in a debug Windows build, whatever the threads have done, the
    critical section of a SimpleMutex is never entered twice; a thread that
    locks the SimpleMutex it already holds fails the assertion instead of
    re-entering, and a thread that unlocks a SimpleMutex it does not hold
    fails the assertion. *)
Theorem debug_SimpleMutex_catches_misuse
  (sm : DebugSimpleMutex) (t : thread) (Hreach : debug_reachable sm) :
  (entered (_cs sm) <= 1)%nat /\
  (owner (_cs sm) = Some t -> debug_lock t sm = AssertionFailed) /\
  (owner (_cs sm) <> Some t -> debug_unlock t sm = AssertionFailed).
Proof.
  pose proof (debug_reachable_inv sm Hreach) as (H01 & Hown & Hfree & Hone).
  split; [|split].
  - destruct (owner (_cs sm)) eqn:Eo.
    + rewrite Hone by eauto. lia.
    + rewrite Hfree by reflexivity. lia.
  - intros Ho. apply Hown in Ho. unfold debug_lock. rewrite Ho. reflexivity.
  - intros Ho. unfold debug_unlock.
    destruct (H01 t) as [H0|H1].
    + rewrite H0. reflexivity.
    + apply Hown in H1. contradiction.
Qed.

Lemma debug_SimpleMutex_catches_misuse_witness :
  exists sm,
    debug_lock 0%nat DebugSimpleMutex_init = Done sm /\
    (entered (_cs sm) <= 1)%nat /\
    (owner (_cs sm) = Some 0%nat -> debug_lock 0%nat sm = AssertionFailed) /\
    (owner (_cs sm) <> Some 0%nat -> debug_unlock 0%nat sm = AssertionFailed).
Proof.
  eexists. split; [reflexivity|].
  apply (debug_SimpleMutex_catches_misuse _ 0%nat).
  eapply debug_reachable_step; [apply debug_reachable_init|].
  apply (debug_step_lock 0%nat). reflexivity.
Defined.

End MutexTimedFacts.

Module ClientLifeFacts.
Import ClientCpp ClientFacts ClientLife.

(** ** More on the kill coordinator *)

Lemma chain_first_match i h p l :
  chain h p l ->
  Forall (no_match i h) l \/
  exists before k after cok,
    l = before ++ k :: after /\ Forall (no_match i h) before /\
    h !! k = Some cok /\ opNum cok = i.
Proof.
  induction 1 as [|a co l Ha Hl IH]; [left; constructor|].
  destruct (decide (opNum co = i)) as [Hi|Hni].
  - right. exists [], a, l, co. repeat split; [constructor | assumption..].
  - assert (Hna : no_match i h a).
    { intros co' Hco'. rewrite Ha in Hco'. injection Hco' as <-. exact Hni. }
    destruct IH as [Hall | (before & k & after & cok & -> & Hb & Hk & Hi)].
    + left. constructor; assumption.
    + right. exists (a :: before), k, after, cok.
      repeat split; [constructor|..]; assumption.
Qed.

Lemma registry_first_match i w js :
  Forall (fun j => exists cl l, clientObjs w !! j = Some cl /\
                                chain (curOps w) (_curOp cl) l) js ->
  Forall (chain_without i w) js \/
  exists pre j post cl before k after cok,
    js = pre ++ j :: post /\ Forall (chain_without i w) pre /\
    clientObjs w !! j = Some cl /\
    chain (curOps w) (_curOp cl) (before ++ k :: after) /\
    Forall (no_match i (curOps w)) before /\
    curOps w !! k = Some cok /\ opNum cok = i.
Proof.
  induction 1 as [|j js (cl & l & Hcl & Hl) _ IH]; [left; constructor|].
  destruct (chain_first_match i _ _ _ Hl)
    as [Hall | (before & k & after & cok & -> & Hb & Hk & Hi)].
  - assert (Hj : chain_without i w j) by (exists cl, l; auto).
    destruct IH as [Hrest | (pre & j' & post & cl' & before & k & after & cok
                             & -> & Hpre & H)].
    + left. constructor; assumption.
    + right. exists (j :: pre), j', post, cl', before, k, after, cok.
      split; [reflexivity|]. split; [constructor; assumption | exact H].
  - right. exists [], j, js, cl, before, k, after, cok.
    repeat split; [constructor | assumption..].
Qed.

Lemma scan_clients_not_found js : forall fuel w i,
  Forall (chain_without i w) js ->
  (size (curOps w) < fuel)%nat ->
  scan_clients fuel js i w = Returned false w.
Proof.
  induction js as [|j js IH]; intros fuel w i Hjs Hf; [reflexivity|].
  apply Forall_cons in Hjs as [(cl & l & Hcl & Hl & Hno) Hjs].
  cbn [scan_clients].
  unfold bind at 1. unfold deref_client, of_option. rewrite Hcl. unfold ret.
  pose proof (chain_length _ _ _ Hl) as Hlen.
  unfold bind at 1.
  rewrite (scan_chain_not_found l fuel fuel w j (_curOp cl) i Hl Hno) by lia.
  apply IH; assumption.
Qed.

(** X6: when no registered client has operation [i] on its chain,
    [kill(i)] changes nothing: no CurOp is marked, and the script engine
    is not told to interrupt anything. *)
Theorem kill_of_unknown_operation_changes_nothing
  (env : Env) (w : World) (i : N)
  (Hnone : Forall (chain_without i w) (clients w)) :
  KillCurrentOp_kill env i w = Returned tt w.
Proof.
  unfold KillCurrentOp_kill, bind, get.
  rewrite (scan_clients_not_found _ _ _ _ Hnone) by lia. reflexivity.
Qed.

Lemma sample_chain_without :
  Forall (chain_without 42 sample_world) (clients sample_world).
Proof.
  assert (Hno : forall a co, curOps sample_world !! a = Some co ->
                             opNum co <> 42%N).
  { intros a co H.
    assert (Hin : (a, co) ∈ map_to_list (curOps sample_world))
      by (apply elem_of_map_to_list; exact H).
    vm_compute in Hin.
    repeat (apply elem_of_cons in Hin as [Hin|Hin];
            [injection Hin as -> ->; vm_compute; discriminate|]).
    inversion Hin. }
  repeat constructor.
  - exists (mkClient None (Some 10%positive)), [10%positive].
    split; [reflexivity|]. split.
    + eapply chain_cons; [reflexivity | apply chain_nil].
    + constructor; [|constructor]. intros co. apply Hno.
  - exists (mkClient None (Some 20%positive)),
      [20%positive; 21%positive; 22%positive].
    split; [reflexivity|]. split.
    + exact sample_chain_20.
    + repeat constructor; intros co; apply Hno.
  - exists (mkClient None (Some 30%positive)), [30%positive].
    split; [reflexivity|]. split.
    + eapply chain_cons; [reflexivity | apply chain_nil].
    + constructor; [|constructor]. intros co. apply Hno.
Qed.

Lemma kill_of_unknown_operation_changes_nothing_witness :
  KillCurrentOp_kill sample_env 42 sample_world = Returned tt sample_world.
Proof.
  apply (kill_of_unknown_operation_changes_nothing sample_env sample_world 42).
  exact sample_chain_without.
Defined.

Lemma no_match_kill_all i l : forall h a,
  no_match i h a -> no_match i (kill_all l h) a.
Proof.
  induction l as [|b l IH]; intros h a H; [exact H|].
  apply IH. apply no_match_alter_kill. exact H.
Qed.

Lemma kill_all_idem l (h : gmap addr CurOp) :
  kill_all l (kill_all l h) = kill_all l h.
Proof.
  apply map_eq. intros a. rewrite !kill_all_lookup.
  destruct (decide (a ∈ l)); [|reflexivity].
  destruct (h !! a); reflexivity.
Qed.

Lemma kill_found_run env w i pre j post cl before k after cok :
  clients w = pre ++ j :: post ->
  Forall (chain_without i w) pre ->
  clientObjs w !! j = Some cl ->
  chain (curOps w) (_curOp cl) (before ++ k :: after) ->
  Forall (no_match i (curOps w)) before ->
  curOps w !! k = Some cok -> opNum cok = i ->
  KillCurrentOp_kill env i w
  = Returned tt (killed_world env i (k :: before) w).
Proof.
  intros Hreg Hpre Hj Hc Hb Hk Hi.
  unfold KillCurrentOp_kill, bind, get. rewrite Hreg.
  rewrite (scan_clients_found pre (S (size (curOps w))) w j post cl before k
             after cok i Hpre Hj Hc Hb Hk Hi) by lia.
  unfold interruptJs, killed_world.
  destruct (globalScriptEngine env); reflexivity.
Qed.

Lemma curOps_killed_world env i l w :
  curOps (killed_world env i l w) = kill_all l (curOps w).
Proof. unfold killed_world. destruct (globalScriptEngine env); reflexivity. Qed.

Lemma clients_killed_world env i l w :
  clients (killed_world env i l w) = clients w.
Proof. unfold killed_world. destruct (globalScriptEngine env); reflexivity. Qed.

Lemma clientObjs_killed_world env i l w :
  clientObjs (killed_world env i l w) = clientObjs w.
Proof. unfold killed_world. destruct (globalScriptEngine env); reflexivity. Qed.

Lemma chain_without_killed_world env i l w j :
  chain_without i w j -> chain_without i (killed_world env i l w) j.
Proof.
  intros (cl & c & Hcl & Hc & Hno). exists cl, c.
  rewrite clientObjs_killed_world, curOps_killed_world.
  split; [exact Hcl|]. split; [apply (chain_kill_all l); exact Hc|].
  eapply Forall_impl; [exact Hno|]. intros a. apply (no_match_kill_all i l).
Qed.

(** X7: on a registry whose chains end, [kill(i)] returns, whether or not
    the operation is found, and all it does to the CurOps is mark some of
    them killed: each CurOp keeps its operation number and its parent, no
    killed flag is taken back, the registry, the Clients and the Contexts
    are as before, and the chains are the same. *)
Theorem kill_only_marks_killed
  (env : Env) (w : World) (i : N) (Hwf : well_formed_registry w) :
  exists w',
    KillCurrentOp_kill env i w = Returned tt w' /\
    clients w' = clients w /\ clientObjs w' = clientObjs w /\
    contexts w' = contexts w /\
    (forall a, curOps w' !! a = curOps w !! a \/
               curOps w' !! a = CurOp_kill <$> curOps w !! a) /\
    (forall a co co',
       curOps w !! a = Some co -> curOps w' !! a = Some co' ->
       opNum co' = opNum co /\ parent co' = parent co /\
       (killed co = true -> killed co' = true)) /\
    well_formed_registry w'.
Proof.
  destruct (registry_first_match i w (clients w) Hwf)
    as [Hnone | (pre & j & post & cl & before & k & after & cok
                 & Hreg & Hpre & Hj & Hc & Hb & Hk & Hi)].
  - exists w. split; [|repeat split].
    + unfold KillCurrentOp_kill, bind, get.
      rewrite (scan_clients_not_found _ _ _ _ Hnone) by lia. reflexivity.
    + intros a. left. reflexivity.
    + congruence.
    + congruence.
    + intros Hk. congruence.
    + exact Hwf.
  - exists (killed_world env i (k :: before) w).
    split; [eapply kill_found_run; eassumption|].
    split; [apply clients_killed_world|].
    split; [apply clientObjs_killed_world|].
    split; [unfold killed_world; destruct (globalScriptEngine env); reflexivity|].
    assert (Hlk : forall a,
              curOps (killed_world env i (k :: before) w) !! a
              = curOps w !! a \/
              curOps (killed_world env i (k :: before) w) !! a
              = CurOp_kill <$> curOps w !! a).
    { intros a. rewrite curOps_killed_world, kill_all_lookup.
      destruct (decide (a ∈ k :: before)); [right | left]; reflexivity. }
    split; [exact Hlk|]. split.
    + intros a co co' Hco Hco'. destruct (Hlk a) as [H|H];
        rewrite H, Hco in Hco'; cbn in Hco'; injection Hco' as <-;
        repeat split; auto.
    + unfold well_formed_registry in *.
      rewrite clients_killed_world, clientObjs_killed_world,
        curOps_killed_world.
      eapply Forall_impl; [exact Hwf|]. cbn.
      intros j' (cl' & l' & Hcl' & Hl'). exists cl', l'.
      split; [exact Hcl' | apply (chain_kill_all (k :: before)); exact Hl'].
Qed.

Lemma sample_well_formed : well_formed_registry sample_world.
Proof.
  eapply Forall_impl; [exact sample_chain_without|].
  intros j (cl & l & Hcl & Hl & _). exists cl, l. auto.
Qed.

Lemma kill_only_marks_killed_witness :
  exists w',
    KillCurrentOp_kill sample_env 7 sample_world = Returned tt w' /\
    clients w' = clients sample_world /\
    clientObjs w' = clientObjs sample_world /\
    contexts w' = contexts sample_world /\
    (forall a, curOps w' !! a = curOps sample_world !! a \/
               curOps w' !! a = CurOp_kill <$> curOps sample_world !! a) /\
    (forall a co co',
       curOps sample_world !! a = Some co -> curOps w' !! a = Some co' ->
       opNum co' = opNum co /\ parent co' = parent co /\
       (killed co = true -> killed co' = true)) /\
    well_formed_registry w'.
Proof.
  apply (kill_only_marks_killed sample_env sample_world 7).
  exact sample_well_formed.
Defined.

(** X8: killing an operation twice is the same as killing it once: on a
    registry whose chains end, a second [kill(i)] returns and leaves every
    CurOp as the first call left it. *)
Theorem kill_twice_is_kill_once
  (env : Env) (w : World) (i : N) (Hwf : well_formed_registry w) :
  exists w1 w2,
    KillCurrentOp_kill env i w = Returned tt w1 /\
    KillCurrentOp_kill env i w1 = Returned tt w2 /\
    curOps w2 = curOps w1 /\ clients w2 = clients w1 /\
    clientObjs w2 = clientObjs w1.
Proof.
  destruct (registry_first_match i w (clients w) Hwf)
    as [Hnone | (pre & j & post & cl & before & k & after & cok
                 & Hreg & Hpre & Hj & Hc & Hb & Hk & Hi)].
  - exists w, w.
    assert (H : KillCurrentOp_kill env i w = Returned tt w).
    { unfold KillCurrentOp_kill, bind, get.
      rewrite (scan_clients_not_found _ _ _ _ Hnone) by lia. reflexivity. }
    repeat split; exact H.
  - set (w1 := killed_world env i (k :: before) w).
    exists w1, (killed_world env i (k :: before) w1).
    split; [eapply kill_found_run; eassumption|].
    split.
    + apply (kill_found_run env w1 i pre j post cl before k after
               (CurOp_kill cok)).
      * subst w1. rewrite clients_killed_world. exact Hreg.
      * eapply Forall_impl; [exact Hpre|]. intros j'.
        apply chain_without_killed_world.
      * subst w1. rewrite clientObjs_killed_world. exact Hj.
      * subst w1. rewrite curOps_killed_world.
        apply (chain_kill_all (k :: before)). exact Hc.
      * subst w1. rewrite curOps_killed_world.
        eapply Forall_impl; [exact Hb|]. intros a.
        apply (no_match_kill_all i (k :: before)).
      * subst w1. rewrite curOps_killed_world, kill_all_lookup, Hk.
        destruct (decide (k ∈ k :: before)) as [|Hn]; [reflexivity|].
        exfalso. apply Hn. left.
      * exact Hi.
    + split; [|split].
      * rewrite !curOps_killed_world. subst w1.
        rewrite curOps_killed_world. apply kill_all_idem.
      * apply clients_killed_world.
      * apply clientObjs_killed_world.
Qed.

Lemma kill_twice_is_kill_once_witness :
  exists w1 w2,
    KillCurrentOp_kill sample_env 7 sample_world = Returned tt w1 /\
    KillCurrentOp_kill sample_env 7 w1 = Returned tt w2 /\
    curOps w2 = curOps w1 /\ clients w2 = clients w1 /\
    clientObjs w2 = clientObjs w1.
Proof.
  apply (kill_twice_is_kill_once sample_env sample_world 7).
  exact sample_well_formed.
Defined.

(** ** Kill and the yield advisor *)

Lemma yield_with_message (w : World) (ops : list CurOp) (msg : string) :
  registry_ops w ops ->
  500 * Z.of_nat (length (clients w)) <= INT_MAX ->
  checkForInterruptNoAssert w = Returned msg w ->
  recommendedYieldMicros w
  = Returned (match msg with
              | String _ _ => 100
              | EmptyString =>
                  Z.min (100 * count waitingReader ops
                         + 500 * count waitingWriter ops) 1000000
              end, count waitingWriter ops, count waitingReader ops) w.
Proof.
  intros Hops Hsize Hmsg. unfold recommendedYieldMicros, bind, get.
  pose proof (Forall2_length _ _ _ Hops) as Hlen.
  pose proof (count_nonneg waitingReader ops).
  pose proof (count_nonneg waitingWriter ops).
  pose proof (count_le_length isWaitingForLock ops).
  pose proof (waiting_counts_sum ops).
  rewrite (yield_scan_counts w (clients w) ops Hops 0 0 0)
    by (unfold INT_MAX in *; lia).
  cbn [fst snd]. rewrite !Z.add_0_l, Hmsg.
  unfold int_add, int_mul.
  rewrite (wrap32_small (count waitingReader ops * 100))
    by (unfold INT_MAX in *; lia).
  rewrite (wrap32_small (count waitingWriter ops * 500))
    by (unfold INT_MAX in *; lia).
  rewrite wrap32_small by (unfold INT_MAX in *; lia).
  destruct msg; unfold ret; [do 3 f_equal; lia | reflexivity].
Qed.

Lemma registry_ops_after (w w' : World) cs ops :
  clientObjs w' = clientObjs w ->
  (forall a, curOps w' !! a = curOps w !! a \/
             curOps w' !! a = CurOp_kill <$> curOps w !! a) ->
  Forall2 (fun c co => curop_of w c = Some co) cs ops ->
  exists ops', Forall2 (fun c co => curop_of w' c = Some co) cs ops'.
Proof.
  intros Hobjs Hlk. induction 1 as [|c co cs ops Hc _ (ops' & IH)].
  - exists []. constructor.
  - assert (exists co', curop_of w' c = Some co') as [co' Hco'].
    { unfold curop_of in *. rewrite Hobjs.
      destruct (clientObjs w !! c) as [cl|]; cbn in *; [|discriminate].
      destruct (_curOp cl) as [a|]; cbn in *; [|discriminate].
      destruct (Hlk a) as [H|H]; rewrite H, Hc; cbn; eauto. }
    exists (co' :: ops'). constructor; assumption.
Qed.

(** X9: when [kill(i)] finds operation [i] on the chain of the calling
    thread's own Client, the yield advisor called next on that thread
    recommends 100 microseconds, whatever the number of waiting readers and
    writers. *)
Theorem kill_of_own_operation_shortens_yield
  (env : Env) (w : World) (i : N) (ops : list CurOp)
  (pre : list addr) (j : addr) (post : list addr) (cl : Client)
  (before : list addr) (k : addr) (after : list addr) (cok : CurOp)
  (Hreg : clients w = pre ++ j :: post)
  (Hpre : Forall (chain_without i w) pre)
  (Hcur : currentClient w = Some j)
  (Hj : clientObjs w !! j = Some cl)
  (Hchain : chain (curOps w) (_curOp cl) (before ++ k :: after))
  (Hbefore : Forall (no_match i (curOps w)) before)
  (Hk : curOps w !! k = Some cok)
  (Hi : opNum cok = i)
  (Hops : registry_ops w ops)
  (Hsize : 500 * Z.of_nat (length (clients w)) <= INT_MAX) :
  exists w' wr r,
    KillCurrentOp_kill env i w = Returned tt w' /\
    recommendedYieldMicros w' = Returned (100, wr, r) w'.
Proof.
  set (w' := killed_world env i (k :: before) w).
  assert (Hlk : forall a,
            curOps w' !! a = curOps w !! a \/
            curOps w' !! a = CurOp_kill <$> curOps w !! a).
  { intros a. subst w'. rewrite curOps_killed_world, kill_all_lookup.
    destruct (decide (a ∈ k :: before)); [right | left]; reflexivity. }
  destruct (registry_ops_after w w' (clients w) ops
              (clientObjs_killed_world _ _ _ _) Hlk Hops) as [ops' Hops'].
  assert (Hmsg : exists ch rest,
            checkForInterruptNoAssert w' = Returned (String ch rest) w').
  { unfold checkForInterruptNoAssert, bind, get.
    destruct (_globalKill w') eqn:Eg; [eexists _, _; reflexivity|].
    unfold currentClient_get, client_curop, deref_client, deref_curop,
      of_option, bind, ret.
    assert (Hcc : currentClient w' = Some j).
    { subst w'. unfold killed_world.
      destruct (globalScriptEngine env); exact Hcur. }
    rewrite Hcc. subst w'. rewrite clientObjs_killed_world, Hj.
    assert (Hhead : exists a0 co0, _curOp cl = Some a0 /\
                      a0 ∈ k :: before /\ curOps w !! a0 = Some co0).
    { destruct before as [|b before]; simpl in Hchain;
        inversion Hchain as [|a0 co0 l Ha0 Hl E1 E2]; subst.
      - exists k, co0. repeat split; [left | exact Ha0].
      - exists b, co0. repeat split; [right; left | exact Ha0]. }
    destruct Hhead as (a0 & co0 & -> & Hin & Ha0).
    rewrite curOps_killed_world, kill_all_lookup, Ha0.
    destruct (decide (a0 ∈ k :: before)); [|contradiction].
    cbn. eexists _, _. reflexivity. }
  destruct Hmsg as (ch & rest & Hmsg).
  exists w', (count waitingWriter ops'), (count waitingReader ops').
  split; [eapply kill_found_run; eassumption|].
  apply (yield_with_message w' ops' (String ch rest)).
  - unfold registry_ops. subst w'. rewrite clients_killed_world. exact Hops'.
  - subst w'. rewrite clients_killed_world. exact Hsize.
  - exact Hmsg.
Qed.

Lemma sample_chain_10 :
  chain (curOps sample_world) (Some 10%positive) ([] ++ 10%positive :: []).
Proof. eapply chain_cons; [reflexivity | apply chain_nil]. Qed.

Lemma kill_of_own_operation_shortens_yield_witness :
  exists w' wr r,
    KillCurrentOp_kill sample_env 5 sample_world = Returned tt w' /\
    recommendedYieldMicros w' = Returned (100, wr, r) w'.
Proof.
  apply (kill_of_own_operation_shortens_yield sample_env sample_world 5
           sample_ops [] 1%positive [2%positive; 3%positive]
           (mkClient None (Some 10%positive)) [] 10%positive []
           (sample_curop 5 None true false 1)).
  - reflexivity.
  - constructor.
  - reflexivity.
  - reflexivity.
  - exact sample_chain_10.
  - constructor.
  - reflexivity.
  - reflexivity.
  - exact sample_registry_ops.
  - vm_compute. discriminate.
Defined.

(** X10: [killAll()] sets the global kill flag and leaves every CurOp, its
    killed flag included, as it was; the script engine, when there is one,
    is told to interrupt everything; and from then on the yield advisor
    recommends 100 microseconds on every thread. *)
Theorem killAll_flags_globally_not_per_operation
  (env : Env) (w : World) (ops : list CurOp)
  (Hops : registry_ops w ops)
  (Hsize : 500 * Z.of_nat (length (clients w)) <= INT_MAX) :
  exists w',
    killAll env w = Returned tt w' /\
    _globalKill w' = true /\ curOps w' = curOps w /\
    clientObjs w' = clientObjs w /\
    log w' = log w ++ (if globalScriptEngine env
                       then [EvInterruptJs None] else []) /\
    recommendedYieldMicros w'
    = Returned (100, count waitingWriter ops, count waitingReader ops) w'.
Proof.
  unfold killAll, bind, modify, interruptJs.
  destruct (globalScriptEngine env); cbn.
  - eexists. split; [reflexivity|]. repeat split.
    apply (yield_with_message _ ops "interrupted at shutdown");
      [exact Hops | exact Hsize | reflexivity].
  - eexists. split; [reflexivity|]. repeat split.
    + cbn. rewrite app_nil_r. reflexivity.
    + apply (yield_with_message _ ops "interrupted at shutdown");
        [exact Hops | exact Hsize | reflexivity].
Qed.

Lemma killAll_flags_globally_not_per_operation_witness :
  exists w',
    killAll sample_env sample_world = Returned tt w' /\
    _globalKill w' = true /\ curOps w' = curOps sample_world /\
    clientObjs w' = clientObjs sample_world /\
    log w' = log sample_world ++ [EvInterruptJs None] /\
    recommendedYieldMicros w' = Returned (100, 1, 1) w'.
Proof.
  apply (killAll_flags_globally_not_per_operation sample_env sample_world
           sample_ops).
  - exact sample_registry_ops.
  - vm_compute. discriminate.
Defined.

End ClientLifeFacts.

Module NamespaceFacts.
Import ClientCpp ClientLife.

#[local] Arguments String.append !_ _ : simpl nomatch.

Lemma prefix_app (t s : string) :
  String.prefix t s = true <-> exists rest, s = t +:+ rest.
Proof.
  revert s. induction t as [|ch t IH]; intros s.
  - split; [intros _; exists s; reflexivity | intros _; destruct s; reflexivity].
  - destruct s as [|ch' s]; cbn.
    + split; [discriminate | intros [rest H]; discriminate].
    + destruct (Ascii.ascii_dec ch ch') as [Heq|Hne].
      * rewrite IH. split; intros [rest H]; exists rest.
        -- subst. reflexivity.
        -- cbn in H. injection H as _ H. exact H.
      * split; [discriminate|]. intros [rest H]. cbn in H.
        injection H as H _. congruence.
Qed.

Lemma string_find_start (s t : string) :
  string_find s t = Some 0%nat <-> String.prefix t s = true.
Proof.
  destruct s as [|ch s]; cbn [string_find];
    destruct (String.prefix t _) eqn:E; split; try reflexivity;
    try discriminate.
  destruct (string_find s t); discriminate.
Qed.

Lemma get_app_length (pre rest : string) :
  String.get (String.length pre) (pre +:+ rest) = String.get 0 rest.
Proof. induction pre as [|ch pre IH]; [reflexivity | exact IH]. Qed.

Lemma get_split (s : string) : forall n ch,
  String.get n s = Some ch <->
  exists pre rest, String.length pre = n /\ s = pre +:+ String ch rest.
Proof.
  induction s as [|c0 s IH]; intros n ch.
  - split; [destruct n; discriminate|].
    intros (pre & rest & _ & H). destruct pre; discriminate.
  - destruct n as [|n]; cbn [String.get].
    + split.
      * intros [= ->]. exists EmptyString, s. split; reflexivity.
      * intros (pre & rest & Hlen & H). destruct pre; [|discriminate].
        cbn in H. injection H as -> _. reflexivity.
    + rewrite IH. split.
      * intros (pre & rest & <- & ->). exists (String c0 pre), rest.
        split; reflexivity.
      * intros (pre & rest & Hlen & H). destruct pre as [|c1 pre];
          [discriminate|]. cbn in H, Hlen. injection H as -> ->.
        exists pre, rest. split; [lia | reflexivity].
Qed.

Lemma char_at_dot (s : string) (n : nat) :
  Ascii.eqb (char_at s n) "."%char = true <->
  String.get n s = Some "."%char.
Proof.
  unfold char_at. destruct (String.get n s) as [ch|].
  - rewrite Ascii.eqb_eq. split; congruence.
  - split; discriminate.
Qed.

Lemma length_append (a b : string) :
  String.length (a +:+ b) = (String.length a + String.length b)%nat.
Proof. induction a as [|ch a IH]; simpl; congruence. Qed.

(** X11: [subcollectionOf(parent, child)] holds exactly when [child] is
    [parent] itself or has a dot right after as many characters as
    [parent] has: the characters before the dot are not compared with
    [parent]. *)
Theorem subcollectionOf_tests_only_the_dot (parent child : string) :
  subcollectionOf parent child = true <->
  child = parent \/
  exists pre rest,
    String.length pre = String.length parent /\
    child = pre +:+ "." +:+ rest.
Proof.
  unfold subcollectionOf. rewrite orb_true_iff, andb_true_iff.
  rewrite String.eqb_eq, char_at_dot, get_split, Nat.ltb_lt.
  split.
  - intros [->|[_ H]]; [left; reflexivity | right; exact H].
  - intros [->|(pre & rest & Hlen & ->)]; [left; reflexivity | right].
    split; [|exists pre, rest; split; [exact Hlen | reflexivity]].
    rewrite length_append, Hlen. cbn. lia.
Qed.

(** X12: a Context is in database [db] under [path] exactly when its path
    is [path] and its namespace is [db] itself or [db] followed by a dot
    and more. *)
Theorem inDB_iff_path_and_database_prefix
  (self : Context) (db path : string) :
  inDB self db path = true <->
  _path self = path /\
  (ctx_ns self = db \/ exists rest, ctx_ns self = db +:+ "." +:+ rest).
Proof.
  unfold inDB.
  destruct (String.eqb (_path self) path) eqn:Ep; cbn [negb].
  - apply String.eqb_eq in Ep.
    destruct (String.eqb db (ctx_ns self)) eqn:Ed.
    + apply String.eqb_eq in Ed. split; [auto | reflexivity].
    + apply String.eqb_neq in Ed.
      destruct (string_find (ctx_ns self) db) as [[|n]|] eqn:Ef.
      * apply string_find_start, prefix_app in Ef as [rest Hrest].
        rewrite char_at_dot, Hrest, get_app_length. split.
        -- destruct rest as [|ch rest]; [discriminate|]. cbn.
           intros [= ->]. split; [exact Ep|]. right. exists rest. reflexivity.
        -- intros [_ [H|[rest' H]]]; [congruence|].
           clear -H.
           assert (rest = "." +:+ rest') as ->; [|reflexivity].
           induction db as [|ch db IH]; cbn in H; [exact H|].
           injection H as H. auto.
      * split; [discriminate|]. intros [_ [H|[rest H]]]; [congruence|].
        assert (string_find (ctx_ns self) db = Some 0%nat); [|congruence].
        apply string_find_start, prefix_app. eauto.
      * split; [discriminate|]. intros [_ [H|[rest H]]]; [congruence|].
        assert (string_find (ctx_ns self) db = Some 0%nat); [|congruence].
        apply string_find_start, prefix_app. eauto.
  - apply String.eqb_neq in Ep. split; [discriminate | intros [H _]; contradiction].
Qed.

End NamespaceFacts.

Module LifeFacts.
Import ClientCpp ClientFacts ClientLife.

(** ** The end of a CurOp *)

Lemma chain_delete (h : gmap addr CurOp) a p l :
  chain h p l -> a ∉ l -> chain (delete a h) p l.
Proof.
  induction 1 as [|b co l Hb _ IH]; intros Hnot; [constructor|].
  apply not_elem_of_cons in Hnot as [Hne Hnot].
  apply (chain_cons _ b co); [|apply IH; exact Hnot].
  rewrite lookup_delete_ne by congruence. exact Hb.
Qed.

(** X13: destroying the current CurOp [a] of a Client whose chain is
    [a :: l] removes it; when it wraps a parent [p], the Client's current
    CurOp becomes [p] and the Client's chain is [l]; the Client's Context
    is not touched.  When it wraps nothing, the Client is left pointing at
    the destroyed CurOp. *)
Theorem CurOp_dtor_pops_the_chain
  (w : World) (c : addr) (cl : Client) (a : addr) (l : list addr)
  (Hcl : clientObjs w !! c = Some cl)
  (Ha : _curOp cl = Some a)
  (Hchain : chain (curOps w) (Some a) (a :: l)) :
  exists w',
    CurOp_dtor a c w = Returned tt w' /\
    curOps w' = delete a (curOps w) /\
    (l = [] -> clientObjs w' = clientObjs w /\
               curop_of w' c = None) /\
    (forall p l', l = p :: l' ->
       clientObjs w' = <[c := mkClient (_context cl) (Some p)]> (clientObjs w) /\
       chain (curOps w') (Some p) l).
Proof.
  pose proof (chain_NoDup _ _ _ Hchain) as Hnd.
  apply NoDup_cons in Hnd as [Hnotin _].
  inversion Hchain as [|a' co l0 Hco Hl]; subst.
  unfold CurOp_dtor, bind, deref_curop, of_option. rewrite Hco. unfold ret.
  destruct l as [|p l'].
  - inversion Hl as [E|]. unfold parent in E. rewrite <- E.
    eexists. split; [reflexivity|]. cbn. split; [reflexivity|].
    split; [|intros p l' [=]].
    intros _. split; [reflexivity|].
    unfold curop_of. cbn. rewrite Hcl. cbn. rewrite Ha. cbn.
    apply lookup_delete_eq.
  - inversion Hl as [|p' cop l0 Hcop Hl' E1 E2]. subst p'.
    unfold parent in E1. rewrite <- E1.
    unfold store_client_curop, bind, deref_client, of_option. rewrite Hcl.
    unfold ret, modify. eexists. split; [reflexivity|]. cbn.
    split; [reflexivity|]. split; [intros [=]|].
    intros p0 l0' [= <- <-]. split; [reflexivity|].
    apply chain_delete; [|exact Hnotin].
    econstructor; eassumption.
Qed.

Lemma CurOp_dtor_pops_the_chain_witness :
  exists w',
    CurOp_dtor 20%positive 2%positive sample_world = Returned tt w' /\
    curOps w' = delete 20%positive (curOps sample_world) /\
    ([21%positive; 22%positive] = [] ->
     clientObjs w' = clientObjs sample_world /\
     curop_of w' 2%positive = None) /\
    (forall p l', [21%positive; 22%positive] = p :: l' ->
       clientObjs w'
       = <[2%positive := mkClient None (Some p)]> (clientObjs sample_world) /\
       chain (curOps w') (Some p) [21%positive; 22%positive]).
Proof.
  apply (CurOp_dtor_pops_the_chain sample_world 2%positive
           (mkClient None (Some 20%positive)) 20%positive
           [21%positive; 22%positive]).
  - reflexivity.
  - reflexivity.
  - exact sample_chain_20.
Defined.

(** ** The life of a Client *)

Lemma elem_of_set_insert (x j : addr) (l : list addr) :
  j ∈ set_insert x l <-> j = x \/ j ∈ l.
Proof.
  induction l as [|y l IH]; cbn.
  - rewrite elem_of_cons, elem_of_nil. tauto.
  - destruct (Pos.ltb_spec x y) as [_|_].
    + rewrite elem_of_cons. tauto.
    + destruct (Pos.eqb_spec x y) as [->|_].
      * rewrite elem_of_cons. tauto.
      * rewrite !elem_of_cons, IH. tauto.
Qed.

Lemma elem_of_set_erase (x j : addr) (l : list addr) :
  j ∈ set_erase x l <-> j <> x /\ j ∈ l.
Proof.
  unfold set_erase. rewrite !list_elem_of_In, filter_In.
  destruct (Pos.eqb_spec x j) as [->|Hne]; cbn; intuition congruence.
Qed.

Lemma set_erase_absent (x : addr) (l : list addr) :
  x ∉ l -> set_erase x l = l.
Proof.
  induction l as [|y l IH]; intros Hnot; [reflexivity|].
  apply not_elem_of_cons in Hnot as [Hne Hnot]. cbn.
  destruct (Pos.eqb_spec x y) as [->|_]; [congruence|]. cbn.
  f_equal. apply IH, Hnot.
Qed.


Lemma set_erase_insert (x : addr) (l : list addr) :
  x ∉ l -> set_erase x (set_insert x l) = l.
Proof.
  induction l as [|y l IH]; intros Hnot; cbn.
  - rewrite Pos.eqb_refl. reflexivity.
  - apply not_elem_of_cons in Hnot as [Hne Hnot].
    destruct (Pos.ltb_spec x y) as [_|_].
    + cbn. rewrite Pos.eqb_refl. cbn.
      destruct (Pos.eqb_spec x y) as [->|_]; [congruence|]. cbn.
      f_equal. apply set_erase_absent, Hnot.
    + destruct (Pos.eqb_spec x y) as [->|_]; [congruence|]. cbn.
      destruct (Pos.eqb_spec x y) as [->|_]; [congruence|]. cbn.
      f_equal. apply IH, Hnot.
Qed.

(** X14: when [initThread] returns, it returns the new Client, which is
    the thread's current Client, has no Context, the new CurOp, and is not
    shut down; the registry holds it and what it held before.  A second
    [initThread] on that thread fails its assertion and changes nothing. *)
Theorem initThread_registers_the_new_client
  (c a : addr) (co0 : CurOp) (s : Server) (c' : addr) (s' : Server)
  (Hrun : initThread c a co0 s = Ok c' s') :
  c' = c /\
  currentClient (world s') = Some c /\
  (forall j, j ∈ clients (world s') <-> j = c \/ j ∈ clients (world s)) /\
  clientObjs (world s') !! c = Some (mkClient None (Some a)) /\
  curop_of (world s') c = Some co0 /\
  _shutdown s' !! c = Some false /\
  (forall c2 a2 co2,
     initThread c2 a2 co2 s' = Asserted "currentClient.get() == 0" s').
Proof.
  unfold initThread in Hrun.
  destruct (currentClient (world s)) eqn:Hcur; [discriminate|].
  destruct (bool_decide _ || bool_decide _); [discriminate|].
  injection Hrun as <- <-. cbn.
  split; [reflexivity|]. split; [reflexivity|].
  split; [intros j; apply elem_of_set_insert|].
  split; [apply lookup_insert_eq|].
  split.
  { unfold curop_of. cbn. rewrite lookup_insert_eq. cbn.
    apply lookup_insert_eq. }
  split; [apply lookup_insert_eq|].
  intros c2 a2 co2. reflexivity.
Qed.

Lemma initThread_registers_the_new_client_witness :
  let s := mkServer (set_currentClient None sample_world) ∅ None false in
  let s' := set_world (set_currentClient (Some 4%positive))
              (Client_ctor 4%positive 40%positive (sample_curop 11 None false false 0) s) in
  4%positive = 4%positive /\
  currentClient (world s') = Some 4%positive /\
  (forall j, j ∈ clients (world s')
             <-> j = 4%positive \/ j ∈ clients (world s)) /\
  clientObjs (world s') !! 4%positive
  = Some (mkClient None (Some 40%positive)) /\
  curop_of (world s') 4%positive = Some (sample_curop 11 None false false 0) /\
  _shutdown s' !! 4%positive = Some false /\
  (forall c2 a2 co2,
     initThread c2 a2 co2 s' = Asserted "currentClient.get() == 0" s').
Proof.
  intros s s'.
  apply (initThread_registers_the_new_client
           4%positive 40%positive (sample_curop 11 None false false 0) s).
  reflexivity.
Defined.



(** X16: when [~Client] completes, the Client object is gone.  It logs
    nothing exactly when the Client had no Context and [shutdown()] had
    been called.  Outside server shutdown a Client that was never shut
    down leaves the registry, and the current CurOp, if there is one, was
    not a wrapping one and is gone too; a Client that was shut down
    leaves the registry as it is.  During server shutdown neither the
    registry nor any CurOp is touched. *)
Theorem Client_dtor_cleans_up_outside_shutdown
  (this : addr) (desc : string) (s : Server)
  (errs : list string) (s' : Server)
  (Hrun : Client_dtor this desc s = Ok errs s') :
  exists cl down,
    clientObjs (world s) !! this = Some cl /\
    _shutdown s !! this = Some down /\
    clientObjs (world s') !! this = None /\
    (errs = [] <-> _context cl = None /\ down = true) /\
    (inShutdown s = false -> down = false ->
       forall j, j ∈ clients (world s')
                 <-> j <> this /\ j ∈ clients (world s)) /\
    (inShutdown s = false ->
       forall a, _curOp cl = Some a ->
         curOps (world s') = delete a (curOps (world s)) /\
         exists co, curOps (world s) !! a = Some co /\ _wrapped co = None) /\
    (down = true -> clients (world s') = clients (world s)) /\
    (inShutdown s = true ->
       clients (world s') = clients (world s) /\
       curOps (world s') = curOps (world s)).
Proof.
  unfold Client_dtor in Hrun.
  destruct (clientObjs (world s) !! this) as [cl|] eqn:Hcl; [|discriminate].
  destruct (_shutdown s !! this) as [down|] eqn:Hdown; [|discriminate].
  exists cl, down. split; [reflexivity|]. split; [reflexivity|].
  assert (Herrs :
    forall e,
      e = (if bool_decide (is_Some (_context cl))
           then ["Client::~Client _context should be null but is not; client:"
                 +:+ desc]
           else [])
          ++ (if negb down then ["Client::shutdown not called: " +:+ desc]
              else []) ->
      e = [] <-> _context cl = None /\ down = true).
  { intros e ->. destruct (_context cl) as [k|], down; cbn;
      try case_bool_decide; cbn; split;
      try discriminate; try (intros [? ?]; discriminate);
      try tauto.
    all: try (exfalso; match goal with H : ~ is_Some _ |- _ =>
                                         apply H; eauto end).
    all: try (match goal with H : is_Some None |- _ =>
                                destruct H; discriminate end). }
  destruct (inShutdown s) eqn:Hin; cbn in Hrun.
  - injection Hrun as <- <-. cbn.
    split; [apply lookup_delete_eq|].
    split; [apply Herrs; reflexivity|].
    split; [discriminate|]. split; [discriminate|].
    split; [reflexivity|]. intros _. split; reflexivity.
  - destruct (_curOp cl) as [a|] eqn:Ha.
    + assert (Hsame : curOps (if negb down
                              then set_clients (set_erase this) (world s)
                              else world s) = curOps (world s))
        by (destruct down; reflexivity).
      rewrite Hsame in Hrun.
      destruct (curOps (world s) !! a) as [co|] eqn:Hco; [|discriminate].
      destruct (bool_decide (is_Some (_wrapped co))) eqn:Hw; [discriminate|].
      apply bool_decide_eq_false in Hw.
      injection Hrun as <- <-. cbn.
      split; [apply lookup_delete_eq|].
      split; [apply Herrs; reflexivity|].
      split.
      { intros _ ->. cbn. intros j. apply elem_of_set_erase. }
      split.
      { intros _ a' [= <-]. rewrite Hsame. split; [reflexivity|].
        exists co. split; [exact Hco|].
        destruct (_wrapped co); [exfalso; apply Hw; eauto|reflexivity]. }
      split; [intros ->; reflexivity|discriminate].
    + injection Hrun as <- <-. cbn.
      split; [apply lookup_delete_eq|].
      split; [apply Herrs; reflexivity|].
      split.
      { intros _ ->. cbn. intros j. apply elem_of_set_erase. }
      split; [intros _ a' [=]|].
      split; [intros ->; reflexivity|discriminate].
Qed.

Lemma Client_dtor_cleans_up_outside_shutdown_witness :
  let s := mkServer sample_world {[ 1%positive := false ]} None false in
  let errs := ["Client::shutdown not called: conn"] in
  let s' := mkServer
              (set_clientObjs (delete 1%positive)
                 (set_curOps (delete 10%positive)
                    (set_clients (set_erase 1%positive) sample_world)))
              ∅ None false in
  exists cl down,
    clientObjs (world s) !! 1%positive = Some cl /\
    _shutdown s !! 1%positive = Some down /\
    clientObjs (world s') !! 1%positive = None /\
    (errs = [] <-> _context cl = None /\ down = true) /\
    (inShutdown s = false -> down = false ->
       forall j, j ∈ clients (world s')
                 <-> j <> 1%positive /\ j ∈ clients (world s)) /\
    (inShutdown s = false ->
       forall a, _curOp cl = Some a ->
         curOps (world s') = delete a (curOps (world s)) /\
         exists co, curOps (world s) !! a = Some co /\ _wrapped co = None) /\
    (down = true -> clients (world s') = clients (world s)) /\
    (inShutdown s = true ->
       clients (world s') = clients (world s) /\
       curOps (world s') = curOps (world s)).
Proof.
  intros s errs s'.
  apply (Client_dtor_cleans_up_outside_shutdown 1%positive "conn" s).
  reflexivity.
Defined.

(** X17: a whole life outside server shutdown.  After [initThread],
    [shutdown()] and [~Client], in this order, nothing is logged and the
    registry, the Client objects and the CurOps are what they were before
    the thread started. *)
Theorem client_life_leaves_no_trace
  (c a : addr) (co0 : CurOp) (desc : string) (s s1 : Server)
  (Hinit : initThread c a co0 s = Ok c s1)
  (Hup : inShutdown s = false)
  (Hnew : c ∉ clients (world s))
  (Hroot : _wrapped co0 = None) :
  exists s2 s3,
    shutdown c s1 = Ok false s2 /\
    Client_dtor c desc s2 = Ok [] s3 /\
    clients (world s3) = clients (world s) /\
    clientObjs (world s3) = clientObjs (world s) /\
    curOps (world s3) = curOps (world s).
Proof.
  unfold initThread in Hinit.
  destruct (currentClient (world s)) eqn:Hcur; [discriminate|].
  destruct (bool_decide (is_Some (clientObjs (world s) !! c))) eqn:Hc;
    [discriminate|].
  destruct (bool_decide (is_Some (curOps (world s) !! a))) eqn:Hca;
    [discriminate|].
  apply bool_decide_eq_false in Hc, Hca.
  assert (Hc' : clientObjs (world s) !! c = None)
    by (destruct (clientObjs (world s) !! c); [exfalso; eauto|reflexivity]).
  assert (Ha' : curOps (world s) !! a = None)
    by (destruct (curOps (world s) !! a); [exfalso; eauto|reflexivity]).
  cbn in Hinit. injection Hinit as <-.
  unfold shutdown. cbn. rewrite lookup_insert_eq, Hup.
  eexists. eexists. split; [reflexivity|].
  unfold Client_dtor. cbn. rewrite !lookup_insert_eq. cbn.
  rewrite lookup_insert_eq, Hroot. cbn.
  split; [reflexivity|]. cbn.
  split; [apply set_erase_insert, Hnew|].
  split.
  - rewrite delete_insert_eq. apply delete_id, Hc'.
  - rewrite delete_insert_eq. apply delete_id, Ha'.
Qed.

Lemma client_life_leaves_no_trace_witness :
  let s := mkServer (set_currentClient None sample_world) ∅ None false in
  let s1 := set_world (set_currentClient (Some 4%positive))
              (Client_ctor 4%positive 40%positive (sample_curop 11 None false false 0) s) in
  exists s2 s3,
    shutdown 4%positive s1 = Ok false s2 /\
    Client_dtor 4%positive "conn" s2 = Ok [] s3 /\
    clients (world s3) = clients (world s) /\
    clientObjs (world s3) = clientObjs (world s) /\
    curOps (world s3) = curOps (world s).
Proof.
  intros s s1.
  apply (client_life_leaves_no_trace 4%positive 40%positive
           (sample_curop 11 None false false 0) "conn" s s1).
  - reflexivity.
  - reflexivity.
  - cbn. rewrite !elem_of_cons, elem_of_nil. intuition discriminate.
  - reflexivity.
Defined.

End LifeFacts.

Module ContextFacts.
Import ClientCpp ClientFacts ClientLife.

Lemma top_records_app l1 l2 :
  top_records (l1 ++ l2) = top_records l1 ++ top_records l2.
Proof. apply flat_map_app. Qed.

Lemma Context_ctor_shape env now this args w c cl :
  currentClient w = Some c -> clientObjs w !! c = Some cl ->
  match Context_ctor env now this args w with
  | Returned _ w1 =>
      exists C,
        contexts w1 = <[this := C]> (contexts w) /\
        clientObjs w1
        = <[c := mkClient (Some this) (_curOp cl)]> (clientObjs w) /\
        _client C = c /\ _oldContext C = _context cl /\
        ctx_ns C = args_ns args /\
        top_records (log w1) = top_records (log w) /\
        currentClient w1 = currentClient w /\ clients w1 = clients w /\
        (calls_enter args = false -> curOps w1 = curOps w) /\
        (calls_enter args = true ->
         exists a co, _curOp cl = Some a /\ curOps w !! a = Some co /\
           curOps w1 = <[a := CurOp_enter now C co]> (curOps w))
  | _ => True
  end.
Proof.
  intros Hc Hcl.
  destruct args; cbn [Context_ctor]; unfold_ctor; cbn;
    rewrite Hc; cbn; rewrite Hcl; cbn.
  all: repeat (run_step; cbn; rewrite ?lookup_insert_eq; cbn; rewrite ?Hcl; cbn).
  all: try exact I.
  all: repeat match goal with
              | H : <[_:=_]> _ !! _ = _ |- _ => rewrite lookup_insert_eq in H
              end.
  all: simplify_eq; cbn in *; simplify_eq.
  all: eexists; cbn.
  all: rewrite ?top_records_app; cbn; rewrite ?app_nil_r.
  all: rewrite ?insert_insert_eq.
  all: repeat split; try reflexivity; try discriminate.
  all: try (intros _; eexists _, _; repeat split; try reflexivity; try eassumption).
  all: congruence.
Qed.


(** ** What never touches the locks *)

Lemma ln_ret {A} (a : A) : lock_neutral (ret a).
Proof. intros w. reflexivity. Qed.

Lemma ln_throw {A} e : lock_neutral (@throw A e).
Proof. intros w. reflexivity. Qed.

Lemma ln_undefined {A} : lock_neutral (@undefined A).
Proof. intros w. exact I. Qed.

Lemma ln_bind {A B} (m : M A) (k : A -> M B) :
  lock_neutral m -> (forall a, lock_neutral (k a)) -> lock_neutral (bind m k).
Proof.
  intros Hm Hk w. unfold bind. specialize (Hm w).
  destruct (m w) as [a w1|e w1| |]; try exact Hm; try exact I.
  specialize (Hk a w1). destruct (k a w1); try exact I; congruence.
Qed.

Lemma ln_modify (f : World -> World) :
  (forall w, dbMutexState (f w) = dbMutexState w) -> lock_neutral (modify f).
Proof. intros Hf w. apply Hf. Qed.

Lemma ln_of_option {A} (f : World -> option A) :
  lock_neutral (fun w => of_option (f w) w).
Proof. intros w. destruct (f w); [reflexivity|exact I]. Qed.

Lemma ln_of_option' {A} (o : option A) : lock_neutral (of_option o).
Proof. intros w. destruct o; [reflexivity|exact I]. Qed.

Lemma ln_assert b expr : lock_neutral (assert b expr).
Proof. intros w. destruct b; reflexivity. Qed.

Lemma ln_getState : lock_neutral getState.
Proof. intros w. reflexivity. Qed.

Ltac ln_step :=
  first
    [ apply ln_bind; [|intros ?]
    | apply ln_ret | apply ln_throw | apply ln_undefined | apply ln_assert
    | apply ln_getState | apply ln_of_option' | apply ln_of_option
    | apply ln_modify; intros ?; reflexivity
    | match goal with
      | |- lock_neutral (if ?b then _ else _) => destruct b
      | |- lock_neutral (match ?x with _ => _ end) => destruct x
      | |- lock_neutral (let '(_, _) := ?x in _) => destruct x
      end ].

Ltac ln_solve :=
  unfold Context_ns_db, Context_ns_path, Context_path_ns_db, _finishInit,
    Context_dtor, client_leave,
    constructed, checkLocks, checkNotStale, _auth, client_enter,
    clientAddress, store_client_context, client_curop, dbHolder_getOrCreate,
    dbHolder_get, currentClient_get, deref_client, deref_curop,
    deref_context, emit;
  repeat ln_step.

Lemma ln_Context_ctor env now this args :
  lock_neutral (Context_ctor env now this args).
Proof. destruct args; cbn [Context_ctor]; ln_solve. Qed.

Lemma ln_Context_dtor now this : lock_neutral (Context_dtor now this).
Proof. ln_solve. Qed.

(** ** Constructions that fail at once *)

(** X18: a construction whose precondition fails throws the assertion
    before anything is changed: [_finishInit] with no lock held, the
    constructor invoked from ReadContext without a database, and the
    constructor over a database handle whose database is not ok. *)
Theorem failed_precondition_changes_nothing
  (env : Env) (now : positive) (this : addr) (w : World)
  (c : addr) (cl : Client)
  (Hc : currentClient w = Some c)
  (Hcl : clientObjs w !! c = Some cl) :
  (forall ns path doauth,
     dbMutexState w = 0 ->
     Context_ns_path env now this ns path doauth w
     = Threw (AssertionException "lockState") w) /\
  (forall path ns doauth,
     Context_path_ns_db env now this path ns None doauth w
     = Threw (AssertionException "_db") w) /\
  (forall ns d doauth,
     isOk d = false ->
     Context_ns_db env this ns (Some d) doauth w
     = Threw (AssertionException "db == 0 || db->isOk()") w).
Proof.
  split; [|split].
  - intros ns path doauth Hs. unfold_ctor. cbn. rewrite Hc. cbn.
    rewrite Hcl. cbn. rewrite Hs. reflexivity.
  - intros path ns doauth. unfold_ctor. cbn. rewrite Hc. cbn.
    rewrite Hcl. reflexivity.
  - intros ns d doauth Hok. unfold_ctor. cbn. rewrite Hc. cbn.
    rewrite Hcl. cbn. rewrite Hok. reflexivity.
Qed.

Lemma failed_precondition_changes_nothing_witness :
  (forall ns path doauth,
     dbMutexState sample_world = 0 ->
     Context_ns_path sample_env 1%positive 50%positive ns path doauth sample_world
     = Threw (AssertionException "lockState") sample_world) /\
  (forall path ns doauth,
     Context_path_ns_db sample_env 1%positive 50%positive path ns None doauth sample_world
     = Threw (AssertionException "_db") sample_world) /\
  (forall ns d doauth,
     isOk d = false ->
     Context_ns_db sample_env 50%positive ns (Some d) doauth sample_world
     = Threw (AssertionException "db == 0 || db->isOk()") sample_world).
Proof.
  apply (failed_precondition_changes_nothing sample_env 1%positive 50%positive sample_world
           1%positive (mkClient None (Some 10%positive))).
  - reflexivity.
  - reflexivity.
Defined.



(** X20: [_finishInit] creates a missing database before it checks
    anything else about the request, and only under a write lock.  Under
    a write lock with room on the disk, the database of the namespace is
    in the holder afterwards, open and with the default profile, and its
    creation is in the log, whether the construction returns or throws.
    Under a read lock the construction throws and nothing is changed. *)
Theorem finishInit_creates_database_even_when_it_fails
  (env : Env) (now : positive) (this : addr) (ns path : string)
  (doauth : bool) (w : World) (c : addr) (cl : Client)
  (Hc : currentClient w = Some c)
  (Hcl : clientObjs w !! c = Some cl)
  (Hmissing : dbHolder w !! (path, nsToDatabase ns) = None) :
  (0 < dbMutexState w -> fileAllocatorHasFailed env = false ->
   match Context_ns_path env now this ns path doauth w with
   | Returned _ w' | Threw _ w' =>
       dbHolder w' !! (path, nsToDatabase ns)
       = Some (mkDatabase (nsToDatabase ns) (defaultProfile env) true) /\
       EvDbCreated path (nsToDatabase ns) ∈ log w'
   | _ => True
   end) /\
  (dbMutexState w < 0 ->
   Context_ns_path env now this ns path doauth w
   = Threw (DatabaseNotOpened path (nsToDatabase ns)) w).
Proof.
  split.
  - intros Hs Hroom.
    unfold_ctor; cbn. rewrite Hc. cbn. rewrite Hcl. cbn.
    replace (dbMutexState w =? 0) with false by lia.
    replace (0 <? dbMutexState w) with true by lia.
    rewrite Hroom. cbn. rewrite Hmissing. cbn.
    replace (0 <? dbMutexState w) with true by lia. cbn.
    repeat (run_step; cbn; rewrite ?lookup_insert_eq; cbn; rewrite ?Hcl; cbn).
    all: try exact I.
    all: rewrite ?lookup_insert_eq.
    all: (split; [reflexivity|]).
    all: apply list_elem_of_In; rewrite ?in_app_iff; cbn; tauto.
  - intros Hs. apply (Context_ns_path_not_opened _ _ _ _ _ _ _ c cl);
      assumption.
Qed.

Lemma finishInit_creates_database_even_when_it_fails_witness :
  let w := set_dbMutexState 1 sample_world in
  (0 < dbMutexState w -> fileAllocatorHasFailed deny_env = false ->
   match Context_ns_path deny_env 1%positive 50%positive
           "test.foo" "/data/db" true w with
   | Returned _ w' | Threw _ w' =>
       dbHolder w' !! ("/data/db", nsToDatabase "test.foo")
       = Some (mkDatabase (nsToDatabase "test.foo")
                          (defaultProfile deny_env) true) /\
       EvDbCreated "/data/db" (nsToDatabase "test.foo") ∈ log w'
   | _ => True
   end) /\
  (dbMutexState w < 0 ->
   Context_ns_path deny_env 1%positive 50%positive "test.foo" "/data/db"
                   true w
   = Threw (DatabaseNotOpened "/data/db" (nsToDatabase "test.foo")) w).
Proof.
  intros w.
  apply (finishInit_creates_database_even_when_it_fails deny_env 1%positive
           50%positive "test.foo" "/data/db" true w 1%positive
           (mkClient None (Some 10%positive))).
  - reflexivity.
  - reflexivity.
  - reflexivity.
Defined.

(** X21: the cleanup before the authorization failure is little indeed:
    it puts the Client's Context back and nothing else.  After
    [_finishInit] has refused an unauthorized request on a database that
    is there or that it could create, the current operation is still
    entered on the refused namespace: started, with that namespace and
    the profile of its database. *)
Theorem unauthorized_finishInit_leaves_operation_entered
  (env : Env) (now : positive) (this : addr) (ns path : string)
  (w : World) (c : addr) (cl : Client) (a : addr) (co : CurOp)
  (Hc : currentClient w = Some c)
  (Hcl : clientObjs w !! c = Some cl)
  (Ha : _curOp cl = Some a)
  (Hco : curOps w !! a = Some co)
  (Hlocked : dbMutexState w <> 0)
  (Hdisk : (0 <? dbMutexState w) && fileAllocatorHasFailed env = false)
  (Hopens : opens w ns path = true)
  (Hfresh : exempt (getOp co) || fst (shardVersionOk env ns) = true)
  (Hunauth : isAuthorizedForLock env (name (resolved_db env w ns path))
                                 (dbMutexState w) = false) :
  exists msg w' co',
    Context_ns_path env now this ns path true w
    = Threw (UserException 10057 msg) w' /\
    curOps w' !! a = Some co' /\
    started co' = true /\
    _ns co' = ns /\
    _dbprofile co' = profile (resolved_db env w ns path) /\
    _opNum co' = _opNum co.
Proof.
  apply Z.eqb_neq in Hlocked.
  rewrite (Context_ns_path_outcome _ _ _ _ _ _ _ _ _ _ _ Hc Hcl Ha Hco
             Hlocked Hdisk Hopens).
  cbn zeta. unfold fresh, permitted. rewrite Hfresh, Hunauth. cbn.
  eexists _, _, _. split; [reflexivity|].
  unfold entered_only. cbn. rewrite lookup_insert_eq.
  split; [reflexivity|]. split; [apply started_enter|].
  unfold CurOp_enter, ensureStarted. destruct (_start co =? 0); repeat split.
Qed.

Lemma unauthorized_finishInit_leaves_operation_entered_witness :
  let w := set_dbMutexState 1 sample_world in
  exists msg w' co',
    Context_ns_path deny_env 1%positive 50%positive "test.foo" "/data/db"
                    true w
    = Threw (UserException 10057 msg) w' /\
    curOps w' !! 10%positive = Some co' /\
    started co' = true /\
    _ns co' = "test.foo" /\
    _dbprofile co' = profile (resolved_db deny_env w "test.foo" "/data/db") /\
    _opNum co' = _opNum (sample_curop 5 None true false 1).
Proof.
  intros w.
  apply (unauthorized_finishInit_leaves_operation_entered deny_env
           1%positive 50%positive "test.foo" "/data/db" w 1%positive
           (mkClient None (Some 10%positive)) 10%positive
           (sample_curop 5 None true false 1)).
  - reflexivity.
  - reflexivity.
  - reflexivity.
  - reflexivity.
  - discriminate.
  - reflexivity.
  - reflexivity.
  - reflexivity.
  - reflexivity.
Defined.

(** ** A Context from construction to destruction *)

Lemma scope_outcome env now now' this args w w1 c cl a co :
  currentClient w = Some c -> clientObjs w !! c = Some cl ->
  _curOp cl = Some a -> curOps w !! a = Some co ->
  Context_ctor env now this args w = Returned tt w1 ->
  exists C co1,
    Context_dtor now' this w1
    = Returned tt
        (context_left now' this c (mkClient (Some this) (_curOp cl)) a co1
                      C w1) /\
    contexts w1 = <[this := C]> (contexts w) /\
    clientObjs w1
    = <[c := mkClient (Some this) (_curOp cl)]> (clientObjs w) /\
    _oldContext C = _context cl /\
    top_records (log w1) = top_records (log w) /\
    currentClient w1 = currentClient w /\ clients w1 = clients w /\
    dbMutexState w1 = dbMutexState w /\
    curOps w1 = <[a := co1]> (curOps w) /\
    co1 = (if calls_enter args
           then CurOp_enter now
                  (mkContext c (_context cl) (_path C) (_justCreated C)
                             (args_ns args) (_db C)) co
           else co).
Proof.
  intros Hc Hcl Ha Hco Hctor.
  pose proof (Context_ctor_shape env now this args w c cl Hc Hcl) as Hshape.
  pose proof (ln_Context_ctor env now this args w) as Hlock.
  rewrite Hctor in Hshape, Hlock.
  destruct Hshape as (C & Hctx & Hobjs & HC & Hold & Hns & Htop & Hcur & Hreg
                      & Hkeep & Henter).
  assert (HC' : C = mkContext c (_context cl) (_path C) (_justCreated C)
                              (args_ns args) (_db C)).
  { destruct C. cbn in *. congruence. }
  assert (Hops : exists co1,
             curOps w1 = <[a := co1]> (curOps w) /\
             co1 = (if calls_enter args
                    then CurOp_enter now
                           (mkContext c (_context cl) (_path C)
                              (_justCreated C) (args_ns args) (_db C)) co
                    else co)).
  { destruct (calls_enter args).
    - destruct (Henter eq_refl) as (a' & co' & Ha' & Hco' & Hops).
      assert (a' = a) as -> by congruence.
      assert (co' = co) as -> by congruence.
      eexists. split; [|reflexivity]. rewrite Hops, HC' at 1. reflexivity.
    - exists co. split; [|reflexivity].
      rewrite (Hkeep eq_refl). symmetry. apply insert_id, Hco. }
  destruct Hops as (co1 & Hops & Hco1).
  exists C, co1.
  split.
  { rewrite <- HC.
    apply Context_dtor_returns.
    - rewrite Hctx. apply lookup_insert_eq.
    - rewrite HC, Hobjs. apply lookup_insert_eq.
    - exact Ha.
    - rewrite Hops. apply lookup_insert_eq. }
  repeat split; assumption.
Qed.

(** X22: a Context that is constructed at a fresh address and then
    destroyed leaves the Client objects, the live Contexts, the thread's
    Client, the registry and the lock state as they were.  Of the CurOps
    only the Client's current one may differ, and it is still the same
    operation: same number, parent and killed flag, with its checkpoint at
    the time of the destruction. *)
Theorem context_scope_leaves_client_as_found
  (env : Env) (now now' : positive) (this : addr) (args : ContextArgs)
  (w w1 : World) (c : addr) (cl : Client) (a : addr) (co : CurOp)
  (Hc : currentClient w = Some c)
  (Hcl : clientObjs w !! c = Some cl)
  (Ha : _curOp cl = Some a)
  (Hco : curOps w !! a = Some co)
  (Hnew : contexts w !! this = None)
  (Hctor : Context_ctor env now this args w = Returned tt w1) :
  exists w2,
    Context_dtor now' this w1 = Returned tt w2 /\
    clientObjs w2 = clientObjs w /\
    contexts w2 = contexts w /\
    currentClient w2 = currentClient w /\
    clients w2 = clients w /\
    dbMutexState w2 = dbMutexState w /\
    (forall b, b <> a -> curOps w2 !! b = curOps w !! b) /\
    exists co2,
      curOps w2 !! a = Some co2 /\
      _opNum co2 = _opNum co /\ _wrapped co2 = _wrapped co /\
      _killed co2 = _killed co /\ _checkpoint co2 = Z.pos now'.
Proof.
  destruct (scope_outcome env now now' this args w w1 c cl a co
              Hc Hcl Ha Hco Hctor)
    as (C & co1 & Hdtor & Hctx & Hobjs & Hold & _ & Hcur & Hreg & Hlock
        & Hops & Hco1).
  eexists. split; [exact Hdtor|].
  unfold context_left. cbn.
  split.
  { rewrite Hobjs, Hold. apply restore_clientObjs; [exact Hcl|reflexivity]. }
  split.
  { rewrite Hctx, delete_insert_eq. apply delete_id, Hnew. }
  split; [exact Hcur|]. split; [exact Hreg|]. split; [exact Hlock|].
  split.
  { intros b Hb. rewrite Hops, !lookup_insert_ne by congruence. reflexivity. }
  eexists. split; [apply lookup_insert_eq|].
  rewrite Hco1. destruct (calls_enter args); cbn;
    unfold ensureStarted; destruct (_start co =? 0); repeat split.
Qed.

Lemma context_scope_leaves_client_as_found_witness :
  let w := set_dbMutexState 1 sample_world in
  exists w1 w2,
    Context_ctor sample_env 1%positive 50%positive
      (ArgsNsPath "test.foo" "/data/db" true) w = Returned tt w1 /\
    Context_dtor 2%positive 50%positive w1 = Returned tt w2 /\
    clientObjs w2 = clientObjs w /\
    contexts w2 = contexts w /\
    dbMutexState w2 = dbMutexState w.
Proof.
  intros w.
  assert (Hctor : exists w1,
             Context_ctor sample_env 1%positive 50%positive
               (ArgsNsPath "test.foo" "/data/db" true) w = Returned tt w1).
  { eexists. vm_compute. reflexivity. }
  destruct Hctor as [w1 Hctor]. exists w1.
  destruct (context_scope_leaves_client_as_found sample_env 1%positive
              2%positive 50%positive (ArgsNsPath "test.foo" "/data/db" true)
              w w1 1%positive (mkClient None (Some 10%positive)) 10%positive
              (sample_curop 5 None true false 1)
              eq_refl eq_refl eq_refl eq_refl eq_refl Hctor)
    as (w2 & Hdtor & Hobjs & Hctx & _ & _ & Hlock & _).
  exists w2. repeat split; assumption.
Defined.

(** X23: what a destroyed Context reports to the Top statistics is one
    record.  After a constructor that enters the current operation
    ([_finishInit], or the one invoked from ReadContext) it is filed under
    the Context's namespace; after the constructor over a database
    handle, which does not enter, it is filed under whatever namespace the
    operation had before. *)
Theorem context_scope_files_one_top_record
  (env : Env) (now now' : positive) (this : addr) (args : ContextArgs)
  (w w1 : World) (c : addr) (cl : Client) (a : addr) (co : CurOp)
  (Hc : currentClient w = Some c)
  (Hcl : clientObjs w !! c = Some cl)
  (Ha : _curOp cl = Some a)
  (Hco : curOps w !! a = Some co)
  (Hctor : Context_ctor env now this args w = Returned tt w1) :
  exists w2,
    Context_dtor now' this w1 = Returned tt w2 /\
    top_records (log w2)
    = top_records (log w)
      ++ [if calls_enter args then args_ns args else _ns co].
Proof.
  destruct (scope_outcome env now now' this args w w1 c cl a co
              Hc Hcl Ha Hco Hctor)
    as (C & co1 & Hdtor & _ & _ & _ & Htop & _ & _ & _ & _ & Hco1).
  eexists. split; [exact Hdtor|].
  unfold context_left. cbn.
  rewrite !top_records_app, Htop. cbn.
  rewrite Hco1, app_nil_r. destruct (calls_enter args); reflexivity.
Qed.

Lemma context_scope_files_one_top_record_witness :
  exists w1 w2,
    Context_ctor sample_env 1%positive 50%positive
      (ArgsNsDb "test.foo" None false) sample_world = Returned tt w1 /\
    Context_dtor 2%positive 50%positive w1 = Returned tt w2 /\
    top_records (log w2)
    = top_records (log sample_world)
      ++ [_ns (sample_curop 5 None true false 1)].
Proof.
  assert (Hctor : exists w1,
             Context_ctor sample_env 1%positive 50%positive
               (ArgsNsDb "test.foo" None false) sample_world
             = Returned tt w1).
  { eexists. vm_compute. reflexivity. }
  destruct Hctor as [w1 Hctor]. exists w1.
  destruct (context_scope_files_one_top_record sample_env 1%positive
              2%positive 50%positive (ArgsNsDb "test.foo" None false)
              sample_world w1 1%positive (mkClient None (Some 10%positive))
              10%positive (sample_curop 5 None true false 1)
              eq_refl eq_refl eq_refl eq_refl Hctor)
    as (w2 & Hdtor & Htop).
  exists w2. repeat split; assumption.
Defined.

(** ** Locks *)

(** X24: no Context constructor and no Context destructor changes the
    lock state of the thread, whether it returns or throws. *)
Theorem contexts_never_touch_the_locks
  (env : Env) (now : positive) (this : addr) (args : ContextArgs) :
  lock_neutral (Context_ctor env now this args) /\
  lock_neutral (Context_dtor now this).
Proof. split; [apply ln_Context_ctor | apply ln_Context_dtor]. Qed.

Lemma Context_dtor_never_throws now this w e w' :
  Context_dtor now this w <> Threw e w'.
Proof.
  unfold Context_dtor, client_leave, store_client_context, client_curop,
    deref_context, deref_client, deref_curop, emit, modify, of_option, bind,
    ret, undefined.
  repeat (cbn; match goal with
               | |- context [match ?x with _ => _ end] =>
                   lazymatch x with
                   | context [match _ with _ => _ end] => fail
                   | _ => destruct x
                   end
               end); cbn; discriminate.
Qed.

Lemma unwinding_returned_inv {A} (m : M A) cleanup w a w' :
  unwinding m cleanup w = Returned a w' -> m w = Returned a w'.
Proof.
  unfold unwinding. destruct (m w) as [| e w1 | |]; try (intros H; exact H).
  destruct (cleanup w1); discriminate.
Qed.

Lemma unwinding_readlock {A} (m : M A) (w1 : World) :
  lock_neutral m -> dbMutexState w1 <> 0 ->
  match unwinding m readlock_dtor w1 with
  | Returned _ w' => dbMutexState w' = dbMutexState w1
  | Threw _ w' =>
      dbMutexState w'
      = (if 0 <? dbMutexState w1 then dbMutexState w1 - 1
         else dbMutexState w1 + 1)
  | _ => True
  end.
Proof.
  intros Hm Hs. unfold unwinding. specialize (Hm w1).
  destruct (m w1) as [a w2|e w2| |]; try exact Hm; try exact I.
  rewrite readlock_dtor_eq by congruence. cbn. rewrite Hm. reflexivity.
Qed.

Lemma unwinding_writelock (m : M unit) (w1 : World) :
  lock_neutral m -> 0 < dbMutexState w1 ->
  match unwinding m writelock_dtor w1 with
  | Returned _ w' => dbMutexState w' = dbMutexState w1
  | Threw _ w' => dbMutexState w' = dbMutexState w1 - 1
  | _ => True
  end.
Proof.
  intros Hm Hs. unfold unwinding. specialize (Hm w1).
  destruct (m w1) as [[] w2|e w2| |]; try exact Hm; try exact I.
  rewrite writelock_dtor_eq by lia. cbn. rewrite Hm. reflexivity.
Qed.

(** X25: the locks of a ReadContext balance.  When the constructor
    returns, the thread holds exactly one read lock more than before (the
    lock state is that of one more read lock, and [lk] owns it), whatever
    way the database was found or created; when it throws, the lock state
    is what it was before the construction. *)
Theorem ReadContext_locks_balance
  (env : Env) (now1 now2 now3 : positive) (tmp this : addr)
  (ns path : string) (doauth : bool) (w : World) :
  match ReadContext_ctor env now1 now2 now3 tmp this ns path doauth w with
  | Returned rc w' =>
      dbMutexState w' = read_locked_state (dbMutexState w) /\
      lk rc = true /\ ClientCpp.c rc = Some this
  | Threw _ w' => dbMutexState w' = dbMutexState w
  | _ => True
  end.
Proof.
  pose proof (readlock_ctor_eq w) as E1.
  set (w1 := emit_event EvReadLock _) in E1.
  assert (Hs1 : dbMutexState w1 = read_locked_state (dbMutexState w))
    by reflexivity.
  assert (Hne : dbMutexState w1 <> 0).
  { rewrite Hs1. unfold read_locked_state.
    destruct (Z.ltb_spec 0 (dbMutexState w)); lia. }
  assert (Hback : (if 0 <? dbMutexState w1 then dbMutexState w1 - 1
                   else dbMutexState w1 + 1) = dbMutexState w).
  { rewrite Hs1. unfold read_locked_state.
    destruct (Z.ltb_spec 0 (dbMutexState w)) as [H|H].
    - replace (0 <? dbMutexState w + 1) with true by lia. lia.
    - replace (0 <? dbMutexState w - 1) with false by lia. lia. }
  unfold ReadContext_ctor.
  rewrite (bind_returned _ _ _ _ _ E1).
  unfold dbHolder_get at 1. unfold bind at 1.
  destruct (dbHolder w1 !! (path, nsToDatabase ns)) as [d|].
  - pose proof (unwinding_readlock
                  (Context_path_ns_db env now1 this path ns (Some d) doauth)
                  w1 (ln_Context_ctor env now1 this
                        (ArgsPathNsDb path ns (Some d) doauth)) Hne) as H.
    unfold bind at 1.
    destruct (unwinding _ _ w1) as [[] w2|e w2| |]; try exact I.
    + cbn. rewrite H, Hs1. repeat split.
    + rewrite H.
           first [exact Hback
                 | destruct (Z.ltb_spec 0 (dbMutexState w1)); lia].
  - unfold getState at 1. unfold bind at 1.
    destruct (Z.ltb_spec 0 (dbMutexState w1)) as [Hw|Hw].
    + pose proof (unwinding_readlock
                    (Context_ns_path env now1 this ns path doauth)
                    w1 (ln_Context_ctor env now1 this
                          (ArgsNsPath ns path doauth)) Hne) as H.
      unfold bind at 1.
      destruct (unwinding _ _ w1) as [[] w2|e w2| |]; try exact I.
      * cbn. rewrite H, Hs1. repeat split.
      * rewrite H.
           first [exact Hback
                 | destruct (Z.ltb_spec 0 (dbMutexState w1)); lia].
    + destruct (Z.eqb_spec (dbMutexState w1) (-1)) as [Hone|Hmany].
      * assert (Hs0 : dbMutexState w = 0).
        { rewrite Hs1 in Hone. unfold read_locked_state in Hone.
          destruct (Z.ltb_spec 0 (dbMutexState w)); lia. }
        pose proof (readlock_dtor_eq w1 Hne) as E2.
        replace (0 <? dbMutexState w1) with false in E2 by lia.
        set (w2 := emit_event EvReadUnlock _) in E2.
        assert (Hs2 : dbMutexState w2 = 0)
          by (change (dbMutexState w1 + 1 = 0); lia).
        rewrite (bind_returned _ _ _ _ _ E2).
        pose proof (writelock_ctor_eq w2 ltac:(lia)) as E3.
        set (w3 := emit_event EvWriteLock _) in E3.
        assert (Hs3 : dbMutexState w3 = 1)
          by (change (dbMutexState w2 + 1 = 1); lia).
        rewrite (bind_returned _ _ _ _ _ E3).
        pose proof (unwinding_writelock
                      (Context_ns_path env now1 tmp ns path doauth)
                      w3 (ln_Context_ctor env now1 tmp
                            (ArgsNsPath ns path doauth)) ltac:(lia)) as H4.
        unfold bind at 1.
        destruct (unwinding _ _ w3) as [[] w4|e w4| |]; try exact I;
          [|lia].
        pose proof (ln_Context_dtor now2 tmp w4) as H5.
        unfold bind at 1.
        pose proof (Context_dtor_never_throws now2 tmp w4) as Hno.
        destruct (Context_dtor now2 tmp w4) as [[] w5|e w5| |];
          try exact I; [|exfalso; apply (Hno e w5); reflexivity].
        pose proof (writelock_dtor_eq w5 ltac:(lia)) as E6.
        set (w6 := emit_event EvWriteUnlock _) in E6.
        assert (Hs6 : dbMutexState w6 = 0)
          by (change (dbMutexState w5 - 1 = 0); lia).
        rewrite (bind_returned _ _ _ _ _ E6).
        pose proof (readlock_ctor_eq w6) as E7.
        replace (0 <? dbMutexState w6) with false in E7 by lia.
        set (w7 := emit_event EvReadLock _) in E7.
        assert (Hs7 : dbMutexState w7 = -1)
          by (change (dbMutexState w6 - 1 = -1); lia).
        rewrite (bind_returned _ _ _ _ _ E7).
        pose proof (unwinding_readlock
                      (Context_ns_path env now3 this ns path doauth)
                      w7 (ln_Context_ctor env now3 this
                            (ArgsNsPath ns path doauth)) ltac:(lia)) as H8.
        replace (0 <? dbMutexState w7) with false in H8 by lia.
        unfold bind at 1.
        destruct (unwinding _ _ w7) as [[] w8|e w8| |]; try exact I.
        -- cbn. rewrite H8, Hs7, Hs0. repeat split.
        -- lia.
      * assert (Hn : lock_neutral
                       (assert (dbMutexState w1 <? -1) "x < -1" ;;
                        @throw ReadContext
                          (UserException 15928
                             ("can't open a database from a nested read lock "
                              +:+ ns)))).
        { apply ln_bind; [apply ln_assert|intros ?; apply ln_throw]. }
        pose proof (unwinding_readlock _ w1 Hn Hne) as H.
        destruct (unwinding _ _ w1) as [u w2|e w2| |] eqn:E; try exact I.
        -- exfalso. apply unwinding_returned_inv in E.
           unfold bind, assert in E.
           destruct (dbMutexState w1 <? -1); discriminate.
        -- rewrite H.
           first [exact Hback
                 | destruct (Z.ltb_spec 0 (dbMutexState w1)); lia].
Qed.

End ContextFacts.
